(** * EPC retrieval and caching pipeline

    A shallow embedding of the two modules that carry the control flow of
    the EPC tool:

    - [src/api/pagination.py]: [SearchAfterPaginator._make_request] (the
      retrying HTTP fetcher) and [SearchAfterPaginator.paginate] (the
      search-after cursor loop);
    - [src/data/database.py]: [EPCDatabase], the SQLite-backed cache.

    Python values are modelled by the inductive types below, Python [int]
    by [Z], exceptions by an error monad, the network and the clock by
    explicit oracles, and every observable effect (HTTP request, sleep,
    log record, yielded page) by an entry of a trace. *)

From Stdlib Require Import ZArith String Ascii List Bool Lia.
From stdpp Require Import base option list gmap strings pretty fin_maps.

Set Warnings "-register-all".

Local Open Scope string_scope.
Local Open Scope list_scope.
Local Open Scope Z_scope.

(** ** Python values *)

Module Py.

(** The exceptions the modelled code can meet. *)
Inductive pyexc :=
  | TypeError
  | AttributeError
  | KeyError
  | ValueError
  | OverflowError
  | JSONDecodeError
  | ProgrammingError
  | OperationalError.

(** The levels of [logging]. *)
Inductive level := INFO | WARNING | ERROR.

(** A computation that returns or raises. *)
Inductive exec (A : Type) :=
  | Returned (a : A)
  | Raised (e : pyexc).
Arguments Returned {A} a.
Arguments Raised {A} e.

#[export] Instance exec_ret : MRet exec := fun _ a => Returned a.
#[export] Instance exec_bind : MBind exec := fun _ _ f m =>
  match m with
  | Returned a => f a
  | Raised e => Raised e
  end.

(** Hashable values, the keys of a [dict].  Floating-point numbers are
    outside the model. *)
Inductive pykey :=
  | KNone
  | KBool (b : bool)
  | KInt (z : Z)
  | KStr (s : string).

(** Values decoded from JSON, and the dictionaries built from them.  A
    [dict] keeps its keys in insertion order. *)
Inductive pyval :=
  | PNone
  | PBool (b : bool)
  | PInt (z : Z)
  | PStr (s : string)
  | PList (l : list pyval)
  | PDict (d : list (pykey * pyval)).

Abbreviation pydict := (list (pykey * pyval)).

(** [bool] is a subclass of [int]: [True == 1] and [False == 0], also as
    dictionary keys. *)
Definition key_num (k : pykey) : option Z :=
  match k with
  | KBool b => Some (if b then 1 else 0)
  | KInt z => Some z
  | _ => None
  end.

Definition key_eqb (k1 k2 : pykey) : bool :=
  match k1, k2 with
  | KNone, KNone => true
  | KStr a, KStr b => String.eqb a b
  | _, _ =>
      match key_num k1, key_num k2 with
      | Some a, Some b => a =? b
      | _, _ => false
      end
  end.

(** [d.get(k)] *)
Fixpoint dict_get (k : pykey) (d : pydict) : option pyval :=
  match d with
  | [] => None
  | (k', v) :: d' => if key_eqb k' k then Some v else dict_get k d'
  end.

(** [k in d] *)
Definition dict_mem (k : pykey) (d : pydict) : bool :=
  match dict_get k d with Some _ => true | None => false end.

(** [d[k] = v]: an existing key keeps its place (and its spelling), a new
    key goes last. *)
Fixpoint dict_set (k : pykey) (v : pyval) (d : pydict) : pydict :=
  match d with
  | [] => [(k, v)]
  | (k', v') :: d' =>
      if key_eqb k' k then (k', v) :: d' else (k', v') :: dict_set k v d'
  end.

(** [hash(v)]: lists and dicts are unhashable. *)
Definition to_key (v : pyval) : exec pykey :=
  match v with
  | PNone => Returned KNone
  | PBool b => Returned (KBool b)
  | PInt z => Returned (KInt z)
  | PStr s => Returned (KStr s)
  | PList _ | PDict _ => Raised TypeError
  end.

Definition of_key (k : pykey) : pyval :=
  match k with
  | KNone => PNone
  | KBool b => PBool b
  | KInt z => PInt z
  | KStr s => PStr s
  end.

(** [bool(v)] *)
Definition py_truthy (v : pyval) : bool :=
  match v with
  | PNone => false
  | PBool b => b
  | PInt z => negb (z =? 0)
  | PStr s => negb (String.eqb s "")
  | PList l => match l with [] => false | _ => true end
  | PDict d => match d with [] => false | _ => true end
  end.

(** [len(v)] *)
Definition py_len (v : pyval) : exec Z :=
  match v with
  | PStr s => Returned (Z.of_nat (String.length s))
  | PList l => Returned (Z.of_nat (length l))
  | PDict d => Returned (Z.of_nat (length d))
  | PNone | PBool _ | PInt _ => Raised TypeError
  end.

(** [iter(v)]: a string yields its characters, a dict its keys. *)
Definition py_iter (v : pyval) : exec (list pyval) :=
  match v with
  | PList l => Returned l
  | PStr s => Returned (map (fun c => PStr (String c EmptyString)) (list_ascii_of_string s))
  | PDict d => Returned (map (fun kv => of_key (fst kv)) d)
  | PNone | PBool _ | PInt _ => Raised TypeError
  end.

Definition is_substring (s t : string) : bool :=
  match String.index 0 s t with Some _ => true | None => false end.

(** ['name' in v] for a string literal ['name']. *)
Definition py_in (name : string) (v : pyval) : exec bool :=
  match v with
  | PDict d => Returned (dict_mem (KStr name) d)
  | PList l =>
      Returned (existsb (fun x => match x with PStr s => String.eqb s name | _ => false end) l)
  | PStr t => Returned (is_substring name t)
  | PNone | PBool _ | PInt _ => Raised TypeError
  end.

(** [v.get('name', default)]: only a dict has the method. *)
Definition py_get (v : pyval) (name : string) (default : pyval) : exec pyval :=
  match v with
  | PDict d => Returned (match dict_get (KStr name) d with Some x => x | None => default end)
  | _ => Raised AttributeError
  end.

(** [v['name']] *)
Definition py_index (v : pyval) (name : string) : exec pyval :=
  match v with
  | PDict d => match dict_get (KStr name) d with Some x => Returned x | None => Raised KeyError end
  | _ => Raised TypeError
  end.

(** [dict(pairs)], filling [acc] from left to right. *)
Fixpoint dict_of_pairs (ps : list (pyval * pyval)) (acc : pydict) : exec pydict :=
  match ps with
  | [] => Returned acc
  | (k, v) :: ps' => k' ← to_key k; dict_of_pairs ps' (dict_set k' v acc)
  end.

(** [dict(zip(columns, row))]: [zip] stops at the shorter argument. *)
Definition dict_zip (columns row : pyval) : exec pydict :=
  cs ← py_iter columns;
  rs ← py_iter row;
  dict_of_pairs (combine cs rs) [].

(** [[f(x) for x in xs]] *)
Fixpoint comprehension {A B} (f : A → exec B) (xs : list A) : exec (list B) :=
  match xs with
  | [] => Returned []
  | x :: xs' => y ← f x; ys ← comprehension f xs'; Returned (y :: ys)
  end.

End Py.

(** ** [src/api/pagination.py] *)

Module Pagination.

Import Py.

(** *** Configuration ([config/settings.py]) *)

Record Config := {
  REQUEST_TIMEOUT : Z;
  RETRY_ATTEMPTS : Z;
  RETRY_DELAY : Z;
  PAGE_SIZE : Z
}.

(** The values of the class attributes of [Config]. *)
Definition settings : Config :=
  {| REQUEST_TIMEOUT := 30; RETRY_ATTEMPTS := 3; RETRY_DELAY := 1; PAGE_SIZE := 5000 |}.

(** *** The network, and what an observer sees *)

Record request := {
  url : string;
  query : pydict;
  timeout : Z
}.

(** What [session.get] does: it returns a response, whose body
    [response.json()] decodes ([Some]) or rejects ([None]), or it raises a
    [requests.RequestException]. *)
Inductive http_outcome :=
  | Response (status_code : Z) (text : string) (json : option pyval)
  | RequestException (message : string).

(** The upstream service: the outcome of the [n]-th request of the
    session, which may depend on the request. *)
Definition server := nat → request → http_outcome.

(** The log lines of [pagination.py], by their arguments. *)
Inductive log_record :=
  | NoResponse (page : Z)
  | NoMoreData (pages : Z)
  | PageRetrieved (page size total : Z)
  | PaginationComplete (total : Z)
  | PageError (page : Z) (e : pyexc)
  | RateLimited (wait_time : Z)
  | ApiError (status : Z) (body : string)
  | RequestFailedRetrying (wait_time : Z) (e : string)
  | RequestFailed (attempts : Z) (e : string).

(** A yielded page. *)
Record page := {
  data : pyval;
  page_number : Z;
  page_size : Z;
  total_retrieved : Z
}.

Inductive event :=
  | EGet (r : request)
  | ESleep (milliseconds : Z)
  | ELog (lvl : level) (r : log_record)
  | EYield (p : page).

Definition is_get (e : event) : bool :=
  match e with EGet _ => true | _ => false end.

Definition is_sleep (e : event) : bool :=
  match e with ESleep _ => true | _ => false end.

(** The pages a consumer that drains the generator receives. *)
Fixpoint pages (tr : list event) : list page :=
  match tr with
  | [] => []
  | EYield p :: tr' => p :: pages tr'
  | _ :: tr' => pages tr'
  end.

(** The requests sent, in order. *)
Fixpoint requests (tr : list event) : list request :=
  match tr with
  | [] => []
  | EGet r :: tr' => r :: requests tr'
  | _ :: tr' => requests tr'
  end.

(** *** [SearchAfterPaginator] *)

Section SearchAfterPaginator.

Variable cfg : Config.
Variable upstream : server.
Variable base_url : string.

(** [time.sleep(seconds)] raises [ValueError] on a negative argument;
    otherwise the sleep is recorded and [k] runs. *)
Definition sleep_then (seconds : Z) (before : list event)
    (k : exec pyval * list event * nat) (n : nat) : exec pyval * list event * nat :=
  if seconds <? 0 then (Raised ValueError, before, n)
  else let '(r, evs, n') := k in (r, before ++ ESleep (1000 * seconds) :: evs, n').

(** The body of [for attempt in range(Config.RETRY_ATTEMPTS)], with
    [remaining] iterations left, the session having sent [n] requests.
    A body that [response.json()] rejects raises
    [requests.exceptions.JSONDecodeError], which is a [RequestException]
    in the versions of requests the package admits ([requests>=2.28.0]).
    The result is the returned value ([PNone] for [None]), the trace, and
    the number of requests sent by the session. *)
Fixpoint attempts (req : request) (remaining : nat) (attempt : Z) (n : nat)
    : exec pyval * list event * nat :=
  match remaining with
  | O => (Returned PNone, [], n)
  | S remaining' =>
      let on_request_exception (e : string) :=
        if attempt <? RETRY_ATTEMPTS cfg - 1 then
          let wait_time := (attempt + 1) * RETRY_DELAY cfg in
          sleep_then wait_time
            [EGet req; ELog WARNING (RequestFailedRetrying wait_time e)]
            (attempts req remaining' (attempt + 1) (S n)) (S n)
        else
          (Returned PNone, [EGet req; ELog ERROR (RequestFailed (RETRY_ATTEMPTS cfg) e)], S n) in
      match upstream n req with
      | Response status_code text json =>
          if status_code =? 200 then
            match json with
            | Some body => (Returned body, [EGet req], S n)
            | None => on_request_exception "JSONDecodeError"
            end
          else if status_code =? 429 then
            let wait_time := (attempt + 1) * RETRY_DELAY cfg in
            sleep_then wait_time
              [EGet req; ELog WARNING (RateLimited wait_time)]
              (attempts req remaining' (attempt + 1) (S n)) (S n)
          else
            (Returned PNone, [EGet req; ELog ERROR (ApiError status_code text)], S n)
      | RequestException e => on_request_exception e
      end
  end.

Definition _make_request (endpoint : string) (params : pydict) (n : nat)
    : exec pyval * list event * nat :=
  let url := base_url +:+ "/" +:+ endpoint in
  attempts {| url := url; query := params; timeout := REQUEST_TIMEOUT cfg |}
    (Z.to_nat (RETRY_ATTEMPTS cfg)) 0 n.

(** Lines 35-44 of [paginate]: the record batch of a response. *)
Definition normalize (response : pyval) : exec pyval :=
  has_data ← py_in "data" response;
  if has_data : bool then py_get response "data" (PList [])
  else
    has_rows ← py_in "rows" response;
    has_columns ← (if has_rows : bool then py_in "column-names" response else Returned false);
    if has_rows && has_columns then
      columns ← py_index response "column-names";
      rows ← py_index response "rows";
      rows_seq ← py_iter rows;
      records ← comprehension (fun row => d ← dict_zip columns row; Returned (PDict d)) rows_seq;
      Returned (PList records)
    else Returned (PList []).

Variable endpoint : string.
Variable params : pydict.
Variable search_after_key : string.

(** The local variables of [paginate]. *)
Record locals := {
  search_after : pyval;
  page_count : Z;
  total_records : Z
}.

Definition page_params (st : locals) : pydict :=
  let page_params := params in
  let page_params :=
    if py_truthy (search_after st)
    then dict_set (KStr search_after_key) (search_after st) page_params
    else page_params in
  dict_set (KStr "size") (PInt (PAGE_SIZE cfg)) page_params.

(** One pass through the body of [while True].  The second component is
    [None] after a [break] and the locals and request count for the next
    pass otherwise.  Every exception is caught by [except Exception],
    logged, and ends the loop. *)
Definition cycle (st : locals) (n : nat) : list event * option (locals * nat) :=
  let '(fetched, evs, n') := _make_request endpoint (page_params st) n in
  let caught (page_count : Z) (evs : list event) (e : pyexc) :=
    (evs ++ [ELog ERROR (PageError (page_count + 1) e)], None) in
  match fetched with
  | Raised e => caught (page_count st) evs e
  | Returned response =>
      if negb (py_truthy response) then
        (evs ++ [ELog WARNING (NoResponse (page_count st + 1))], None)
      else
        match normalize response with
        | Raised e => caught (page_count st) evs e
        | Returned data =>
            if negb (py_truthy data) then
              (evs ++ [ELog INFO (NoMoreData (page_count st))], None)
            else
              let page_count := page_count st + 1 in
              match py_len data with
              | Raised e => caught page_count evs e
              | Returned size =>
                  let total_records := total_records st + size in
                  let evs := evs ++
                    [ELog INFO (PageRetrieved page_count size total_records);
                     EYield {| data := data; page_number := page_count;
                               page_size := size; total_retrieved := total_records |}] in
                  match py_get response "next-search-after" PNone with
                  | Raised e => caught page_count evs e
                  | Returned search_after =>
                      if negb (py_truthy search_after) then
                        (evs ++ [ELog INFO (PaginationComplete total_records)], None)
                      else
                        (evs ++ [ESleep 100],
                         Some ({| search_after := search_after; page_count := page_count;
                                  total_records := total_records |}, n'))
                  end
              end
        end
  end.

(** At most [fuel] passes through the loop, from the given locals. *)
Fixpoint paginate_from (fuel : nat) (st : locals) (n : nat)
    : list event * option (locals * nat) :=
  match fuel with
  | O => ([], Some (st, n))
  | S fuel' =>
      match cycle st n with
      | (evs, None) => (evs, None)
      | (evs, Some (st', n')) =>
          let '(evs', rest) := paginate_from fuel' st' n' in (evs ++ evs', rest)
      end
  end.

Definition initial : locals :=
  {| search_after := PNone; page_count := 0; total_records := 0 |}.

(** [paginate(endpoint, params, search_after_key)], drained by its
    consumer for at most [fuel] passes, on a session that has sent [n]
    requests before. *)
Definition paginate (fuel : nat) (n : nat) : list event * option (locals * nat) :=
  paginate_from fuel initial n.

(** The generator is exhausted: the loop was left. *)
Definition finished (run : list event * option (locals * nat)) : Prop :=
  snd run = None.

(** *** Vocabulary of the statements *)

(** The [n]-th request of the session is answered 200 with the JSON
    object [body], whatever is asked. *)
Definition answers (n : nat) (body : pydict) : Prop :=
  ∀ req, ∃ text, upstream n req = Response 200 text (Some (PDict body)).

(** The continuation cursor of a response, [None] when it has none. *)
Definition cursor (body : pydict) : pyval :=
  match dict_get (KStr "next-search-after") body with Some token => token | None => PNone end.

(** The response normalizes to the non-empty batch [batch] of [size]
    records. *)
Definition carries (body : pydict) (batch : pyval) (size : Z) : Prop :=
  normalize (PDict body) = Returned batch ∧ py_truthy batch = true ∧
  py_len batch = Returned size.

(** The response normalizes to an empty batch. *)
Definition carries_nothing (body : pydict) : Prop :=
  ∃ batch, normalize (PDict body) = Returned batch ∧ py_truthy batch = false.

(** The fetch that starts when the session has sent [n] requests returns
    the JSON object [body], whatever is asked and however many attempts
    it takes, and leaves the session with [n'] requests sent. *)
Definition fetches (n : nat) (body : pydict) (n' : nat) : Prop :=
  ∀ query, ∃ evs, _make_request endpoint query n = (Returned (PDict body), evs, n').

(** The fetcher returns failure, or a falsy body, for the fetch that
    starts after [n] requests: the [not response] of [paginate]. *)
Definition fetch_fails (n : nat) : Prop :=
  ∀ query, ∃ value evs n',
    _make_request endpoint query n = (Returned value, evs, n') ∧ py_truthy value = false.

(** A sequence of fetch outcomes that keeps the loop going: from [n]
    requests on, the successive fetches return [bodies], each with a
    non-empty batch, those of [batches], and a cursor, and leave the
    session with [n_end] requests sent. *)
Fixpoint leads (n : nat) (bodies : list pydict) (batches : list pyval) (n_end : nat)
    : Prop :=
  match bodies, batches with
  | [], [] => n_end = n
  | body :: bodies', batch :: batches' =>
      ∃ n' size,
        fetches n body n' ∧ carries body batch size ∧
        py_truthy (cursor body) = true ∧ leads n' bodies' batches' n_end
  | _, _ => False
  end.

(** The page yielded for a batch, and the locals after it. *)
Definition page_of (st : locals) (batch : pyval) (size : Z) : page :=
  {| data := batch; page_number := page_count st + 1; page_size := size;
     total_retrieved := total_records st + size |}.

Definition after_page (st : locals) (token : pyval) (size : Z) : locals :=
  {| search_after := token; page_count := page_count st + 1;
     total_records := total_records st + size |}.

(** The request of the attempts of [_make_request endpoint query]. *)
Definition request_of (query : pydict) : request :=
  {| url := base_url +:+ "/" +:+ endpoint; query := query; timeout := REQUEST_TIMEOUT cfg |}.

(** What an attempt answered 429 leaves in the trace, by its 1-based
    number. *)
Definition rate_limited_attempt (req : request) (attempt_number : nat) : list event :=
  let wait_time := Z.of_nat attempt_number * RETRY_DELAY cfg in
  [EGet req; ELog WARNING (RateLimited wait_time); ESleep (1000 * wait_time)].

End SearchAfterPaginator.

(** The response without its cursor field. *)
Definition without_cursor (body : pydict) : pydict :=
  filter (fun kv => key_eqb (fst kv) (KStr "next-search-after") = false) body.

(** The mapping that pairs each column name with the value at the same
    position of the row, left to right; a mapping holds one value per
    name, so of a name that occurs twice the later value stands. *)
Definition zip_mapping (names : list string) (values : list pyval) : pydict :=
  fold_left (fun acc kv => dict_set (KStr (fst kv)) (snd kv) acc) (combine names values) [].

(** The record sequence a columnar response encodes. *)
Definition records_of (names : list string) (rows : list (list pyval)) : pyval :=
  PList (map (fun row => PDict (zip_mapping names row)) rows).

End Pagination.

(** ** Dates and times ([datetime], and SQLite's [CURRENT_TIMESTAMP]) *)

Module Datetime.

Import Py.

(** A naive [datetime.datetime]. *)
Record datetime := {
  year : Z;
  month : Z;
  day : Z;
  hour : Z;
  minute : Z;
  second : Z;
  microsecond : Z
}.

Definition is_leap (y : Z) : bool :=
  (y mod 4 =? 0) && (negb (y mod 100 =? 0) || (y mod 400 =? 0)).

Definition days_in_month (y m : Z) : Z :=
  if m =? 2 then (if is_leap y then 29 else 28)
  else if (m =? 4) || (m =? 6) || (m =? 9) || (m =? 11) then 30
  else 31.

Definition valid (dt : datetime) : bool :=
  (1 <=? year dt) && (year dt <=? 9999) &&
  (1 <=? month dt) && (month dt <=? 12) &&
  (1 <=? day dt) && (day dt <=? days_in_month (year dt) (month dt)) &&
  (0 <=? hour dt) && (hour dt <? 24) &&
  (0 <=? minute dt) && (minute dt <? 60) &&
  (0 <=? second dt) && (second dt <? 60) &&
  (0 <=? microsecond dt) && (microsecond dt <? 1000000).

(** Days before January 1st of year [y]. *)
Definition days_before_year (y : Z) : Z :=
  let y := y - 1 in y * 365 + y / 4 - y / 100 + y / 400.

(** Days of year [y] before the first of month [S months]. *)
Fixpoint days_before_month (y : Z) (months : nat) : Z :=
  match months with
  | O => 0
  | S k => days_before_month y k + days_in_month y (Z.of_nat (S k))
  end.

(** [date.toordinal()]: January 1st of year 1 is day 1. *)
Definition toordinal (dt : datetime) : Z :=
  days_before_year (year dt)
  + days_before_month (year dt) (Z.to_nat (month dt - 1))
  + day dt.

(** The month and day of the [n]-th day (from 0) of year [y], looking
    from month [m] on. *)
Fixpoint month_day (y : Z) (left : nat) (m : Z) (n : Z) : Z * Z :=
  match left with
  | O => (m, n + 1)
  | S left' =>
      if n <? days_in_month y m then (m, n + 1)
      else month_day y left' (m + 1) (n - days_in_month y m)
  end.

(** [date.fromordinal(n)] *)
Definition fromordinal (n : Z) : Z * Z * Z :=
  let n := n - 1 in
  let n400 := n / 146097 in
  let n := n mod 146097 in
  let n100 := n / 36524 in
  let n := n mod 36524 in
  let n4 := n / 1461 in
  let n := n mod 1461 in
  let n1 := n / 365 in
  let n := n mod 365 in
  let y := n400 * 400 + n100 * 100 + n4 * 4 + n1 + 1 in
  if (n1 =? 4) || (n100 =? 4) then (y - 1, 12, 31)
  else let '(m, d) := month_day y 11 1 n in (y, m, d).

Definition MAXORDINAL : Z := 3652059.
Definition microseconds_per_day : Z := 86400 * 1000000.

(** Microseconds since the start of day 0 of the calendar. *)
Definition instant (dt : datetime) : Z :=
  ((toordinal dt * 86400 + hour dt * 3600 + minute dt * 60 + second dt) * 1000000)
  + microsecond dt.

(** [dt - timedelta(microseconds=delta)]; a result outside years 1 to
    9999 raises [OverflowError], as does a [timedelta] too large to
    build. *)
Definition minus_timedelta (dt : datetime) (delta : Z) : exec datetime :=
  let total := instant dt - delta in
  let days := total / microseconds_per_day in
  let rest := total mod microseconds_per_day in
  if (0 <? days) && (days <=? MAXORDINAL) then
    let '(y, m, d) := fromordinal days in
    let seconds := rest / 1000000 in
    Returned {| year := y; month := m; day := d;
                hour := seconds / 3600; minute := (seconds mod 3600) / 60;
                second := seconds mod 60; microsecond := rest mod 1000000 |}
  else Raised OverflowError.

Definition hours (h : Z) : Z := h * 3600 * 1000000.
Definition days (d : Z) : Z := d * microseconds_per_day.

(** The last [width] decimal digits of [z], most significant first: the
    format [%0<width>d] for [0 <= z < 10 ^ width]. *)
Fixpoint digits (width : nat) (z : Z) : string :=
  match width with
  | O => ""
  | S w => digits w (z / 10) +:+ String (ascii_of_nat (48 + Z.to_nat (z mod 10))) ""
  end.

Definition date_text (dt : datetime) : string :=
  digits 4 (year dt) +:+ "-" +:+ digits 2 (month dt) +:+ "-" +:+ digits 2 (day dt).

Definition time_text (dt : datetime) : string :=
  digits 2 (hour dt) +:+ ":" +:+ digits 2 (minute dt) +:+ ":" +:+ digits 2 (second dt).

(** [dt.isoformat()]: the fraction is printed only when it is not zero. *)
Definition isoformat (dt : datetime) : string :=
  date_text dt +:+ "T" +:+ time_text dt +:+
  (if microsecond dt =? 0 then "" else "." +:+ digits 6 (microsecond dt)).

(** SQLite's [CURRENT_TIMESTAMP] when the UTC time is [utc]:
    ["YYYY-MM-DD HH:MM:SS"]. *)
Definition CURRENT_TIMESTAMP (utc : datetime) : string :=
  date_text utc +:+ " " +:+ time_text utc.

(** Comparison of two TEXT values under SQLite's BINARY collation:
    byte by byte, a proper prefix first. *)
Definition text_lt (a b : string) : bool :=
  match String.compare a b with Lt => true | _ => false end.

Definition text_gt (a b : string) : bool := text_lt b a.

End Datetime.

(** ** [src/data/database.py] *)

Module Database.

Import Py Datetime.

(** *** Cells, rows and frames *)

(** A cell of a row that [DataFrame.iterrows] yields.  The rows of a
    frame whose columns are not all of one numeric type hold Python
    objects; where a record lacks a field, the frame holds the [float]
    NaN.  The rows of a frame whose columns are all [int64] hold
    [numpy.int64] scalars, those of an all-[bool] frame [numpy.bool_]
    scalars; [numpy.float64] is a [float].

    The floats of the model are NaN and, as [CFloat z], the float of the
    integral value [z], of magnitude below [10 ^ 15]: what pandas makes
    of the integers of a column that has a missing value.  [CObject] is
    an object that [json.dumps] rejects and [sqlite3] cannot bind (a
    set, a [Decimal]), of which only the truth value matters.  Other
    floats, bytes, lists and dicts are outside the model. *)
Inductive cell :=
  | CNone
  | CBool (b : bool)
  | CInt (z : Z)
  | CNaN
  | CFloat (z : Z)
  | CStr (s : string)
  | CInt64 (z : Z)
  | CBool_ (b : bool)
  | CObject (truthy : bool).

#[export] Instance cell_eq_dec : EqDecision cell.
Proof. solve_decision. Defined.

(** [bool(c)]: NaN is true. *)
Definition cell_truthy (c : cell) : bool :=
  match c with
  | CNone => false
  | CBool b => b
  | CInt z => negb (z =? 0)
  | CNaN => true
  | CFloat z => negb (z =? 0)
  | CStr s => negb (String.eqb s "")
  | CInt64 z => negb (z =? 0)
  | CBool_ b => b
  | CObject truthy => truthy
  end.

(** A row of a frame, from column label to cell. *)
Abbreviation series := (gmap string cell).

(** The rows of a [DataFrame], in order. *)
Abbreviation DataFrame := (list series).

Definition numpy_scalar (c : cell) : bool :=
  match c with CInt64 _ | CBool_ _ => true | _ => false end.

Definition same_numpy_type (c1 c2 : cell) : bool :=
  match c1, c2 with
  | CInt64 _, CInt64 _ | CBool_ _, CBool_ _ => true
  | _, _ => false
  end.

Definition float_in_range (c : cell) : bool :=
  match c with CFloat z => Z.abs z <? 10 ^ 15 | _ => true end.

(** All the cells of a frame. *)
Definition cells (data : DataFrame) : list cell :=
  flat_map (fun row : series => snd <$> map_to_list row) data.

(** The lists of rows that are frames: every row carries the labels of
    all the columns; a [numpy] scalar occurs only when every cell is a
    scalar of that type; the floats are those of the model. *)
Definition is_frame (data : DataFrame) : bool :=
  forallb (fun row : series => bool_decide (dom row = dom (default ∅ (head data)))) data
  && forallb (fun c => negb (numpy_scalar c) || forallb (same_numpy_type c) (cells data))
       (cells data)
  && forallb float_in_range (cells data).

(** [data.empty]: no row, or no column. *)
Definition empty (data : DataFrame) : bool :=
  forallb (fun row : series => bool_decide (row = ∅)) data.

(** [row.get(label)]: [None] when the frame has no such column. *)
Definition row_get (row : series) (label : string) : cell :=
  default CNone (row !! label).

(** [row.to_dict()] holds Python objects: a [numpy] scalar is unboxed. *)
Definition to_native (c : cell) : cell :=
  match c with
  | CInt64 z => CInt z
  | CBool_ b => CBool b
  | _ => c
  end.

Definition to_dict (row : series) : gmap string cell := to_native <$> row.

(** *** The column [data] *)

(** What the column [data] of a row holds.  The type of the column is
    [JSON], which gives it NUMERIC affinity: a text that reads as a
    number is stored as that number.  [JsonObject] is a text holding a
    JSON object, with the fields [json.loads] gives, the tokens [NaN]
    that [json.dumps] writes for NaN among them; [NotJson] is a text
    that is neither JSON nor a number; [Number] is a finite number.  A
    text holding a JSON value other than an object is outside the
    model: [store_certificates] writes objects only. *)
Inductive payload :=
  | JsonObject (fields : gmap string cell)
  | NotJson
  | Number.

Definition serializable (c : cell) : bool :=
  match c with CObject _ => false | _ => true end.

(** [json.dumps(d)] raises [TypeError] on a value it cannot serialize;
    it writes NaN as the token [NaN]. *)
Definition json_dumps (d : gmap string cell) : exec payload :=
  if forallb (fun kv => serializable (snd kv)) (map_to_list d)
  then Returned (JsonObject d)
  else Raised TypeError.

(** [json.loads(v)] on the value read from the column: it reads the
    token [NaN], raises [JSONDecodeError] on a text that is not JSON and
    [TypeError] on a number. *)
Definition json_loads (v : payload) : exec (gmap string cell) :=
  match v with
  | JsonObject d => Returned d
  | NotJson => Raised JSONDecodeError
  | Number => Raised TypeError
  end.

Definition has_nan (d : gmap string cell) : bool :=
  existsb (fun kv => bool_decide (snd kv = CNaN)) (map_to_list d).

(** *** SQL values *)

(** A BLOB: the bytes of a [numpy] scalar. *)
Inductive blob :=
  | Int64Bytes (z : Z)
  | BoolByte (b : bool).

#[export] Instance blob_eq_dec : EqDecision blob.
Proof. solve_decision. Defined.

(** [SReal z] is the REAL of the integral value [z]. *)
Inductive sqlval :=
  | SNull
  | SInteger (z : Z)
  | SReal (z : Z)
  | SText (s : string)
  | SBlob (b : blob).

#[export] Instance sqlval_eq_dec : EqDecision sqlval.
Proof. solve_decision. Defined.

Definition fits_int64 (z : Z) : bool :=
  (- 2 ^ 63 <=? z) && (z <? 2 ^ 63).

(** Binding a Python value to a [?] placeholder.  NaN is bound as NULL;
    a [numpy] scalar, which is no [int], is bound through the buffer
    protocol as a BLOB; an unsupported type raises
    [sqlite3.ProgrammingError] ([InterfaceError] before Python 3.11). *)
Definition bind (c : cell) : exec sqlval :=
  match c with
  | CNone => Returned SNull
  | CBool b => Returned (SInteger (if b then 1 else 0))
  | CInt z => if fits_int64 z then Returned (SInteger z) else Raised OverflowError
  | CNaN => Returned SNull
  | CFloat z => Returned (SReal z)
  | CStr s => Returned (SText s)
  | CInt64 z => Returned (SBlob (Int64Bytes z))
  | CBool_ b => Returned (SBlob (BoolByte b))
  | CObject _ => Raised ProgrammingError
  end.

(** The text SQLite gives a REAL of integral value below [10 ^ 15] in
    magnitude: [10001234.0]. *)
Definition real_text (z : Z) : string := pretty z +:+ ".0".

(** The TEXT affinity of column [certificate_id]: a number is stored as
    its text, NULL and a BLOB as they are. *)
Definition text_affinity (v : sqlval) : sqlval :=
  match v with
  | SInteger z => SText (pretty z)
  | SReal z => SText (real_text z)
  | _ => v
  end.

(** [json_extract(data, "$.<key>")].  The whole value is parsed first:
    a text that is not JSON is a runtime error, and so is, for a
    library that does not read JSON5 (before version 3.42), a text with
    the token [NaN]; one that reads JSON5 takes [NaN] for [null].  A
    number has no member, and a missing member is NULL.  An integer
    beyond 64 bits is read as a REAL; it is equal to no value that
    [bind] gives, and neither is the [SInteger] that stands for it
    here. *)
Definition json_extract (json5 : bool) (v : payload) (key : string) : exec sqlval :=
  match v with
  | NotJson => Raised OperationalError
  | Number => Returned SNull
  | JsonObject d =>
      if negb json5 && has_nan d then Raised OperationalError
      else
        Returned match d !! key with
                 | Some (CBool b) | Some (CBool_ b) => SInteger (if b then 1 else 0)
                 | Some (CInt z) | Some (CInt64 z) => SInteger z
                 | Some (CFloat z) => SReal z
                 | Some (CStr s) => SText s
                 | Some CNone | Some CNaN | Some (CObject _) | None => SNull
                 end
  end.

(** [a = b] between two values without column affinity, as a WHERE
    condition: never true on NULL, numbers compared by value, never true
    across the other storage classes. *)
Definition sql_eq (a b : sqlval) : bool :=
  match a, b with
  | SInteger x, SInteger y | SInteger x, SReal y
  | SReal x, SInteger y | SReal x, SReal y => x =? y
  | SText x, SText y => String.eqb x y
  | SBlob x, SBlob y => bool_decide (x = y)
  | _, _ => false
  end.

(** *** Tables *)

(** The [certificate_id] of a stored row: a TEXT, a BLOB, or NULL.  The
    column is a PRIMARY KEY that is not the rowid: a NULL is admitted,
    and rows whose [certificate_id] is NULL do not exclude one another.
    The model tells them apart by a number. *)
Inductive rowkey :=
  | KText (s : string)
  | KBlob (b : blob)
  | KNull (n : N).

#[export] Instance rowkey_eq_dec : EqDecision rowkey.
Proof. solve_decision. Defined.

#[export] Instance blob_countable : Countable blob.
Proof.
  refine (inj_countable'
            (fun b => match b with Int64Bytes z => inl z | BoolByte b => inr b end)
            (fun x => match x with inl z => Int64Bytes z | inr b => BoolByte b end) _).
  intros []; reflexivity.
Defined.

#[export] Instance rowkey_countable : Countable rowkey.
Proof.
  refine (inj_countable'
            (fun k => match k with
                      | KText s => inl s
                      | KBlob b => inr (inl b)
                      | KNull n => inr (inr n)
                      end)
            (fun x => match x with
                      | inl s => KText s
                      | inr (inl b) => KBlob b
                      | inr (inr n) => KNull n
                      end) _).
  intros []; reflexivity.
Defined.

(** A row of [epc_certificates], but for its [certificate_id].  The two
    TIMESTAMP columns have NUMERIC affinity; the texts
    [CURRENT_TIMESTAMP] writes into them are not numbers and stay TEXT,
    and so does the ISO text the reads and the cleanup bind to [?]:
    [cached_at > ?] and [last_accessed < ?] compare two texts under the
    BINARY collation. *)
Record certificate := {
  property_type : string;
  data : payload;
  cached_at : string;
  last_accessed : string
}.

Record search := {
  search_params : string;
  result_count : option Z;
  search_cached_at : string;
  search_last_accessed : string
}.

(** The two tables. *)
Record database := {
  epc_certificates : gmap rowkey certificate;
  search_cache : gmap string search
}.

(** What the code leaves to the SQLite library at hand: whether it reads
    JSON5, and the order in which a SELECT without ORDER BY visits the
    rows of a table. *)
Record engine := {
  json5 : bool;
  scan : gmap rowkey certificate → list (rowkey * certificate)
}.

(** Every row is visited once. *)
Definition scans (e : engine) : Prop :=
  ∀ table, scan e table ≡ₚ map_to_list table.

Inductive log_record :=
  | NoDataToStore
  | ErrorStoringCertificate (e : pyexc)
  | StoredCertificates (records_stored : Z)
  | RetrievedFromCache (n : Z)
  | CleanedUp (deleted_count deleted_searches : Z).

Abbreviation log := (list (level * log_record)).

(** *** [EPCDatabase.store_certificates] *)

(** [row.get('lmk-key') or row.get('building-reference-number')] *)
Definition certificate_id_of (row : series) : cell :=
  let lmk := row_get row "lmk-key" in
  if cell_truthy lmk then lmk else row_get row "building-reference-number".

(** The body of the [try] for one row, up to the parameters of the
    INSERT OR REPLACE: [None] for [continue], the bound
    [certificate_id] and the payload otherwise.  The argument tuple is
    built, and the payload serialized, before the statement binds its
    parameters. *)
Definition insert_parameters (row : series) : exec (option (sqlval * payload)) :=
  let certificate_id := certificate_id_of row in
  if negb (cell_truthy certificate_id) then Returned None
  else
    payload ← json_dumps (to_dict row);
    bound ← bind certificate_id;
    Returned (Some (bound, payload)).

(** The row written at UTC time [utc]. *)
Definition entry (utc : datetime) (property_type : string) (payload : payload)
    : certificate :=
  {| property_type := property_type; data := payload;
     cached_at := CURRENT_TIMESTAMP utc; last_accessed := CURRENT_TIMESTAMP utc |}.

(** A number above those of the rows whose [certificate_id] is NULL. *)
Definition next_null (table : gmap rowkey certificate) : N :=
  map_fold (fun k _ acc => match k with KNull n => N.max acc (N.succ n) | _ => acc end)
    0%N table.

(** The place of the row that INSERT OR REPLACE writes: that of the row
    with the same [certificate_id], which it replaces, and a new one
    when there is none, as there is none for NULL. *)
Definition rowkey_of (table : gmap rowkey certificate) (certificate_id : sqlval) : rowkey :=
  match text_affinity certificate_id with
  | SText s => KText s
  | SBlob b => KBlob b
  | _ => KNull (next_null table)
  end.

Definition insert_or_replace (table : gmap rowkey certificate) (certificate_id : sqlval)
    (row : certificate) : gmap rowkey certificate :=
  <[rowkey_of table certificate_id := row]> table.

(** The loop over [data.iterrows()]; [utc i] is the UTC time at which
    the statement of the [i]-th row runs.  An exception is logged and
    the loop goes on. *)
Fixpoint store_rows (utc : nat → datetime) (property_type : string) (i : nat)
    (rows : DataFrame) (table : gmap rowkey certificate) (records_stored : Z)
    : gmap rowkey certificate * Z * log :=
  match rows with
  | [] => (table, records_stored, [])
  | row :: rows' =>
      match insert_parameters row with
      | Returned None =>
          store_rows utc property_type (S i) rows' table records_stored
      | Returned (Some (certificate_id, payload)) =>
          store_rows utc property_type (S i) rows'
            (insert_or_replace table certificate_id (entry (utc i) property_type payload))
            (records_stored + 1)
      | Raised e =>
          let '(table', n, lg) :=
            store_rows utc property_type (S i) rows' table records_stored in
          (table', n, (ERROR, ErrorStoringCertificate e) :: lg)
      end
  end.

Definition store_certificates (utc : nat → datetime) (data : DataFrame)
    (property_type : string) (db : database) : database * log :=
  if empty data then (db, [(WARNING, NoDataToStore)])
  else
    let '(table, records_stored, lg) :=
      store_rows utc property_type 0 data (epc_certificates db) 0 in
    ({| epc_certificates := table; search_cache := search_cache db |},
     lg ++ [(INFO, StoredCertificates records_stored)]).

(** *** [EPCDatabase.get_certificates] *)

(** [(datetime.now() - timedelta(hours=max_age_hours)).isoformat()], with
    [now] the local wall-clock time. *)
Definition cutoff_hours (now : datetime) (max_age_hours : Z) : exec string :=
  cutoff_time ← minus_timedelta now (hours max_age_hours); Returned (isoformat cutoff_time).

(** One optional condition [AND json_extract(data, "$.<key>") = ?], with
    its parameter bound when the statement is run. *)
Definition bind_filter (filters : gmap string cell) (key : string) : exec (option sqlval) :=
  match filters !! key with
  | None => Returned None
  | Some c => v ← bind c; Returned (Some v)
  end.

Definition filter_holds (json5 : bool) (v : payload) (key : string) (bound : option sqlval)
    : exec bool :=
  match bound with
  | None => Returned true
  | Some b => x ← json_extract json5 v key; Returned (sql_eq x b)
  end.

(** The WHERE clause on one row, conditions taken from left to right, a
    later one evaluated only when the earlier ones hold. *)
Definition selected (json5 : bool) (property_type cutoff : string)
    (postcode authority uprn : option sqlval) (row : certificate) : exec bool :=
  if String.eqb (Database.property_type row) property_type && text_gt (cached_at row) cutoff then
    a ← filter_holds json5 (data row) "postcode" postcode;
    if a : bool then
      b ← filter_holds json5 (data row) "local-authority" authority;
      if b : bool then filter_holds json5 (data row) "uprn" uprn else Returned false
    else Returned false
  else Returned false.

(** [cursor.fetchall()] of a SELECT of column [data], over the rows in
    the order in which they are visited. *)
Fixpoint fetchall (keep : certificate → exec bool) (rows : list (rowkey * certificate))
    : exec (list payload) :=
  match rows with
  | [] => Returned []
  | (_, row) :: rows' =>
      k ← keep row;
      rest ← fetchall keep rows';
      Returned (if k : bool then data row :: rest else rest)
  end.

(** The loop that decodes the payloads: one that raises
    [JSONDecodeError] is skipped, any other exception is not caught. *)
Fixpoint decoded (results : list payload) : exec (list (gmap string cell)) :=
  match results with
  | [] => Returned []
  | v :: results' =>
      match json_loads v with
      | Returned d => rest ← decoded results'; Returned (d :: rest)
      | Raised JSONDecodeError => decoded results'
      | Raised e => Raised e
      end
  end.

(** The result is the list [data] of decoded payloads that the method
    hands to [pd.DataFrame], the empty list when it returns the empty
    frame.  The cache is not written. *)
Definition get_certificates (e : engine) (now : datetime) (filters : gmap string cell)
    (property_type : string) (max_age_hours : Z) (db : database)
    : exec (list (gmap string cell)) * log :=
  match
    cutoff ← cutoff_hours now max_age_hours;
    postcode ← bind_filter filters "postcode";
    authority ← bind_filter filters "local-authority";
    uprn ← bind_filter filters "uprn";
    results ← fetchall (selected (json5 e) property_type cutoff postcode authority uprn)
                (scan e (epc_certificates db));
    decoded results
  with
  | Raised e => (Raised e, [])
  | Returned [] => (Returned [], [])
  | Returned data => (Returned data, [(INFO, RetrievedFromCache (Z.of_nat (length data)))])
  end.

(** *** [EPCDatabase.get_certificate_by_id] *)

Definition touch (stamp : string) (row : certificate) : certificate :=
  {| property_type := property_type row; data := data row;
     cached_at := cached_at row; last_accessed := stamp |}.

(** [now] is the local wall-clock time read by [datetime.now()], [utc]
    the UTC time at which the UPDATE runs.  [certificate_id] is a
    [str]: it is equal to no BLOB and to no NULL.  The UPDATE is
    committed before the payload is decoded.  The result [None] is
    [Returned None]. *)
Definition get_certificate_by_id (now utc : datetime) (certificate_id : string)
    (max_age_hours : Z) (db : database) : exec (option (gmap string cell)) * database :=
  match cutoff_hours now max_age_hours with
  | Raised e => (Raised e, db)
  | Returned cutoff =>
      match epc_certificates db !! KText certificate_id with
      | Some row =>
          if text_gt (cached_at row) cutoff then
            let db' :=
              {| epc_certificates :=
                   <[KText certificate_id := touch (CURRENT_TIMESTAMP utc) row]>
                     (epc_certificates db);
                 search_cache := search_cache db |} in
            match json_loads (data row) with
            | Returned d => (Returned (Some d), db')
            | Raised JSONDecodeError => (Returned None, db')
            | Raised e => (Raised e, db')
            end
          else (Returned None, db)
      | None => (Returned None, db)
      end
  end.

(** *** [EPCDatabase.cleanup_old_data] *)

Definition cutoff_days (now : datetime) (max_age_days : Z) : exec string :=
  cutoff_time ← minus_timedelta now (days max_age_days); Returned (isoformat cutoff_time).

(** The rows a [DELETE ... WHERE last_accessed < ?] removes, and those it
    leaves. *)
Definition deleted `{Countable K} {A} (stamp : A → string) (cutoff : string)
    (table : gmap K A) : gmap K A :=
  filter (fun kv => text_lt (stamp (snd kv)) cutoff = true) table.

Definition kept `{Countable K} {A} (stamp : A → string) (cutoff : string)
    (table : gmap K A) : gmap K A :=
  filter (fun kv => text_lt (stamp (snd kv)) cutoff ≠ true) table.

(** [cursor.rowcount] after the DELETE. *)
Definition rowcount `{Countable K} {A} (stamp : A → string) (cutoff : string)
    (table : gmap K A) : Z :=
  Z.of_nat (size (deleted stamp cutoff table)).

(** The method has no [return]: its result is [None], here [tt]; the two
    counts go to the log. *)
Definition cleanup_old_data (now : datetime) (max_age_days : Z) (db : database)
    : exec unit * database * log :=
  match cutoff_days now max_age_days with
  | Raised e => (Raised e, db, [])
  | Returned cutoff =>
      let deleted_count := rowcount last_accessed cutoff (epc_certificates db) in
      let deleted_searches := rowcount search_last_accessed cutoff (search_cache db) in
      (Returned tt,
       {| epc_certificates := kept last_accessed cutoff (epc_certificates db);
          search_cache := kept search_last_accessed cutoff (search_cache db) |},
       [(INFO, CleanedUp deleted_count deleted_searches)])
  end.

(** *** Vocabulary of the statements *)

(** The INSERT OR REPLACE statements of a batch that run, in order, each
    by the [certificate_id] it binds and the row it writes. *)
Fixpoint upserts (utc : nat → datetime) (property_type : string) (i : nat)
    (rows : DataFrame) : list (sqlval * certificate) :=
  match rows with
  | [] => []
  | row :: rows' =>
      match insert_parameters row with
      | Returned (Some (certificate_id, payload)) =>
          (certificate_id, entry (utc i) property_type payload)
            :: upserts utc property_type (S i) rows'
      | _ => upserts utc property_type (S i) rows'
      end
  end.

(** The exceptions the rows of a batch raise, in order. *)
Fixpoint failures (rows : DataFrame) : list pyexc :=
  match rows with
  | [] => []
  | row :: rows' =>
      match insert_parameters row with
      | Raised e => e :: failures rows'
      | _ => failures rows'
      end
  end.

(** A table after a sequence of INSERT OR REPLACE statements. *)
Definition replay (statements : list (sqlval * certificate))
    (table : gmap rowkey certificate) : gmap rowkey certificate :=
  fold_left (fun t s => insert_or_replace t (fst s) (snd s)) statements table.

(** The [certificate_id] a row is stored with, if it is stored. *)
Definition key_of (row : series) : option sqlval :=
  match insert_parameters row with
  | Returned (Some (certificate_id, _)) => Some (text_affinity certificate_id)
  | _ => None
  end.

End Database.

(** ** Scenarios *)

(** Concrete upstream services and responses. *)
Module PaginationScenarios.

Import Py Pagination.

Definition api : string := "https://epc.opendatacommunities.org/api/v1".

Definition postcode_query : pydict := [(KStr "postcode", PStr "SW1A 1AA")].

Definition certificate (key : string) : pyval :=
  PDict [(KStr "lmk-key", PStr key); (KStr "postcode", PStr "SW1A 1AA")].

(** A page of one record with a cursor, and a last page without. *)
Definition page_with_cursor : pydict :=
  [(KStr "data", PList [certificate "k1"]); (KStr "next-search-after", PStr "k1")].

Definition last_page : pydict :=
  [(KStr "data", PList [certificate "k2"])].

(** A page whose cursor field is present and is the empty string. *)
Definition page_with_empty_cursor : pydict :=
  [(KStr "data", PList [certificate "k2"]); (KStr "next-search-after", PStr "")].

Definition always (outcome : http_outcome) : server := fun _ _ => outcome.

Definition rate_limiting : server := always (Response 429 "Too Many Requests" None).

Definition unavailable : server := always (Response 503 "Service Unavailable" None).

(** Every answer has one record and a cursor. *)
Definition endless : server := always (Response 200 "" (Some (PDict page_with_cursor))).

(** A 429, then one page with a cursor, then the last page. *)
Definition two_pages_after_rate_limit : server := fun n _ =>
  match n with
  | 0%nat => Response 429 "Too Many Requests" None
  | 1%nat => Response 200 "" (Some (PDict page_with_cursor))
  | _ => Response 200 "" (Some (PDict last_page))
  end.

End PaginationScenarios.

(** Concrete rows, clock readings and caches. *)
Module DatabaseScenarios.

Import Py Datetime Database.

Definition at_time (y m d hh mm ss : Z) : datetime :=
  {| year := y; month := m; day := d; hour := hh; minute := mm; second := ss;
     microsecond := 0 |}.

Definition first_payload : series :=
  {[ "lmk-key" := CStr "k1"; "postcode" := CStr "SW1A 1AA";
     "current-energy-rating" := CStr "D" ]}.

Definition second_payload : series :=
  {[ "lmk-key" := CStr "k1"; "postcode" := CStr "SW1A 1AA";
     "current-energy-rating" := CStr "B" ]}.

(** The row that [pd.DataFrame] makes of a record that has a postcode
    and nothing else, beside a record like [first_payload]: the fields
    it lacks are NaN. *)
Definition without_identity : series :=
  {[ "lmk-key" := CNaN; "postcode" := CStr "SW1A 1AA";
     "current-energy-rating" := CNaN ]}.

(** Rows of a frame with a column [tags]: a record whose [lmk-key] is
    the empty string, one whose [tags] is a set, and one without
    [tags]. *)
Definition blank_identity : series :=
  {[ "lmk-key" := CStr ""; "postcode" := CStr "SW1A 1AA"; "tags" := CNaN ]}.

Definition unserializable : series :=
  {[ "lmk-key" := CStr "k2"; "postcode" := CStr "SW1A 1AA"; "tags" := CObject true ]}.

Definition untagged : series :=
  {[ "lmk-key" := CStr "k1"; "postcode" := CStr "SW1A 1AA"; "tags" := CNaN ]}.

Definition empty_cache : database := {| epc_certificates := ∅; search_cache := ∅ |}.

(** A library before version 3.42, and one from that version on; both
    visit the rows in the order of the model's table. *)
Definition sqlite_3_40 : engine := {| json5 := false; scan := map_to_list |}.

Definition sqlite_3_42 : engine := {| json5 := true; scan := map_to_list |}.

(** The cache after [first_payload] is stored at the UTC time [utc]. *)
Definition cached_at_time (utc : datetime) : database :=
  fst (store_certificates (fun _ => utc) [first_payload] "domestic" empty_cache).

(** A cache whose only entry, cached on 2024-03-10 at 12:00, holds [v]
    in column [data]. *)
Definition with_payload (v : payload) : database :=
  {| epc_certificates :=
       {[ KText "k1" := {| property_type := "domestic"; data := v;
                           cached_at := "2024-03-10 12:00:00";
                           last_accessed := "2024-03-10 12:00:00" |} ]};
     search_cache := ∅ |}.

(** A cache whose only entry has a payload that is not JSON. *)
Definition corrupted : database := with_payload NotJson.

End DatabaseScenarios.

(** ** Further vocabulary for the fetcher and the paginator *)

Module PaginationTerms.

Import Py Pagination.

(** The time spent in [time.sleep], in milliseconds. *)
Fixpoint slept (tr : list event) : Z :=
  match tr with
  | [] => 0
  | ESleep milliseconds :: tr' => milliseconds + slept tr'
  | _ :: tr' => slept tr'
  end.

(** An outcome after which [_make_request] tries again, if an attempt is
    left: a 429, a network error, or a 200 whose body is not JSON. *)
Definition transient (outcome : http_outcome) : bool :=
  match outcome with
  | Response status_code _ json =>
      (status_code =? 429) || ((status_code =? 200) && bool_decide (json = None))
  | RequestException _ => true
  end.

(** What an attempt that raises [RequestException] leaves in the trace,
    by its 1-based number among [total] attempts. *)
Definition failed_attempt (cfg : Config) (req : request) (total : nat)
    (message : nat → string) (attempt_number : nat) : list event :=
  if (attempt_number <? total)%nat then
    let wait_time := Z.of_nat attempt_number * RETRY_DELAY cfg in
    [EGet req; ELog WARNING (RequestFailedRetrying wait_time (message attempt_number));
     ESleep (1000 * wait_time)]
  else
    [EGet req; ELog ERROR (RequestFailed (RETRY_ATTEMPTS cfg) (message attempt_number))].

(** Pages numbered from [count + 1] on, each with a non-empty batch, its
    length, and the running total of the lengths from [total] on. *)
Fixpoint numbered (count total : Z) (ps : list page) : Prop :=
  match ps with
  | [] => True
  | p :: ps' =>
      page_number p = count + 1 ∧
      py_truthy (data p) = true ∧
      py_len (data p) = Returned (page_size p) ∧
      total_retrieved p = total + page_size p ∧
      numbered (count + 1) (total_retrieved p) ps'
  end.

(** The request goes to the search endpoint with the configured timeout,
    asks for the configured page size, and otherwise carries the
    parameters of the caller, but for the cursor. *)
Definition well_formed (cfg : Config) (base_url endpoint : string) (params : pydict)
    (search_after_key : string) (r : request) : Prop :=
  url r = base_url +:+ "/" +:+ endpoint ∧
  timeout r = REQUEST_TIMEOUT cfg ∧
  dict_get (KStr "size") (query r) = Some (PInt (PAGE_SIZE cfg)) ∧
  ∀ name, name ≠ "size" → name ≠ search_after_key →
          dict_get (KStr name) (query r) = dict_get (KStr name) params.

(** A value [iter] rejects. *)
Definition not_iterable (v : pyval) : bool :=
  match v with
  | PNone | PBool _ | PInt _ => true
  | _ => false
  end.

End PaginationTerms.

(** Further upstream services and responses. *)
Module FetchScenarios.

Import Py Pagination PaginationScenarios.

(** No request gets through. *)
Definition offline : server := always (RequestException "Connection refused").

(** A network error, then a 429, then the last page. *)
Definition recovering : server := fun n _ =>
  match n with
  | 0%nat => RequestException "Read timed out"
  | 1%nat => Response 429 "Too Many Requests" None
  | _ => Response 200 "" (Some (PDict last_page))
  end.

(** One page with a cursor, then the service is gone. *)
Definition page_then_unavailable : server := fun n _ =>
  match n with
  | 0%nat => Response 200 "" (Some (PDict page_with_cursor))
  | _ => Response 503 "Service Unavailable" None
  end.

(** A columnar response whose second row is a number. *)
Definition columnar_with_bad_row : pydict :=
  [(KStr "column-names", PList [PStr "lmk-key"]);
   (KStr "rows", PList [PList [PStr "k1"]; PInt 7])].

(** The request of a postcode search for domestic certificates. *)
Definition postcode_request (query : pydict) : request :=
  {| url := api +:+ "/domestic/search"; query := query; timeout := 30 |}.

End FetchScenarios.

(** ** [src/api/client.py] *)

Module Client.

Import Py Pagination.

(** The log lines of [EPCClient._search]. *)
Inductive log_record :=
  | StartingSearch (endpoint : string) (params : pydict)
  | NoDataReturned
  | SearchComplete (records : Z)
  | NoRecordsFound.

(** [d.update(other)] *)
Definition dict_update (d other : pydict) : pydict :=
  fold_left (fun acc kv => dict_set (fst kv) (snd kv) acc) other d.

(** [all_data.extend(page['data'])] for each page in turn. *)
Fixpoint extend_all (ps : list page) : exec (list pyval) :=
  match ps with
  | [] => Returned []
  | p :: ps' =>
      items ← py_iter (data p);
      rest ← extend_all ps';
      Returned (items ++ rest)
  end.

Section EPCClient.

Variable cfg : Config.
Variable upstream : server.
Variable base_url : string.

(** [EPCClient._search], on a session that has sent [n] requests.
    [list(...)] drains the generator, for at most [fuel] passes of its
    loop here: the result is [None] while the generator is not
    exhausted.  Otherwise it is the list of records handed to
    [pd.DataFrame], the empty list standing for the empty frame, with the
    trace of the pagination and the log of the search. *)
Definition _search (endpoint : string) (params : pydict) (fuel n : nat)
    : option (exec (list pyval) * list event * list (level * log_record)) :=
  let starting := (INFO, StartingSearch endpoint params) in
  match paginate cfg upstream base_url endpoint params "search-after" fuel n with
  | (tr, Some _) => None
  | (tr, None) =>
      match pages tr with
      | [] => Some (Returned [], tr, [starting; (WARNING, NoDataReturned)])
      | ps =>
          Some match extend_all ps with
               | Raised e => (Raised e, tr, [starting])
               | Returned [] => (Returned [], tr, [starting; (INFO, NoRecordsFound)])
               | Returned all_data =>
                   (Returned all_data, tr,
                    [starting; (INFO, SearchComplete (Z.of_nat (length all_data)))])
               end
      end
  end.

Definition search_domestic (filters : pydict) :=
  _search "domestic/search" filters.

Definition search_non_domestic (filters : pydict) :=
  _search "non-domestic/search" filters.

Definition search_by_postcode (postcode : pyval) (property_type : string) :=
  let filters := [(KStr "postcode", postcode)] in
  let endpoint := property_type +:+ "/search" in
  _search endpoint filters.

(** [additional_filters] is [None] or a dict. *)
Definition search_by_local_authority (local_authority : pyval) (property_type : string)
    (additional_filters : option pydict) :=
  let filters := [(KStr "local-authority", local_authority)] in
  let filters :=
    match additional_filters with
    | Some (kv :: more) => dict_update filters (kv :: more)
    | _ => filters
    end in
  let endpoint := property_type +:+ "/search" in
  _search endpoint filters.

Definition search_by_uprn (uprn : pyval) (property_type : string) :=
  let filters := [(KStr "uprn", uprn)] in
  let endpoint := property_type +:+ "/search" in
  _search endpoint filters.

(** The filters of [search_agricultural_buildings]. *)
Definition agricultural_filters (local_authority postcode : pyval) : pydict :=
  let filters := [] in
  let filters :=
    if py_truthy local_authority
    then dict_set (KStr "local-authority") local_authority filters else filters in
  let filters :=
    if py_truthy postcode then dict_set (KStr "postcode") postcode filters else filters in
  dict_update filters
    [(KStr "property-type", PStr "Other"); (KStr "built-form", PStr "Detached")].

Definition search_agricultural_buildings (local_authority postcode : pyval) :=
  search_non_domestic (agricultural_filters local_authority postcode).

End EPCClient.

End Client.

(** ** [EPCDatabase.get_cache_stats], and further vocabulary for the cache *)

Module CacheStatistics.

Import Py Datetime Database.

Record cache_stats := {
  total_certificates : Z;
  by_property_type : gmap string Z;
  recent_certificates : Z;
  database_path : string
}.

(** [SELECT property_type, COUNT( * ) ... GROUP BY property_type], as the
    dict built from its rows: a type has a group as soon as one row has
    it, and each of its rows counts for one. *)
Fixpoint count_by_type (rows : list (rowkey * certificate)) : gmap string Z :=
  match rows with
  | [] => ∅
  | (_, row) :: rows' =>
      let counts := count_by_type rows' in
      <[property_type row := default 0 (counts !! property_type row) + 1]> counts
  end.

(** [day_ago] is the text SQLite computes for
    [datetime('now', '-24 hours')]; the comparison is the one of the
    reads, between two texts. *)
Definition get_cache_stats (day_ago db_path : string) (db : database) : cache_stats :=
  {| total_certificates := Z.of_nat (size (epc_certificates db));
     by_property_type := count_by_type (map_to_list (epc_certificates db));
     recent_certificates :=
       Z.of_nat (size (filter (fun kv => text_gt (cached_at (snd kv)) day_ago = true)
                         (epc_certificates db)));
     database_path := db_path |}.

(** The sum of the counts of a dict. *)
Definition sum_of_counts (counts : gmap string Z) : Z :=
  map_fold (fun _ c acc => c + acc) 0 counts.

(** The keys for which [get_certificates] adds a condition. *)
Definition filter_keys : list string := ["postcode"; "local-authority"; "uprn"].

(** The payload [d] passes the condition that [get_certificates] adds
    for [key], if the filters have that key. *)
Definition satisfies (json5 : bool) (filters : gmap string cell) (d : gmap string cell)
    (key : string) : Prop :=
  ∀ c, filters !! key = Some c →
       ∃ v x, bind c = Returned v ∧ json_extract json5 (JsonObject d) key = Returned x ∧
              sql_eq x v = true.

(** A value of column [data] that [json_extract] rejects. *)
Definition unreadable (json5 : bool) (v : payload) : bool :=
  match v with
  | NotJson => true
  | JsonObject d => negb json5 && has_nan d
  | Number => false
  end.

(** The values that [get_certificates] binds can all be bound. *)
Definition bindable (filters : gmap string cell) : Prop :=
  ∀ key c, key ∈ filter_keys → filters !! key = Some c → ∃ v, bind c = Returned v.

(** The calendar date of [a] is before the calendar date of [b]. *)
Definition date_before (a b : datetime) : Prop :=
  year a < year b ∨
  (year a = year b ∧ (month a < month b ∨ (month a = month b ∧ day a < day b))).

Definition same_date (a b : datetime) : Prop :=
  year a = year b ∧ month a = month b ∧ day a = day b.

(** Seconds since midnight. *)
Definition time_of_day (dt : datetime) : Z :=
  hour dt * 3600 + minute dt * 60 + second dt.

(** [a] is before [b], to the second. *)
Definition earlier (a b : datetime) : Prop :=
  date_before a b ∨ (same_date a b ∧ time_of_day a < time_of_day b).

(** No cell of the row is rejected by [json.dumps]. *)
Definition all_serializable (row : series) : Prop :=
  ∀ label c, row !! label = Some c → serializable c = true.

End CacheStatistics.

(** Further rows and caches. *)
Module CacheScenarios.

Import Py Datetime Database DatabaseScenarios.

(** A row identified by its [building-reference-number] alone, in a
    frame that has a column of strings beside it. *)
Definition numbered_row : series :=
  {[ "building-reference-number" := CInt 10001234; "postcode" := CStr "M1 1AE" ]}.

(** The same certificate in a frame whose columns are all integers. *)
Definition all_integer_row : series :=
  {[ "building-reference-number" := CInt64 10001234; "uprn" := CInt64 100023336956 ]}.

(** The same certificate again, in a frame one other row of which has no
    [building-reference-number]: the column holds floats. *)
Definition float_row : series :=
  {[ "building-reference-number" := CFloat 10001234; "postcode" := CStr "M1 1AE" ]}.

Definition unnumbered_row : series :=
  {[ "building-reference-number" := CNaN; "postcode" := CStr "M1 1AE" ]}.

(** The corrupted cache with one more, well-formed, entry. *)
Definition half_corrupted : database :=
  {| epc_certificates :=
       <[KText "k0" := {| property_type := "domestic"; data := JsonObject first_payload;
                          cached_at := "2024-03-10 12:00:00";
                          last_accessed := "2024-03-10 12:00:00" |}]>
         (epc_certificates corrupted);
     search_cache := ∅ |}.

End CacheScenarios.

(** ** Properties of the fetcher and of the paginator *)

Module PaginationProofs.

Import Py Pagination PaginationScenarios.

Section Fetcher.

Variable cfg : Config.
Variable upstream : server.
Variable base_url : string.

Lemma attempts_rate_limited req remaining a n :
  0 <= RETRY_DELAY cfg →
  (∀ k, (k < remaining)%nat → ∃ text json, upstream (n + k)%nat req = Response 429 text json) →
  attempts cfg upstream req remaining (Z.of_nat a) n
  = (Returned PNone,
     flat_map (rate_limited_attempt cfg req) (seq (S a) remaining),
     (n + remaining)%nat).
Proof.
  intros Hdelay. revert a n.
  induction remaining as [|remaining IH]; intros a n Hall.
  - simpl. by rewrite Nat.add_0_r.
  - destruct (Hall 0%nat ltac:(lia)) as (text & json & Hfirst).
    rewrite Nat.add_0_r in Hfirst.
    cbn [attempts]. rewrite Hfirst. cbn [Z.eqb Pos.eqb].
    unfold sleep_then.
    replace (Z.of_nat a + 1) with (Z.of_nat (S a)) by lia.
    destruct (Z.ltb_spec (Z.of_nat (S a) * RETRY_DELAY cfg) 0) as [Hneg|_].
    { assert (0 <= Z.of_nat (S a) * RETRY_DELAY cfg) by (apply Z.mul_nonneg_nonneg; lia). exfalso; lia. }
    rewrite (IH (S a) (S n)).
    + cbn [seq flat_map]. unfold rate_limited_attempt at 2.
      f_equal. lia.
    + intros k Hk. replace (S n + k)%nat with (n + S k)%nat by lia.
      apply Hall. lia.
Qed.

Lemma attempts_no_yield req remaining attempt n :
  pages (snd (fst (attempts cfg upstream req remaining attempt n))) = [].
Proof.
  revert attempt n. induction remaining as [|remaining IH]; intros attempt n; [done|].
  cbn [attempts]. unfold sleep_then.
  destruct (upstream n req) as [status text json|e].
  - destruct (status =? 200).
    + destruct json; [done|].
      destruct (attempt <? _); [|done].
      destruct (_ <? 0); [done|].
      specialize (IH (attempt + 1) (S n)).
      destruct (attempts _ _ _ _ _ _) as [[r evs] n']. simpl in *. done.
    + destruct (status =? 429); [|done].
      destruct (_ <? 0); [done|].
      specialize (IH (attempt + 1) (S n)).
      destruct (attempts _ _ _ _ _ _) as [[r evs] n']. simpl in *. done.
  - destruct (attempt <? _); [|done].
    destruct (_ <? 0); [done|].
    specialize (IH (attempt + 1) (S n)).
    destruct (attempts _ _ _ _ _ _) as [[r evs] n']. simpl in *. done.
Qed.

End Fetcher.

(** Dictionaries *)

Lemma key_eqb_str k s : key_eqb k (KStr s) = true ↔ k = KStr s.
Proof.
  destruct k as [|b|z|t]; simpl; try (split; [discriminate|discriminate]).
  rewrite String.eqb_eq. split; [by intros ->|by intros [= ->]].
Qed.

Lemma key_eqb_str_ne s t : s ≠ t → key_eqb (KStr s) (KStr t) = false.
Proof. intros Hne. simpl. by apply String.eqb_neq. Qed.

Lemma dict_get_app_fresh k d v :
  dict_get k d = None → dict_set k v d = d ++ [(k, v)].
Proof.
  induction d as [|[k' v'] d IH]; simpl; [done|].
  destruct (key_eqb k' k); [discriminate|]. intros H. by rewrite IH.
Qed.

Lemma dict_get_app k d1 d2 :
  dict_get k (d1 ++ d2) = match dict_get k d1 with Some v => Some v | None => dict_get k d2 end.
Proof.
  induction d1 as [|[k' v'] d1 IH]; simpl; [done|]. by destruct (key_eqb k' k).
Qed.

Lemma dict_get_names_None s names (values : list pyval) :
  s ∉ names → dict_get (KStr s) (combine (map KStr names) values) = None.
Proof.
  revert values. induction names as [|t names IH]; intros values Hs; [done|].
  destruct values as [|v values]; [done|]. simpl.
  apply not_elem_of_cons in Hs as [Hne Hs].
  rewrite (proj2 (String.eqb_neq t s)) by congruence. by apply IH.
Qed.

Lemma fold_zip_distinct names values acc :
  NoDup names → (∀ s, s ∈ names → dict_get (KStr s) acc = None) →
  fold_left (fun acc kv => dict_set (KStr (fst kv)) (snd kv) acc) (combine names values) acc
  = acc ++ combine (map KStr names) values.
Proof.
  revert values acc. induction names as [|s names IH]; intros values acc Hnd Hacc.
  - simpl. by rewrite app_nil_r.
  - destruct values as [|v values]; [simpl; by rewrite app_nil_r|].
    apply NoDup_cons in Hnd as [Hs Hnd]. simpl.
    rewrite dict_get_app_fresh by (apply Hacc; left).
    rewrite IH; [by rewrite <- app_assoc|done|].
    intros t Ht. rewrite dict_get_app, Hacc by (by right). simpl.
    rewrite (proj2 (String.eqb_neq s t)); [done|]. intros ->. done.
Qed.

Lemma zip_mapping_distinct names values :
  NoDup names → zip_mapping names values = combine (map KStr names) values.
Proof. intros Hnd. unfold zip_mapping. by rewrite fold_zip_distinct. Qed.

Lemma dict_of_pairs_names names values acc :
  dict_of_pairs (combine (map PStr names) values) acc
  = Returned (fold_left (fun acc kv => dict_set (KStr (fst kv)) (snd kv) acc)
                (combine names values) acc).
Proof.
  revert values acc. induction names as [|s names IH]; intros values acc; [done|].
  destruct values as [|v values]; [done|]. simpl. apply IH.
Qed.

Lemma dict_zip_names names row :
  dict_zip (PList (map PStr names)) (PList row) = Returned (zip_mapping names row).
Proof. unfold dict_zip. simpl. apply dict_of_pairs_names. Qed.

Lemma comprehension_rows names (rows : list (list pyval)) :
  comprehension (fun row => d ← dict_zip (PList (map PStr names)) row; Returned (PDict d))
    (map PList rows)
  = Returned (map (fun row => PDict (zip_mapping names row)) rows).
Proof.
  induction rows as [|row rows IH]; [done|].
  simpl. rewrite dict_zip_names. simpl. by rewrite IH.
Qed.

(** Normalization *)

Lemma normalize_direct d batch :
  dict_get (KStr "data") d = Some batch → normalize (PDict d) = Returned batch.
Proof. intros H. unfold normalize. simpl. unfold dict_mem. by rewrite H. Qed.

Lemma normalize_columnar d columns rows :
  dict_get (KStr "data") d = None →
  dict_get (KStr "column-names") d = Some columns →
  dict_get (KStr "rows") d = Some rows →
  normalize (PDict d)
  = (rows_seq ← py_iter rows;
     records ← comprehension (fun row => d ← dict_zip columns row; Returned (PDict d)) rows_seq;
     Returned (PList records)).
Proof.
  intros Hd Hc Hr. unfold normalize. simpl. unfold dict_mem. by rewrite Hd, Hr, Hc.
Qed.

Lemma normalize_neither d :
  dict_get (KStr "data") d = None →
  dict_get (KStr "rows") d = None ∨ dict_get (KStr "column-names") d = None →
  normalize (PDict d) = Returned (PList []).
Proof.
  intros Hd Hn. unfold normalize. simpl. unfold dict_mem. rewrite Hd.
  destruct (dict_get (KStr "rows") d); simpl; [|done].
  destruct Hn as [?|Hc]; [done|]. by rewrite Hc.
Qed.

(** C1.  A response that carries its records directly under ['data'] and a
    response that carries the same records as ['column-names'] and
    ['rows'] normalize to the same record sequence: for each row, in
    order, the mapping that pairs the column names with the values of the
    row, position by position (the list of these pairs itself when the
    names are distinct).  A response with neither shape normalizes to the
    empty batch. *)
Theorem normalization_is_shape_independent
    (names : list string) (rows : list (list pyval)) (direct columnar other : pydict) :
  dict_get (KStr "data") direct = Some (records_of names rows) →
  dict_get (KStr "data") columnar = None →
  dict_get (KStr "column-names") columnar = Some (PList (map PStr names)) →
  dict_get (KStr "rows") columnar = Some (PList (map PList rows)) →
  dict_get (KStr "data") other = None →
  dict_get (KStr "rows") other = None ∨ dict_get (KStr "column-names") other = None →
  normalize (PDict direct) = Returned (records_of names rows) ∧
  normalize (PDict columnar) = Returned (records_of names rows) ∧
  normalize (PDict other) = Returned (PList []) ∧
  (NoDup names → ∀ row, zip_mapping names row = combine (map KStr names) row).
Proof.
  intros Hdirect Hd Hc Hr Ho1 Ho2. repeat split.
  - by apply normalize_direct.
  - rewrite (normalize_columnar _ _ _ Hd Hc Hr). simpl.
    by rewrite comprehension_rows.
  - by apply normalize_neither.
  - intros Hnd row. by apply zip_mapping_distinct.
Qed.

(** The example of the specification: [column-names = ["a", "b"]] and
    [rows = [[1, 2]]] give [[{"a": 1, "b": 2}]]. *)
Lemma normalization_is_shape_independent_witness :
  let names := ["a"; "b"] in
  let rows := [[PInt 1; PInt 2]] in
  let expected := PList [PDict [(KStr "a", PInt 1); (KStr "b", PInt 2)]] in
  records_of names rows = expected ∧
  normalize (PDict [(KStr "data", expected)]) = Returned expected ∧
  normalize (PDict [(KStr "column-names", PList [PStr "a"; PStr "b"]);
                    (KStr "rows", PList [PList [PInt 1; PInt 2]])]) = Returned expected ∧
  normalize (PDict [(KStr "total", PInt 0)]) = Returned (PList []).
Proof.
  intros names rows expected.
  split; [reflexivity|].
  destruct (normalization_is_shape_independent names rows
              [(KStr "data", expected)]
              [(KStr "column-names", PList [PStr "a"; PStr "b"]);
               (KStr "rows", PList [PList [PInt 1; PInt 2]])]
              [(KStr "total", PInt 0)])
    as (H1 & H2 & H3 & _); try reflexivity.
  - left; reflexivity.
  - exact (conj H1 (conj H2 H3)).
Defined.

Lemma pages_app tr1 tr2 : pages (tr1 ++ tr2) = pages tr1 ++ pages tr2.
Proof.
  induction tr1 as [|e tr1 IH]; [done|]. destruct e; simpl; by rewrite ?IH.
Qed.

Lemma requests_app tr1 tr2 : requests (tr1 ++ tr2) = requests tr1 ++ requests tr2.
Proof.
  induction tr1 as [|e tr1 IH]; [done|]. destruct e; simpl; by rewrite ?IH.
Qed.

Section Paginator.

Variable cfg : Config.
Variable upstream : server.
Variable base_url : string.
Variable endpoint : string.
Variable params : pydict.
Variable search_after_key : string.

Hypothesis some_attempt : 0 < RETRY_ATTEMPTS cfg.

Local Abbreviation _make_request := (_make_request cfg upstream base_url).
Local Abbreviation cycle := (cycle cfg upstream base_url endpoint params search_after_key).
Local Abbreviation paginate_from := (paginate_from cfg upstream base_url endpoint params search_after_key).
Local Abbreviation paginate := (paginate cfg upstream base_url endpoint params search_after_key).
Local Abbreviation page_params := (page_params cfg params search_after_key).
Local Abbreviation request_of := (request_of cfg base_url endpoint).
Local Abbreviation answers := (answers upstream).
Local Abbreviation leads := (leads cfg upstream base_url endpoint).
Local Abbreviation fetches := (fetches cfg upstream base_url endpoint).
Local Abbreviation fetch_fails := (fetch_fails cfg upstream base_url endpoint).

Lemma make_request_answered query n body :
  answers n body →
  _make_request endpoint query n = (Returned (PDict body), [EGet (request_of query)], S n).
Proof.
  intros Hans. unfold Pagination._make_request.
  destruct (Z.to_nat (RETRY_ATTEMPTS cfg)) as [|k] eqn:Hk; [lia|].
  destruct (Hans (request_of query)) as [text Hup].
  cbn [attempts]. fold (request_of query). by rewrite Hup.
Qed.

Lemma make_request_no_yield query n :
  pages (snd (fst (_make_request endpoint query n))) = [].
Proof. apply attempts_no_yield. Qed.

Lemma carries_truthy body batch size :
  carries body batch size → py_truthy (PDict body) = true.
Proof.
  intros (Hn & Ht & _). destruct body; [|done].
  cbv in Hn. injection Hn as <-. discriminate.
Qed.

Lemma answers_fetches n body : answers n body → fetches n body (S n).
Proof. intros Hans query. eexists. by apply make_request_answered. Qed.

(** A pass of the loop whose fetch returns a non-empty batch. *)
Lemma cycle_page st n body batch size evs n' :
  _make_request endpoint (page_params st) n = (Returned (PDict body), evs, n') →
  carries body batch size →
  cycle st n
  = let yielded :=
      evs ++ [ELog INFO (PageRetrieved (page_count st + 1) size (total_records st + size));
              EYield (page_of st batch size)] in
    if py_truthy (cursor body)
    then (yielded ++ [ESleep 100], Some (after_page st (cursor body) size, n'))
    else (yielded ++ [ELog INFO (PaginationComplete (total_records st + size))], None).
Proof.
  intros Hreq Hc. pose proof (carries_truthy _ _ _ Hc) as Hbody.
  destruct Hc as (Hn & Ht & Hl).
  unfold Pagination.cycle. rewrite Hreq, Hbody, Hn, Ht, Hl. simpl.
  fold (cursor body). by destruct (py_truthy (cursor body)).
Qed.

Lemma cycle_more st n body batch size :
  answers n body → carries body batch size → py_truthy (cursor body) = true →
  cycle st n
  = ([EGet (request_of (page_params st));
      ELog INFO (PageRetrieved (page_count st + 1) size (total_records st + size));
      EYield (page_of st batch size);
      ESleep 100],
     Some (after_page st (cursor body) size, S n)).
Proof.
  intros Hans Hc Hcur.
  rewrite (cycle_page _ _ _ _ _ _ _ (make_request_answered _ _ _ Hans) Hc).
  by rewrite Hcur.
Qed.

Lemma cycle_last st n body batch size :
  answers n body → carries body batch size → py_truthy (cursor body) = false →
  cycle st n
  = ([EGet (request_of (page_params st));
      ELog INFO (PageRetrieved (page_count st + 1) size (total_records st + size));
      EYield (page_of st batch size);
      ELog INFO (PaginationComplete (total_records st + size))],
     None).
Proof.
  intros Hans Hc Hcur.
  rewrite (cycle_page _ _ _ _ _ _ _ (make_request_answered _ _ _ Hans) Hc).
  by rewrite Hcur.
Qed.

(** A pass whose fetch returns an empty batch. *)
Lemma cycle_empty st n body n' :
  fetches n body n' → carries_nothing body →
  ∃ evs lvl record, cycle st n = (evs ++ [ELog lvl record], None) ∧ pages evs = [].
Proof.
  intros Hfetch (batch & Hn & Ht).
  destruct (Hfetch (page_params st)) as [evs Hreq].
  pose proof (make_request_no_yield (page_params st) n) as Hno.
  unfold Pagination.cycle. rewrite Hreq in *. simpl in Hno.
  destruct (py_truthy (PDict body)); simpl; [|by eauto].
  rewrite Hn, Ht. simpl. by eauto.
Qed.

(** A pass whose fetch fails. *)
Lemma cycle_fetch_fails st n :
  fetch_fails n →
  ∃ evs, cycle st n = (evs ++ [ELog WARNING (NoResponse (page_count st + 1))], None) ∧
         pages evs = [].
Proof.
  intros Hfail. destruct (Hfail (page_params st)) as (value & evs & n' & Hreq & Hfalsy).
  exists evs. unfold Pagination.cycle.
  pose proof (make_request_no_yield (page_params st) n) as Hno.
  rewrite Hreq in *. rewrite Hfalsy. by simpl in *.
Qed.

Lemma paginate_from_add a b st n :
  paginate_from (a + b) st n
  = match paginate_from a st n with
    | (tr, None) => (tr, None)
    | (tr, Some (st', n')) =>
        let '(tr', rest) := paginate_from b st' n' in (tr ++ tr', rest)
    end.
Proof.
  revert st n. induction a as [|a IH]; intros st n.
  - simpl. by destruct (paginate_from b st n).
  - cbn [Nat.add Pagination.paginate_from].
    destruct (cycle st n) as [evs [[st1 n1]|]]; [|done].
    rewrite IH. destruct (paginate_from a st1 n1) as [tr [[st2 n2]|]]; [|done].
    destruct (paginate_from b st2 n2) as [tr' rest]. by rewrite app_assoc.
Qed.

(** While the fetches lead on, each pass yields one page, numbered from
    the page count on, and the loop is still running. *)
Lemma paginate_from_leads bodies batches st n n_end :
  leads n bodies batches n_end →
  ∃ tr st',
    paginate_from (length bodies) st n = (tr, Some (st', n_end)) ∧
    map data (pages tr) = batches ∧
    map page_number (pages tr)
      = map (fun i => page_count st + Z.of_nat i) (seq 1 (length bodies)) ∧
    page_count st' = page_count st + Z.of_nat (length bodies).
Proof.
  revert batches st n. induction bodies as [|body bodies IH]; intros batches st n Hl.
  - destruct batches; [|done]. simpl in Hl. subst n_end.
    exists [], st. simpl. split_and!; try done. lia.
  - destruct batches as [|batch batches]; [done|].
    destruct Hl as (n' & size & Hfetch & Hc & Hcur & Hl).
    destruct (Hfetch (page_params st)) as [evs Hreq].
    pose proof (make_request_no_yield (page_params st) n) as Hno.
    rewrite Hreq in Hno. simpl in Hno.
    destruct (IH batches (after_page st (cursor body) size) n' Hl)
      as (tr & st' & Hrun & Hdata & Hnum & Hcount).
    cbn [length Pagination.paginate_from].
    rewrite (cycle_page _ _ _ _ _ _ _ Hreq Hc), Hcur. cbv beta iota zeta. rewrite Hrun.
    eexists _, st'. split; [reflexivity|].
    rewrite !pages_app, Hno. cbn [app pages map length seq].
    rewrite Hdata, Hnum, Hcount.
    cbn [after_page page_of page_count page_number data].
    split_and!; try done; try lia.
    f_equal. rewrite <- (seq_shift (length bodies) 1), map_map.
    apply map_ext. intros i. lia.
Qed.

(** C2, as amended.  Take any sequence of fetch outcomes that keeps the
    loop going: fetches that each return a non-empty batch and a cursor,
    each after as many attempts as it takes.  Then the session ends in
    the next fetch cycle as soon as that cycle meets one of the
    termination conditions, which are checked in this order: if the
    fetcher returns failure, nothing further is yielded; if the
    normalized batch is empty (whether or not a cursor comes with it),
    the loop stops before yielding, so an empty first response yields no
    page; if the batch is not empty and the cursor is absent or falsy,
    the page is yielded and the loop stops, so a session whose [N]-th
    response is the first without a cursor yields [N] pages.  In each
    case [N] passes through the loop are enough, and no exception
    reaches the caller. *)
Theorem paginate_stops_at_first_terminal_cycle bodies batches n n_end :
  leads n bodies batches n_end →
  (fetch_fails n_end →
     ∃ tr, paginate (S (length bodies)) n = (tr, None) ∧
           map data (pages tr) = batches) ∧
  (∀ body n', fetches n_end body n' → carries_nothing body →
     ∃ tr, paginate (S (length bodies)) n = (tr, None) ∧
           map data (pages tr) = batches) ∧
  (∀ body batch size n',
     fetches n_end body n' → carries body batch size →
     py_truthy (cursor body) = false →
     ∃ tr, paginate (S (length bodies)) n = (tr, None) ∧
           map data (pages tr) = batches ++ [batch] ∧
           map page_number (pages tr)
             = map Z.of_nat (seq 1 (S (length bodies)))).
Proof.
  intros Hl.
  destruct (paginate_from_leads _ _ initial _ _ Hl) as (tr & st' & Hrun & Hdata & Hnum & Hcount).
  unfold Pagination.paginate.
  replace (S (length bodies)) with (length bodies + 1)%nat by lia.
  rewrite paginate_from_add, Hrun. cbn [Pagination.paginate_from].
  split; [|split].
  - intros Hfail. destruct (cycle_fetch_fails st' _ Hfail) as (evs & -> & Hno).
    eexists. split; [reflexivity|].
    rewrite !pages_app, Hno. simpl. by rewrite app_nil_r.
  - intros body n' Hfetch Hnothing.
    destruct (cycle_empty st' _ _ _ Hfetch Hnothing) as (evs & lvl & record & -> & Hno).
    eexists. split; [reflexivity|].
    rewrite !pages_app, Hno. simpl. by rewrite app_nil_r.
  - intros body batch size n' Hfetch Hc Hcur.
    destruct (Hfetch (page_params st')) as [evs Hreq].
    pose proof (make_request_no_yield (page_params st') n_end) as Hno.
    rewrite Hreq in Hno. simpl in Hno.
    rewrite (cycle_page _ _ _ _ _ _ _ Hreq Hc), Hcur. cbv beta iota zeta.
    eexists. split; [reflexivity|].
    rewrite !pages_app, Hno, !map_app, Hdata, Hnum. cbn [app pages map].
    split; [done|].
    rewrite Nat.add_1_r, seq_S, map_app. cbn [map page_of page_number initial page_count].
    rewrite Hcount. cbn [initial page_count]. do 2 f_equal. lia.
Qed.

(** Nothing else ends the loop: while every response carries a batch
    and a cursor, the generator is still running after any number of
    passes, with one page yielded per pass. *)
Lemma paginate_from_endless fuel st n :
  (∀ i, ∃ body batch size,
     answers (n + i) body ∧ carries body batch size ∧ py_truthy (cursor body) = true) →
  ∃ tr st', paginate_from fuel st n = (tr, Some (st', (n + fuel)%nat)) ∧
            length (pages tr) = fuel.
Proof.
  revert st n. induction fuel as [|fuel IH]; intros st n Hall.
  - exists [], st. simpl. by rewrite Nat.add_0_r.
  - destruct (Hall 0%nat) as (body & batch & size & Hans & Hc & Hcur).
    rewrite Nat.add_0_r in Hans.
    destruct (IH (after_page st (cursor body) size) (S n)) as (tr & st' & Hrun & Hlen).
    { intros i. replace (S n + i)%nat with (n + S i)%nat by lia. apply Hall. }
    cbn [Pagination.paginate_from]. rewrite (cycle_more _ _ _ _ _ Hans Hc Hcur), Hrun.
    eexists _, st'. split; [do 3 f_equal; lia|]. simpl. by rewrite Hlen.
Qed.

End Paginator.

(** C3.  When every attempt of a request is answered 429, the fetcher
    makes [RETRY_ATTEMPTS] attempts (3 with the settings of the
    repository), sleeps [attempt_number * RETRY_DELAY] seconds after the
    attempt of each 1-based number, hence before each retry, and then
    returns [None]; it does not raise. *)
Theorem rate_limit_exhausts_retries cfg upstream base_url endpoint query n :
  0 <= RETRY_DELAY cfg →
  (∀ k, (k < Z.to_nat (RETRY_ATTEMPTS cfg))%nat →
        ∃ text json,
          upstream (n + k)%nat (request_of cfg base_url endpoint query) = Response 429 text json) →
  _make_request cfg upstream base_url endpoint query n
  = (Returned PNone,
     flat_map (rate_limited_attempt cfg (request_of cfg base_url endpoint query))
              (seq 1 (Z.to_nat (RETRY_ATTEMPTS cfg))),
     (n + Z.to_nat (RETRY_ATTEMPTS cfg))%nat).
Proof.
  intros Hdelay Hall. unfold _make_request.
  by apply (attempts_rate_limited cfg upstream _ _ 0%nat).
Qed.

Lemma rate_limit_exhausts_retries_witness :
  let req := {| url := api +:+ "/domestic/search"; query := postcode_query; timeout := 30 |} in
  _make_request settings rate_limiting api "domestic/search" postcode_query 0
  = (Returned PNone,
     [EGet req; ELog WARNING (RateLimited 1); ESleep 1000;
      EGet req; ELog WARNING (RateLimited 2); ESleep 2000;
      EGet req; ELog WARNING (RateLimited 3); ESleep 3000],
     3%nat).
Proof.
  refine (rate_limit_exhausts_retries settings rate_limiting api "domestic/search"
            postcode_query 0 _ _).
  - simpl. lia.
  - intros k _. exists "Too Many Requests", None. reflexivity.
Defined.

(** C4.  When the first response to a request has a status other than
    200 and 429, the fetcher returns [None] after that one attempt: one
    request is sent, there is no sleep, and the status and the body of
    the response are logged. *)
Theorem other_status_fails_without_retry cfg upstream base_url endpoint query n
    status text json :
  0 < RETRY_ATTEMPTS cfg →
  status ≠ 200 → status ≠ 429 →
  upstream n (request_of cfg base_url endpoint query) = Response status text json →
  _make_request cfg upstream base_url endpoint query n
  = (Returned PNone,
     [EGet (request_of cfg base_url endpoint query); ELog ERROR (ApiError status text)],
     S n).
Proof.
  intros Hsome H200 H429 Hup. unfold _make_request.
  destruct (Z.to_nat (RETRY_ATTEMPTS cfg)) as [|k] eqn:Hk; [lia|].
  cbn [attempts]. fold (request_of cfg base_url endpoint query). rewrite Hup.
  destruct (Z.eqb_spec status 200); [done|].
  by destruct (Z.eqb_spec status 429).
Qed.

Lemma other_status_fails_without_retry_witness :
  let req := {| url := api +:+ "/domestic/search"; query := postcode_query; timeout := 30 |} in
  _make_request settings unavailable api "domestic/search" postcode_query 0
  = (Returned PNone, [EGet req; ELog ERROR (ApiError 503 "Service Unavailable")], 1%nat).
Proof.
  refine (other_status_fails_without_retry settings unavailable api "domestic/search"
            postcode_query 0 503 "Service Unavailable" None _ _ _ _).
  - simpl. lia.
  - lia.
  - lia.
  - reflexivity.
Defined.

(** The example of the specification, continued: a 429, then a page
    with a cursor, then a page without. *)
Lemma paginate_stops_at_first_terminal_cycle_witness :
  ∃ tr,
    paginate settings two_pages_after_rate_limit api "domestic/search" postcode_query
             "search-after" 2 0 = (tr, None) ∧
    map data (pages tr) = [PList [certificate "k1"]] ++ [PList [certificate "k2"]] ∧
    map page_number (pages tr) = map Z.of_nat (seq 1 2).
Proof.
  assert (leads settings two_pages_after_rate_limit api "domestic/search" 0
            [page_with_cursor] [PList [certificate "k1"]] 2) as Hleads.
  { exists 2%nat, 1. split_and!.
    - intros query. eexists. reflexivity.
    - repeat split; reflexivity.
    - reflexivity.
    - reflexivity. }
  apply (paginate_stops_at_first_terminal_cycle settings two_pages_after_rate_limit api
           "domestic/search" postcode_query "search-after" _ _ 0 2 Hleads)
    with (body := last_page) (size := 1) (n' := 3%nat).
  - intros query. eexists. reflexivity.
  - repeat split; reflexivity.
  - reflexivity.
Defined.

(** C2 as stated fails: against an upstream whose every response has a
    record and a cursor, no number of fetch cycles ends the session. *)
Lemma endless_pagination_never_finishes :
  ¬ ∃ fuel,
      finished (paginate settings endless api "domestic/search" postcode_query
                         "search-after" fuel 0).
Proof.
  intros [fuel Hfin].
  destruct (paginate_from_endless settings endless api "domestic/search" postcode_query
              "search-after" ltac:(simpl; lia) fuel initial 0) as (tr & st' & Hrun & _).
  - intros i. exists page_with_cursor, (PList [certificate "k1"]), 1.
    split; [intros req; by exists ""|]. repeat split; reflexivity.
  - unfold finished, paginate in Hfin. rewrite Hrun in Hfin. discriminate.
Qed.

Lemma dict_get_without_cursor name body :
  name ≠ "next-search-after" →
  dict_get (KStr name) (without_cursor body) = dict_get (KStr name) body.
Proof.
  intros Hne. unfold without_cursor.
  induction body as [|[k v] body IH]; [done|].
  rewrite filter_cons. simpl.
  destruct (key_eqb k (KStr name)) eqn:Hk.
  - apply key_eqb_str in Hk as ->.
    rewrite decide_True by (by apply key_eqb_str_ne).
    simpl. by rewrite String.eqb_refl.
  - case_decide; simpl; by rewrite ?Hk, IH.
Qed.

Lemma cursor_without_cursor body : cursor (without_cursor body) = PNone.
Proof.
  unfold cursor, without_cursor.
  induction body as [|[k v] body IH]; [done|].
  rewrite filter_cons. simpl. case_decide as Hk; [|done].
  simpl. by rewrite Hk.
Qed.

Lemma normalize_without_cursor body :
  normalize (PDict (without_cursor body)) = normalize (PDict body).
Proof.
  unfold normalize. simpl. unfold dict_mem.
  by rewrite !dict_get_without_cursor.
Qed.

(** C9.  A response with a non-empty batch whose ['next-search-after']
    is present but falsy ends the session exactly as the same response
    without the field does: the page is yielded, the loop is left, and
    no further request is sent, whatever the fuel.  Besides, a falsy
    cursor in the locals is never written into the query of a request. *)
Theorem falsy_cursor_ends_session cfg upstream upstream' base_url endpoint params
    search_after_key st n body batch size :
  0 < RETRY_ATTEMPTS cfg →
  answers upstream n body →
  answers upstream' n (without_cursor body) →
  carries body batch size →
  py_truthy (cursor body) = false →
  let run := cycle cfg upstream base_url endpoint params search_after_key st n in
  run = cycle cfg upstream' base_url endpoint params search_after_key st n ∧
  snd run = None ∧
  pages (fst run) = [page_of st batch size] ∧
  requests (fst run)
    = [request_of cfg base_url endpoint (page_params cfg params search_after_key st)] ∧
  (∀ fuel, paginate_from cfg upstream base_url endpoint params search_after_key
             (S fuel) st n = run) ∧
  (∀ st', py_truthy (search_after st') = false →
          page_params cfg params search_after_key st'
          = dict_set (KStr "size") (PInt (PAGE_SIZE cfg)) params).
Proof.
  intros Hsome Hans Hans' Hc Hcur run. subst run.
  assert (carries (without_cursor body) batch size) as Hc'.
  { unfold carries. by rewrite normalize_without_cursor. }
  rewrite (cycle_last cfg upstream base_url endpoint params search_after_key Hsome
             st n body batch size Hans Hc Hcur).
  rewrite (cycle_last cfg upstream' base_url endpoint params search_after_key Hsome
             st n _ batch size Hans' Hc') by (by rewrite cursor_without_cursor).
  split_and!; try done.
  - intros fuel. cbn [paginate_from].
    by rewrite (cycle_last cfg upstream base_url endpoint params search_after_key Hsome
                  st n body batch size Hans Hc Hcur).
  - intros st' Hfalsy. unfold page_params. by rewrite Hfalsy.
Qed.

(** The falsy values of the model: [None], [False], [0], the empty
    string, the empty list and the empty dict. *)
Lemma falsy_values v :
  py_truthy v = false ↔
  v = PNone ∨ v = PBool false ∨ v = PInt 0 ∨ v = PStr "" ∨ v = PList [] ∨ v = PDict [].
Proof.
  split.
  - destruct v as [|[]|z|s|[]|[]]; simpl; intros H; try discriminate; eauto 7.
    + apply negb_false_iff, Z.eqb_eq in H as ->. eauto 7.
    + apply negb_false_iff, String.eqb_eq in H as ->. eauto 7.
  - intros [->|[->|[->|[->|[->| ->]]]]]; reflexivity.
Qed.

Lemma falsy_cursor_ends_session_witness :
  let run := cycle settings (always (Response 200 "" (Some (PDict page_with_empty_cursor))))
                   api "domestic/search" postcode_query "search-after"
                   (after_page initial (PStr "k1") 1) 1 in
  run = cycle settings (always (Response 200 "" (Some (PDict last_page))))
              api "domestic/search" postcode_query "search-after"
              (after_page initial (PStr "k1") 1) 1 ∧
  snd run = None ∧
  map data (pages (fst run)) = [PList [certificate "k2"]] ∧
  map query (requests (fst run))
    = [[(KStr "postcode", PStr "SW1A 1AA"); (KStr "search-after", PStr "k1");
        (KStr "size", PInt 5000)]].
Proof.
  destruct (falsy_cursor_ends_session settings
              (always (Response 200 "" (Some (PDict page_with_empty_cursor))))
              (always (Response 200 "" (Some (PDict last_page))))
              api "domestic/search" postcode_query "search-after"
              (after_page initial (PStr "k1") 1) 1
              page_with_empty_cursor (PList [certificate "k2"]) 1)
    as (Hsame & Hend & Hpages & Hrequests & _).
  - simpl. lia.
  - intros req. exists "". reflexivity.
  - intros req. exists "". reflexivity.
  - repeat split; reflexivity.
  - reflexivity.
  - intros run. subst run. split; [exact Hsame|]. split; [exact Hend|].
    split; [by rewrite Hpages|by rewrite Hrequests].
Defined.

End PaginationProofs.

(** ** Properties of the cache *)

Module DatabaseProofs.

Import Py Datetime Database DatabaseScenarios.

Lemma json_dumps_Returned d payload :
  json_dumps d = Returned payload → payload = JsonObject d.
Proof. unfold json_dumps. destruct (forallb _ _); [by intros [= <-]|done]. Qed.

Lemma insert_parameters_payload row certificate_id payload :
  insert_parameters row = Returned (Some (certificate_id, payload)) →
  payload = JsonObject (to_dict row) ∧
  cell_truthy (certificate_id_of row) = true ∧
  bind (certificate_id_of row) = Returned certificate_id.
Proof.
  unfold insert_parameters. destruct (cell_truthy _) eqn:Ht; [|done]. simpl.
  destruct (json_dumps _) as [p|] eqn:Hd; [|done]. simpl.
  apply json_dumps_Returned in Hd as ->.
  destruct (bind _) as [b|]; [|done]. simpl. by intros [= <- <-].
Qed.

Lemma get_certificate_by_id_hit now utc id max_age_hours db cutoff row :
  cutoff_hours now max_age_hours = Returned cutoff →
  epc_certificates db !! KText id = Some row →
  text_gt (cached_at row) cutoff = true →
  get_certificate_by_id now utc id max_age_hours db
  = (match json_loads (data row) with
     | Returned d => Returned (Some d)
     | Raised JSONDecodeError => Returned None
     | Raised e => Raised e
     end,
     {| epc_certificates :=
          <[KText id := touch (CURRENT_TIMESTAMP utc) row]> (epc_certificates db);
        search_cache := search_cache db |}).
Proof.
  intros Hcut Hrow Hfresh. unfold get_certificate_by_id.
  rewrite Hcut, Hrow, Hfresh. by destruct (json_loads (data row)) as [d|[]].
Qed.

(** C5, the code at a failing input, on a machine whose local time is
    UTC.  A certificate is stored, and stored again with another payload
    seven seconds later.  The cache then holds one entry for it, with
    the second payload and the time of the second store.  Read in the
    second of that store with [max_age_hours = 1], the entry, which is
    within the window, is not returned: its [cached_at] is on the
    calendar date of the cutoff.  With [max_age_hours = 24] the same
    read returns the second payload. *)
Theorem store_then_get_by_id_on_the_day_of_the_cutoff :
  let first_store := at_time 2024 3 10 12 0 0 in
  let second_store := at_time 2024 3 10 12 0 7 in
  let db1 := fst (store_certificates (fun _ => first_store) [first_payload] "domestic"
                    empty_cache) in
  let db2 := fst (store_certificates (fun _ => second_store) [second_payload] "domestic"
                    db1) in
  (is_frame [first_payload] = true ∧ is_frame [second_payload] = true ∧
   epc_certificates db2
   = {[ KText "k1" := {| property_type := "domestic"; data := JsonObject second_payload;
                         cached_at := "2024-03-10 12:00:07";
                         last_accessed := "2024-03-10 12:00:07" |} ]}) ∧
  (minus_timedelta second_store (hours 1) = Returned (at_time 2024 3 10 11 0 7) ∧
   instant (at_time 2024 3 10 11 0 7) < instant second_store ∧
   cutoff_hours second_store 1 = Returned "2024-03-10T11:00:07" ∧
   get_certificate_by_id second_store second_store "k1" 1 db2 = (Returned None, db2)) ∧
  (cutoff_hours second_store 24 = Returned "2024-03-09T12:00:07" ∧
   fst (get_certificate_by_id second_store second_store "k1" 24 db2)
   = Returned (Some second_payload)).
Proof. split_and!; vm_compute; reflexivity. Qed.

(** C8, the code at a failing input.  In the frame that [pd.DataFrame]
    makes of a record without identity and a record with an [lmk-key],
    the first row holds NaN under [lmk-key].  NaN is true, so the row is
    not skipped: it is inserted, with NULL for its [certificate_id], and
    counted, and when the batch is stored again it is inserted once
    more, while the row with a key is replaced.  In a frame with a
    column of sets, the row whose [lmk-key] is the empty string is
    skipped without a log line, the row with a set raises [TypeError],
    which is logged, and the row after them is stored. *)
Theorem row_with_missing_identity_is_stored :
  let utc := fun _ : nat => at_time 2024 3 10 12 0 0 in
  let stored payload :=
    {| property_type := "domestic"; data := JsonObject payload;
       cached_at := "2024-03-10 12:00:00"; last_accessed := "2024-03-10 12:00:00" |} in
  let once := store_certificates utc [without_identity; first_payload] "domestic" empty_cache in
  let twice := store_certificates utc [without_identity; first_payload] "domestic" (fst once) in
  let other := store_certificates utc [blank_identity; unserializable; untagged] "domestic"
                 empty_cache in
  (is_frame [without_identity; first_payload] = true ∧
   row_get without_identity "lmk-key" = CNaN ∧
   row_get without_identity "building-reference-number" = CNone ∧
   insert_parameters without_identity = Returned (Some (SNull, JsonObject without_identity))) ∧
  (epc_certificates (fst once)
   = {[ KNull 0 := stored without_identity; KText "k1" := stored first_payload ]} ∧
   snd once = [(INFO, StoredCertificates 2)]) ∧
  (epc_certificates (fst twice)
   = {[ KNull 0 := stored without_identity; KNull 1 := stored without_identity;
        KText "k1" := stored first_payload ]} ∧
   snd twice = [(INFO, StoredCertificates 2)]) ∧
  (is_frame [blank_identity; unserializable; untagged] = true ∧
   epc_certificates (fst other) = {[ KText "k1" := stored untagged ]} ∧
   snd other = [(ERROR, ErrorStoringCertificate TypeError); (INFO, StoredCertificates 1)]).
Proof. split_and!; vm_compute; reflexivity. Qed.

Section Delete.

Context `{Countable K} {A : Type} (stamp : A → string) (cutoff : string).

Lemma kept_lookup (table : gmap K A) id :
  kept stamp cutoff table !! id
  = (row ← table !! id; if text_lt (stamp row) cutoff then None else Some row).
Proof.
  unfold kept. rewrite map_lookup_filter.
  destruct (table !! id) as [row|]; simpl; [|done].
  destruct (text_lt (stamp row) cutoff).
  - by rewrite option_guard_False by (intros Hne; by apply Hne).
  - by rewrite option_guard_True.
Qed.

Lemma deleted_lookup (table : gmap K A) id :
  deleted stamp cutoff table !! id
  = (row ← table !! id; if text_lt (stamp row) cutoff then Some row else None).
Proof.
  unfold deleted. rewrite map_lookup_filter.
  destruct (table !! id) as [row|]; simpl; [|done].
  destruct (text_lt (stamp row) cutoff).
  - by rewrite option_guard_True.
  - by rewrite option_guard_False.
Qed.

Lemma deleted_kept_partition (table : gmap K A) :
  deleted stamp cutoff table ∪ kept stamp cutoff table = table ∧
  deleted stamp cutoff table ##ₘ kept stamp cutoff table.
Proof.
  split.
  - apply map_eq. intros id. rewrite lookup_union, deleted_lookup, kept_lookup.
    destruct (table !! id) as [row|]; simpl; [|done].
    by destruct (text_lt (stamp row) cutoff).
  - apply map_disjoint_spec. intros id x y.
    rewrite deleted_lookup, kept_lookup.
    destruct (table !! id) as [row|]; simpl; [|done].
    by destruct (text_lt (stamp row) cutoff).
Qed.

Lemma rowcount_sizes (table : gmap K A) :
  rowcount stamp cutoff table
  = Z.of_nat (size table) - Z.of_nat (size (kept stamp cutoff table)).
Proof.
  destruct (deleted_kept_partition table) as [Hunion Hdisj].
  unfold rowcount. rewrite <- Hunion at 2. rewrite (map_size_disj_union _ _ Hdisj). lia.
Qed.

Lemma kept_kept (table : gmap K A) :
  kept stamp cutoff (kept stamp cutoff table) = kept stamp cutoff table.
Proof.
  apply map_eq. intros id. rewrite !kept_lookup.
  destruct (table !! id) as [row|]; simpl; [|done].
  destruct (text_lt (stamp row) cutoff) eqn:Hlt; simpl; [done|]. by rewrite Hlt.
Qed.

Lemma rowcount_kept (table : gmap K A) :
  rowcount stamp cutoff (kept stamp cutoff table) = 0.
Proof. rewrite rowcount_sizes, kept_kept. lia. Qed.

End Delete.

(** C7, as amended.  [cleanup_old_data] returns [None]; the two counts of
    deleted rows go to the log.  In the certificate table and in the
    search cache alike it selects the rows to delete by a test on their
    [last_accessed] and the cutoff alone, whatever their [cached_at],
    and keeps every other row as it is; the counts are the numbers of
    rows removed; run again with the same cutoff it deletes nothing. *)
Theorem cleanup_selects_by_last_accessed now max_age_days db cutoff :
  cutoff_days now max_age_days = Returned cutoff →
  ∃ db' deleted_count deleted_searches,
    cleanup_old_data now max_age_days db
      = (Returned tt, db', [(INFO, CleanedUp deleted_count deleted_searches)]) ∧
    (∀ id, epc_certificates db' !! id
           = (row ← epc_certificates db !! id;
              if text_lt (last_accessed row) cutoff then None else Some row)) ∧
    (∀ id, search_cache db' !! id
           = (row ← search_cache db !! id;
              if text_lt (search_last_accessed row) cutoff then None else Some row)) ∧
    deleted_count
      = Z.of_nat (size (epc_certificates db)) - Z.of_nat (size (epc_certificates db')) ∧
    deleted_searches
      = Z.of_nat (size (search_cache db)) - Z.of_nat (size (search_cache db')) ∧
    cleanup_old_data now max_age_days db' = (Returned tt, db', [(INFO, CleanedUp 0 0)]).
Proof.
  intros Hcut. unfold cleanup_old_data. rewrite Hcut.
  eexists _, _, _. split; [reflexivity|]. cbn [epc_certificates search_cache].
  split_and!.
  - intros id. apply kept_lookup.
  - intros id. apply kept_lookup.
  - apply rowcount_sizes.
  - apply rowcount_sizes.
  - by rewrite !rowcount_kept, !kept_kept.
Qed.

Lemma cleanup_selects_by_last_accessed_witness :
  ∃ db' deleted_count deleted_searches,
    cleanup_old_data (at_time 2024 5 1 9 0 0) 30 (cached_at_time (at_time 2024 3 10 12 0 0))
      = (Returned tt, db', [(INFO, CleanedUp deleted_count deleted_searches)]) ∧
    epc_certificates db' !! KText "k1" = None.
Proof.
  destruct (cleanup_selects_by_last_accessed (at_time 2024 5 1 9 0 0) 30
              (cached_at_time (at_time 2024 3 10 12 0 0)) "2024-04-01T09:00:00")
    as (db' & deleted_count & deleted_searches & Hrun & Hcerts & _).
  - vm_compute. reflexivity.
  - exists db', deleted_count, deleted_searches. split; [exact Hrun|].
    rewrite Hcerts. vm_compute. reflexivity.
Defined.

(** C7 as stated fails.  On a machine whose local time is UTC, an entry
    last accessed on 2024-03-10 at 23:00 is deleted by
    [cleanup_old_data(30)] run on 2024-04-09 at 01:00, although the
    cutoff, 2024-03-10 at 01:00, precedes the access; and the method
    returns [None], the counts being only logged. *)
Lemma cleanup_deletes_entry_accessed_after_cutoff :
  let accessed := at_time 2024 3 10 23 0 0 in
  let now := at_time 2024 4 9 1 0 0 in
  let cutoff_time := at_time 2024 3 10 1 0 0 in
  minus_timedelta now (days 30) = Returned cutoff_time ∧
  instant cutoff_time < instant accessed ∧
  last_accessed <$> epc_certificates (cached_at_time accessed) !! KText "k1"
    = Some (CURRENT_TIMESTAMP accessed) ∧
  cleanup_old_data now 30 (cached_at_time accessed)
    = (Returned tt, empty_cache, [(INFO, CleanedUp 1 0)]).
Proof. vm_compute. split_and!; reflexivity. Qed.

(** C10, the code at two failing inputs, on a machine whose local time
    is UTC.  The only entry of the cache was cached on 2024-03-10 at
    12:00 and its payload is a text that is not JSON.  Read by its id at
    12:30 of the same day with [max_age_hours = 1], the entry, which is
    within the window, is not found by the statement: the result is
    [None] and the cache is as it was, [last_accessed] included.  Read
    the next day at 09:00 with [max_age_hours = 48], the entry is found:
    the result is [None] and [last_accessed] is now the time of the
    read; a cleanup of 30 days run on 2024-04-09 at 13:00 then keeps the
    entry, which it deletes when the read has not taken place.  When the
    column holds a number in place of a text, the entry is found and
    touched, and the read raises [TypeError]. *)
Theorem undecodable_entry_within_the_window :
  let same_day := at_time 2024 3 10 12 30 0 in
  let next_day := at_time 2024 3 11 9 0 0 in
  let touched v :=
    {| epc_certificates :=
         {[ KText "k1" := {| property_type := "domestic"; data := v;
                             cached_at := "2024-03-10 12:00:00";
                             last_accessed := "2024-03-11 09:00:00" |} ]};
       search_cache := ∅ |} in
  (epc_certificates corrupted !! KText "k1"
   = Some {| property_type := "domestic"; data := NotJson;
             cached_at := "2024-03-10 12:00:00"; last_accessed := "2024-03-10 12:00:00" |} ∧
   json_loads NotJson = Raised JSONDecodeError) ∧
  (minus_timedelta same_day (hours 1) = Returned (at_time 2024 3 10 11 30 0) ∧
   instant (at_time 2024 3 10 11 30 0) < instant (at_time 2024 3 10 12 0 0) ∧
   cutoff_hours same_day 1 = Returned "2024-03-10T11:30:00" ∧
   get_certificate_by_id same_day same_day "k1" 1 corrupted = (Returned None, corrupted)) ∧
  (cutoff_hours next_day 48 = Returned "2024-03-09T09:00:00" ∧
   get_certificate_by_id next_day next_day "k1" 48 corrupted
   = (Returned None, touched NotJson) ∧
   cleanup_old_data (at_time 2024 4 9 13 0 0) 30 (touched NotJson)
   = (Returned tt, touched NotJson, [(INFO, CleanedUp 0 0)]) ∧
   cleanup_old_data (at_time 2024 4 9 13 0 0) 30 corrupted
   = (Returned tt, empty_cache, [(INFO, CleanedUp 1 0)])) ∧
  (json_loads Number = Raised TypeError ∧
   get_certificate_by_id next_day next_day "k1" 48 (with_payload Number)
   = (Raised TypeError, touched Number)).
Proof. split_and!; vm_compute; reflexivity. Qed.

(** Neither read looks at [last_accessed]: the WHERE clause of
    [get_certificates] and the freshness test of [get_certificate_by_id]
    give the same verdict whatever that column holds. *)
Lemma reads_ignore_last_accessed json5 property_type cutoff postcode authority uprn stamp row :
  selected json5 property_type cutoff postcode authority uprn (touch stamp row)
  = selected json5 property_type cutoff postcode authority uprn row ∧
  text_gt (cached_at (touch stamp row)) cutoff = text_gt (cached_at row) cutoff.
Proof. split; reflexivity. Qed.

(** C6, the code at two failing inputs.  The freshness test compares the
    text of [CURRENT_TIMESTAMP] (UTC, ["YYYY-MM-DD HH:MM:SS"]) with the
    ISO text of a local time (["YYYY-MM-DDTHH:MM:SS"]).  Five hours
    behind UTC, an entry stored one hour before the read is returned
    with [max_age_hours = 0].  At UTC, an entry stored thirty minutes
    before the read is not returned with [max_age_hours = 1]. *)
Theorem freshness_test_compares_mismatched_texts :
  (minus_timedelta (at_time 2024 3 10 3 0 0) (hours 5) = Returned (at_time 2024 3 9 22 0 0) ∧
   instant (at_time 2024 3 10 2 0 0) + hours 1 = instant (at_time 2024 3 10 3 0 0) ∧
   cached_at <$> epc_certificates (cached_at_time (at_time 2024 3 10 2 0 0)) !! KText "k1"
     = Some "2024-03-10 02:00:00" ∧
   cutoff_hours (at_time 2024 3 9 22 0 0) 0 = Returned "2024-03-09T22:00:00" ∧
   fst (get_certificates sqlite_3_40 (at_time 2024 3 9 22 0 0) ∅ "domestic" 0
          (cached_at_time (at_time 2024 3 10 2 0 0))) = Returned [first_payload] ∧
   fst (get_certificates sqlite_3_42 (at_time 2024 3 9 22 0 0) ∅ "domestic" 0
          (cached_at_time (at_time 2024 3 10 2 0 0))) = Returned [first_payload] ∧
   fst (get_certificate_by_id (at_time 2024 3 9 22 0 0) (at_time 2024 3 10 3 0 0) "k1" 0
          (cached_at_time (at_time 2024 3 10 2 0 0))) = Returned (Some first_payload)) ∧
  (instant (at_time 2024 3 10 23 0 0) + hours 1 > instant (at_time 2024 3 10 23 30 0) ∧
   cutoff_hours (at_time 2024 3 10 23 30 0) 1 = Returned "2024-03-10T22:30:00" ∧
   fst (get_certificates sqlite_3_40 (at_time 2024 3 10 23 30 0) ∅ "domestic" 1
          (cached_at_time (at_time 2024 3 10 23 0 0))) = Returned [] ∧
   fst (get_certificates sqlite_3_42 (at_time 2024 3 10 23 30 0) ∅ "domestic" 1
          (cached_at_time (at_time 2024 3 10 23 0 0))) = Returned [] ∧
   fst (get_certificate_by_id (at_time 2024 3 10 23 30 0) (at_time 2024 3 10 23 30 0) "k1" 1
          (cached_at_time (at_time 2024 3 10 23 0 0))) = Returned None).
Proof. split; split_and!; vm_compute; reflexivity. Qed.

End DatabaseProofs.

(** ** More on the fetcher *)

Module FetcherProperties.

Import Py Pagination PaginationTerms PaginationScenarios FetchScenarios.

Lemma slept_app tr1 tr2 : slept (tr1 ++ tr2) = slept tr1 + slept tr2.
Proof.
  induction tr1 as [|e tr1 IH]; [done|]. destruct e; simpl; rewrite ?IH; lia.
Qed.

Section Fetcher.

Variable cfg : Config.
Variable upstream : server.
Variable base_url : string.

(** [time.sleep] accepts the waits of the fetcher. *)
Hypothesis delay_nonnegative : 0 <= RETRY_DELAY cfg.

Lemma sleep_nonnegative (a : nat) : ((Z.of_nat a + 1) * RETRY_DELAY cfg <? 0) = false.
Proof. apply Z.ltb_ge. apply Z.mul_nonneg_nonneg; lia. Qed.

(** The attempts under network errors: the last one does not sleep. *)
Lemma attempts_network_errors req message remaining a n :
  RETRY_ATTEMPTS cfg = Z.of_nat (a + remaining) →
  (∀ k, (k < remaining)%nat →
        upstream (n + k)%nat req = RequestException (message (S (a + k)))) →
  attempts cfg upstream req remaining (Z.of_nat a) n
  = (Returned PNone,
     flat_map (failed_attempt cfg req (a + remaining) message) (seq (S a) remaining),
     (n + remaining)%nat).
Proof.
  revert a n. induction remaining as [|remaining IH]; intros a n Htotal Hall.
  - simpl. by rewrite Nat.add_0_r.
  - pose proof (Hall 0%nat ltac:(lia)) as Hfirst.
    rewrite !Nat.add_0_r in Hfirst.
    cbn [attempts]. rewrite Hfirst. cbn [seq flat_map]. unfold failed_attempt at 1.
    destruct remaining as [|remaining].
    + rewrite (proj2 (Z.ltb_ge _ _)) by lia.
      rewrite (proj2 (Nat.ltb_ge _ _)) by lia.
      simpl. rewrite Htotal. do 2 f_equal. lia.
    + rewrite (proj2 (Z.ltb_lt _ _)) by lia.
      rewrite (proj2 (Nat.ltb_lt _ _)) by lia.
      unfold sleep_then. rewrite sleep_nonnegative.
      replace (Z.of_nat a + 1) with (Z.of_nat (S a)) by lia.
      rewrite (IH (S a) (S n)).
      * replace (S a + S remaining)%nat with (a + S (S remaining))%nat by lia.
        simpl. do 2 f_equal. lia.
      * rewrite Htotal. f_equal. lia.
      * intros k Hk. replace (S n + k)%nat with (n + S k)%nat by lia.
        rewrite Hall by lia. do 2 f_equal. lia.
Qed.

(** X1.  When every attempt of a fetch raises a [RequestException],
    [_make_request] returns [None] after [RETRY_ATTEMPTS] requests.  Each
    attempt but the last logs a warning and sleeps its number times
    [RETRY_DELAY]; the last logs an error and does not sleep. *)
Theorem network_errors_exhaust_retries endpoint query message n :
  0 <= RETRY_ATTEMPTS cfg →
  (∀ k, (k < Z.to_nat (RETRY_ATTEMPTS cfg))%nat →
        upstream (n + k)%nat (request_of cfg base_url endpoint query)
        = RequestException (message (S k))) →
  _make_request cfg upstream base_url endpoint query n
  = (Returned PNone,
     flat_map (failed_attempt cfg (request_of cfg base_url endpoint query)
                 (Z.to_nat (RETRY_ATTEMPTS cfg)) message)
              (seq 1 (Z.to_nat (RETRY_ATTEMPTS cfg))),
     (n + Z.to_nat (RETRY_ATTEMPTS cfg))%nat).
Proof.
  intros Hattempts Hall. unfold _make_request.
  apply (attempts_network_errors _ message _ 0%nat); [simpl; lia|done].
Qed.

(** What a transient failure on a non-final attempt costs. *)
Lemma attempts_recover req body text remaining a k n :
  (k < remaining)%nat →
  RETRY_ATTEMPTS cfg = Z.of_nat (a + remaining) →
  (∀ i, (i < k)%nat → transient (upstream (n + i)%nat req) = true) →
  upstream (n + k)%nat req = Response 200 text (Some body) →
  ∃ tr,
    attempts cfg upstream req remaining (Z.of_nat a) n = (Returned body, tr, (n + k + 1)%nat) ∧
    length (requests tr) = S k ∧
    pages tr = [] ∧
    slept tr = 500 * RETRY_DELAY cfg
               * (Z.of_nat (a + k) * (Z.of_nat (a + k) + 1) - Z.of_nat a * (Z.of_nat a + 1)).
Proof.
  revert remaining a n. induction k as [|k IH]; intros remaining a n Hlt Htotal Hall Hok.
  - destruct remaining as [|remaining]; [lia|].
    rewrite Nat.add_0_r in Hok. cbn [attempts]. rewrite Hok. simpl.
    eexists. split; [do 2 f_equal; lia|]. simpl. rewrite Nat.add_0_r. split_and!; try done. lia.
  - destruct remaining as [|remaining]; [lia|].
    pose proof (Hall 0%nat ltac:(lia)) as Hfirst. rewrite Nat.add_0_r in Hfirst.
    destruct (IH remaining (S a) (S n)) as (tr & Hrun & Hreq & Hpages & Hslept).
    { lia. }
    { rewrite Htotal. f_equal. lia. }
    { intros i Hi. replace (S n + i)%nat with (n + S i)%nat by lia. apply Hall. lia. }
    { by replace (S n + k)%nat with (n + S k)%nat by lia. }
    replace (Z.of_nat (S a)) with (Z.of_nat a + 1) in Hrun by lia.
    assert ((Z.of_nat a <? RETRY_ATTEMPTS cfg - 1) = true) as Hnotlast by (apply Z.ltb_lt; lia).
    assert (∀ before,
              slept before = 0 → pages before = [] → length (requests before) = 1%nat →
              ∃ tr',
                sleep_then ((Z.of_nat a + 1) * RETRY_DELAY cfg) before
                  (attempts cfg upstream req remaining (Z.of_nat a + 1) (S n)) (S n)
                = (Returned body, tr', (n + S k + 1)%nat) ∧
                length (requests tr') = S (S k) ∧ pages tr' = [] ∧
                slept tr' = 500 * RETRY_DELAY cfg
                  * (Z.of_nat (a + S k) * (Z.of_nat (a + S k) + 1)
                     - Z.of_nat a * (Z.of_nat a + 1))) as Hstep.
    { intros before Hs Hp Hr. unfold sleep_then. rewrite sleep_nonnegative, Hrun.
      eexists. split; [do 2 f_equal; lia|].
      rewrite PaginationProofs.requests_app, length_app, Hr. cbn [requests]. rewrite Hreq.
      split; [done|]. split.
      - clear -Hp Hpages. induction before as [|e before IHb]; [done|].
        destruct e; simpl in *; try done; by apply IHb.
      - rewrite slept_app, Hs. cbn [slept]. rewrite Hslept.
        replace (Z.of_nat (S a + k)) with (Z.of_nat a + Z.of_nat k + 1) by lia.
        replace (Z.of_nat (a + S k)) with (Z.of_nat a + Z.of_nat k + 1) by lia.
        replace (Z.of_nat (S a)) with (Z.of_nat a + 1) by lia. ring. }
    cbn [attempts]. destruct (upstream n req) as [status text' json|e].
    + simpl in Hfirst. destruct (status =? 200) eqn:H200.
      * apply Z.eqb_eq in H200 as ->.
        destruct json; [by vm_compute in Hfirst|].
        rewrite Hnotlast. by apply Hstep.
      * rewrite andb_false_l, orb_false_r in Hfirst. rewrite Hfirst. by apply Hstep.
    + rewrite Hnotlast. by apply Hstep.
Qed.

(** X2.  When the first [k] attempts of a fetch fail in a way that is
    tried again (a 429, a network error, or a 200 whose body is not
    JSON), with [k] less than [RETRY_ATTEMPTS], and the next attempt is
    answered 200 with a JSON body, [_make_request] returns that body
    after [k + 1] requests, having slept [RETRY_DELAY * (1 + ... + k)]
    seconds. *)
Theorem transient_failures_then_success endpoint query body text k n :
  (Z.of_nat k < RETRY_ATTEMPTS cfg) →
  (∀ i, (i < k)%nat →
        transient (upstream (n + i)%nat (request_of cfg base_url endpoint query)) = true) →
  upstream (n + k)%nat (request_of cfg base_url endpoint query)
    = Response 200 text (Some body) →
  ∃ tr,
    _make_request cfg upstream base_url endpoint query n
      = (Returned body, tr, (n + k + 1)%nat) ∧
    length (requests tr) = S k ∧
    slept tr = 500 * RETRY_DELAY cfg * (Z.of_nat k * (Z.of_nat k + 1)).
Proof.
  intros Hk Hall Hok. unfold _make_request.
  destruct (attempts_recover (request_of cfg base_url endpoint query) body text
              (Z.to_nat (RETRY_ATTEMPTS cfg)) 0 k n) as (tr & Hrun & Hreq & _ & Hslept);
    try done; try lia.
  exists tr. split; [exact Hrun|]. split; [exact Hreq|].
  rewrite Hslept. simpl. lia.
Qed.

(** Whatever the upstream does. *)
Lemma attempts_bounds req remaining a n :
  ∃ value tr n',
    attempts cfg upstream req remaining (Z.of_nat a) n = (Returned value, tr, n') ∧
    (n' - n)%nat = length (requests tr) ∧
    (n <= n')%nat ∧
    (length (requests tr) <= remaining)%nat ∧
    pages tr = [] ∧
    0 <= slept tr ∧
    slept tr <= 500 * RETRY_DELAY cfg
                * (Z.of_nat (a + remaining) * (Z.of_nat (a + remaining) + 1)
                   - Z.of_nat a * (Z.of_nat a + 1)).
Proof.
  revert a n. induction remaining as [|remaining IH]; intros a n.
  - exists PNone, [], n. simpl. rewrite Nat.add_0_r. split_and!; try done; lia.
  - destruct (IH (S a) (S n))
      as (value & tr & n' & Hrun & Hcount & Hle & Hreq & Hpages & Hpos & Hslept).
    replace (Z.of_nat (S a)) with (Z.of_nat a + 1) in Hrun by lia.
    assert (0 <= Z.of_nat a * RETRY_DELAY cfg) as Hprod by (apply Z.mul_nonneg_nonneg; lia).
    assert (0 <= Z.of_nat remaining * RETRY_DELAY cfg) as Hprod' by (apply Z.mul_nonneg_nonneg; lia).
    assert (0 <= Z.of_nat remaining * Z.of_nat remaining * RETRY_DELAY cfg) as Hprod''
      by (apply Z.mul_nonneg_nonneg; lia).
    assert (0 <= Z.of_nat a * Z.of_nat remaining * RETRY_DELAY cfg) as Hprod3
      by (apply Z.mul_nonneg_nonneg; lia).
    assert (∀ before,
              slept before = 0 → pages before = [] → length (requests before) = 1%nat →
              ∃ value1 tr1 n1,
                sleep_then ((Z.of_nat a + 1) * RETRY_DELAY cfg) before
                  (attempts cfg upstream req remaining (Z.of_nat a + 1) (S n)) (S n)
                = (Returned value1, tr1, n1) ∧
                (n1 - n)%nat = length (requests tr1) ∧ (n <= n1)%nat ∧
                (length (requests tr1) <= S remaining)%nat ∧ pages tr1 = [] ∧
                0 <= slept tr1 ∧
                slept tr1 <= 500 * RETRY_DELAY cfg
                  * (Z.of_nat (a + S remaining) * (Z.of_nat (a + S remaining) + 1)
                     - Z.of_nat a * (Z.of_nat a + 1))) as Hretry.
    { intros before Hs Hp Hr. unfold sleep_then. rewrite sleep_nonnegative, Hrun.
      eexists _, _, _. split; [reflexivity|].
      rewrite PaginationProofs.requests_app, length_app, Hr. cbn [requests].
      rewrite slept_app, Hs. cbn [slept].
      replace (Z.of_nat (S a + remaining)) with (Z.of_nat a + Z.of_nat remaining + 1)
        in Hslept by lia.
      replace (Z.of_nat (a + S remaining)) with (Z.of_nat a + Z.of_nat remaining + 1) by lia.
      replace (Z.of_nat (S a)) with (Z.of_nat a + 1) in Hslept by lia.
      split_and!; try lia; try nia.
      clear -Hp Hpages. induction before as [|e before IHb]; [done|].
      destruct e; simpl in *; try done; by apply IHb. }
    assert (∀ (value1 : pyval) before,
              slept before = 0 → pages before = [] → length (requests before) = 1%nat →
              ∃ value2 tr1 n1,
                (Returned value1, before, S n) = (Returned value2, tr1, n1) ∧
                (n1 - n)%nat = length (requests tr1) ∧ (n <= n1)%nat ∧
                (length (requests tr1) <= S remaining)%nat ∧ pages tr1 = [] ∧
                0 <= slept tr1 ∧
                slept tr1 <= 500 * RETRY_DELAY cfg
                  * (Z.of_nat (a + S remaining) * (Z.of_nat (a + S remaining) + 1)
                     - Z.of_nat a * (Z.of_nat a + 1))) as Hstop.
    { intros value1 before Hs Hp Hr. eexists _, _, _. split; [reflexivity|].
      rewrite Hr, Hs.
      replace (Z.of_nat (a + S remaining)) with (Z.of_nat a + Z.of_nat remaining + 1) by lia.
      split_and!; try done; try lia; try nia. }
    cbn [attempts]. destruct (upstream n req) as [status text json|e].
    + destruct (status =? 200).
      * destruct json as [body|]; [by apply Hstop|].
        destruct (Z.of_nat a <? RETRY_ATTEMPTS cfg - 1); [by apply Hretry|by apply Hstop].
      * destruct (status =? 429); [by apply Hretry|by apply Hstop].
    + destruct (Z.of_nat a <? RETRY_ATTEMPTS cfg - 1); [by apply Hretry|by apply Hstop].
Qed.

(** X3.  Whatever the upstream does, [_make_request] raises nothing: it
    returns a value after at most [RETRY_ATTEMPTS] requests, as many as
    the session counts, yields no page, and sleeps at most
    [RETRY_DELAY * (1 + ... + RETRY_ATTEMPTS)] seconds. *)
Theorem fetch_is_bounded endpoint query n :
  ∃ value tr n',
    _make_request cfg upstream base_url endpoint query n = (Returned value, tr, n') ∧
    (n' - n)%nat = length (requests tr) ∧
    Z.of_nat (length (requests tr)) <= Z.max 0 (RETRY_ATTEMPTS cfg) ∧
    pages tr = [] ∧
    slept tr <= 500 * RETRY_DELAY cfg
                * (Z.max 0 (RETRY_ATTEMPTS cfg) * (Z.max 0 (RETRY_ATTEMPTS cfg) + 1)).
Proof.
  unfold _make_request.
  destruct (attempts_bounds (request_of cfg base_url endpoint query)
              (Z.to_nat (RETRY_ATTEMPTS cfg)) 0 n)
    as (value & tr & n' & Hrun & Hcount & _ & Hreq & Hpages & _ & Hslept).
  exists value, tr, n'. split; [exact Hrun|].
  replace (Z.of_nat (0 + Z.to_nat (RETRY_ATTEMPTS cfg))) with (Z.max 0 (RETRY_ATTEMPTS cfg))
    in Hslept by lia.
  split_and!; try done; lia.
Qed.

End Fetcher.

Lemma network_errors_exhaust_retries_witness :
  _make_request settings offline api "domestic/search" postcode_query 0
  = (Returned PNone,
     flat_map (failed_attempt settings (request_of settings api "domestic/search" postcode_query)
                 (Z.to_nat (RETRY_ATTEMPTS settings)) (fun _ => "Connection refused"))
              (seq 1 (Z.to_nat (RETRY_ATTEMPTS settings))),
     (0 + Z.to_nat (RETRY_ATTEMPTS settings))%nat).
Proof.
  refine (FetcherProperties.network_errors_exhaust_retries settings offline api _
            "domestic/search" postcode_query (fun _ => "Connection refused") 0 _ _).
  - simpl. lia.
  - simpl. lia.
  - intros k _. reflexivity.
Defined.

Example network_errors_exhaust_retries_trace :
  let req := postcode_request postcode_query in
  _make_request settings offline api "domestic/search" postcode_query 0
  = (Returned PNone,
     [EGet req; ELog WARNING (RequestFailedRetrying 1 "Connection refused"); ESleep 1000;
      EGet req; ELog WARNING (RequestFailedRetrying 2 "Connection refused"); ESleep 2000;
      EGet req; ELog ERROR (RequestFailed 3 "Connection refused")],
     3%nat).
Proof. reflexivity. Qed.

Lemma transient_failures_then_success_witness :
  ∃ tr,
    _make_request settings recovering api "domestic/search" postcode_query 0
      = (Returned (PDict last_page), tr, (0 + 2 + 1)%nat) ∧
    length (requests tr) = 3%nat ∧
    slept tr = 500 * RETRY_DELAY settings * (Z.of_nat 2 * (Z.of_nat 2 + 1)).
Proof.
  refine (FetcherProperties.transient_failures_then_success settings recovering api _
            "domestic/search" postcode_query (PDict last_page) "" 2 0 _ _ _).
  - simpl. lia.
  - simpl. lia.
  - intros i Hi. destruct i as [|[|i]]; [reflexivity|reflexivity|lia].
  - reflexivity.
Defined.

Lemma fetch_is_bounded_witness :
  ∃ value tr n',
    _make_request settings rate_limiting api "domestic/search" postcode_query 0
      = (Returned value, tr, n') ∧
    (n' - 0)%nat = length (requests tr) ∧
    Z.of_nat (length (requests tr)) <= Z.max 0 (RETRY_ATTEMPTS settings) ∧
    pages tr = [] ∧
    slept tr <= 500 * RETRY_DELAY settings
                * (Z.max 0 (RETRY_ATTEMPTS settings) * (Z.max 0 (RETRY_ATTEMPTS settings) + 1)).
Proof.
  refine (FetcherProperties.fetch_is_bounded settings rate_limiting api _
            "domestic/search" postcode_query 0).
  simpl. lia.
Defined.

End FetcherProperties.

(** ** More on the paginator *)

Module PaginatorProperties.

Import Py Pagination PaginationTerms PaginationScenarios FetchScenarios.

(** *** Dictionaries *)

Lemma key_eqb_refl k : key_eqb k k = true.
Proof.
  destruct k as [|[]|z|s]; cbn [key_eqb key_num]; try done;
    [apply Z.eqb_refl|apply String.eqb_refl].
Qed.

Lemma key_eqb_sym k1 k2 : key_eqb k1 k2 = key_eqb k2 k1.
Proof.
  destruct k1 as [|[]|z1|s1], k2 as [|[]|z2|s2]; cbn [key_eqb key_num]; try done;
    first [apply Z.eqb_sym|apply String.eqb_sym].
Qed.

Lemma key_eqb_trans k1 k2 k3 :
  key_eqb k1 k2 = true → key_eqb k2 k3 = true → key_eqb k1 k3 = true.
Proof.
  destruct k1 as [|[]|z1|s1], k2 as [|[]|z2|s2], k3 as [|[]|z3|s3];
    cbn [key_eqb key_num]; rewrite ?Z.eqb_eq, ?String.eqb_eq;
    try done; try congruence; try lia.
Qed.

Lemma dict_get_set_eq k v d : dict_get k (dict_set k v d) = Some v.
Proof.
  induction d as [|[k' v'] d IH]; simpl.
  - by rewrite key_eqb_refl.
  - destruct (key_eqb k' k) eqn:Hk; simpl; by rewrite Hk.
Qed.

Lemma dict_get_set_ne k k' v d :
  key_eqb k' k = false → dict_get k (dict_set k' v d) = dict_get k d.
Proof.
  intros Hne. induction d as [|[k0 v0] d IH]; simpl.
  - by rewrite Hne.
  - destruct (key_eqb k0 k') eqn:H0; simpl.
    + destruct (key_eqb k0 k) eqn:H1; [|done].
      rewrite key_eqb_sym in H0. by rewrite (key_eqb_trans _ _ _ H0 H1) in Hne.
    + by rewrite IH.
Qed.

Section Paginator.

Variable cfg : Config.
Variable upstream : server.
Variable base_url : string.
Variable endpoint : string.
Variable params : pydict.
Variable search_after_key : string.

Local Abbreviation _make_request := (_make_request cfg upstream base_url).
Local Abbreviation cycle := (cycle cfg upstream base_url endpoint params search_after_key).
Local Abbreviation paginate_from :=
  (paginate_from cfg upstream base_url endpoint params search_after_key).
Local Abbreviation paginate := (paginate cfg upstream base_url endpoint params search_after_key).
Local Abbreviation page_params := (page_params cfg params search_after_key).
Local Abbreviation request_of := (request_of cfg base_url endpoint).
Local Abbreviation well_formed := (well_formed cfg base_url endpoint params search_after_key).

(** *** What one fetch leaves in the trace *)

Lemma attempts_trace req remaining attempt n :
  let '(_, tr, _) := attempts cfg upstream req remaining attempt n in
  pages tr = [] ∧ Forall (fun r => r = req) (requests tr).
Proof.
  revert attempt n. induction remaining as [|remaining IH]; intros attempt n; [done|].
  assert (∀ seconds lg,
            let '(_, tr, _) :=
              sleep_then seconds [EGet req; ELog WARNING lg]
                (attempts cfg upstream req remaining (attempt + 1) (S n)) (S n) in
            pages tr = [] ∧ Forall (fun r => r = req) (requests tr)) as Hretry.
  { intros seconds lg. unfold sleep_then. destruct (seconds <? 0).
    - simpl. split; [done|]. by repeat constructor.
    - specialize (IH (attempt + 1) (S n)).
      destruct (attempts _ _ _ _ _ _) as [[r tr] n']. destruct IH as [Hp Hr].
      simpl. split; [done|]. by constructor. }
  cbn [attempts]. destruct (upstream n req) as [status text json|e].
  - destruct (status =? 200).
    + destruct json; [simpl; split; [done|by repeat constructor]|].
      destruct (attempt <? _); [apply Hretry|simpl; split; [done|by repeat constructor]].
    + destruct (status =? 429); [apply Hretry|simpl; split; [done|by repeat constructor]].
  - destruct (attempt <? _); [apply Hretry|simpl; split; [done|by repeat constructor]].
Qed.

Lemma make_request_trace query n :
  let '(_, tr, _) := _make_request endpoint query n in
  pages tr = [] ∧ Forall (fun r => r = request_of query) (requests tr).
Proof. apply attempts_trace. Qed.

(** *** One pass through the loop *)

(** A pass sends the requests of its fetch and no other; it yields no
    page and leaves the loop, or yields one page, the next by its number,
    with its length and the running total, and goes on only with a
    cursor. *)
Lemma cycle_cases st n :
  ∃ tr next,
    cycle st n = (tr, next) ∧
    requests tr = requests (snd (fst (_make_request endpoint (page_params st) n))) ∧
    ((pages tr = [] ∧ next = None) ∨
     (∃ batch size,
        pages tr = [page_of st batch size] ∧
        py_truthy batch = true ∧ py_len batch = Returned size ∧
        (next = None ∨
         ∃ token n', next = Some (after_page st token size, n') ∧
                     py_truthy token = true))).
Proof.
  unfold Pagination.cycle.
  pose proof (make_request_trace (page_params st) n) as Htrace.
  destruct (Pagination._make_request _ _ _ _ _ _) as [[fetched evs] n'].
  destruct Htrace as [Hno _]. cbn [fst snd].
  assert (∀ lvl lg, pages (evs ++ [ELog lvl lg]) = [] ∧
                    requests (evs ++ [ELog lvl lg]) = requests evs) as Hlog.
  { intros lvl lg. rewrite PaginationProofs.pages_app, PaginationProofs.requests_app, Hno.
    simpl. by rewrite app_nil_r. }
  destruct fetched as [response|e].
  2: { eexists _, _. split; [reflexivity|].
       destruct (Hlog ERROR (PageError (page_count st + 1) e)) as [-> ->].
       split; [done|by left]. }
  destruct (py_truthy response); simpl.
  2: { eexists _, _. split; [reflexivity|].
       destruct (Hlog WARNING (NoResponse (page_count st + 1))) as [-> ->].
       split; [done|by left]. }
  destruct (normalize response) as [batch|e].
  2: { eexists _, _. split; [reflexivity|].
       destruct (Hlog ERROR (PageError (page_count st + 1) e)) as [-> ->].
       split; [done|by left]. }
  destruct (py_truthy batch) eqn:Hbatch; simpl.
  2: { eexists _, _. split; [reflexivity|].
       destruct (Hlog INFO (NoMoreData (page_count st))) as [-> ->].
       split; [done|by left]. }
  destruct (py_len batch) as [size|e] eqn:Hlen.
  2: { eexists _, _. split; [reflexivity|].
       destruct (Hlog ERROR (PageError (page_count st + 1 + 1) e)) as [-> ->].
       split; [done|by left]. }
  destruct (py_get response "next-search-after" PNone) as [token|e].
  2: { eexists _, _. split; [reflexivity|].
       rewrite !PaginationProofs.pages_app, !PaginationProofs.requests_app, Hno.
       simpl. rewrite !app_nil_r.
       split; [done|]. right. exists batch, size. split_and!; try done. by left. }
  destruct (py_truthy token) eqn:Htoken; simpl.
  - eexists _, _. split; [reflexivity|].
    rewrite !PaginationProofs.pages_app, !PaginationProofs.requests_app, Hno.
    simpl. rewrite !app_nil_r.
    split; [done|]. right. exists batch, size. split_and!; try done.
    right. by exists token, n'.
  - eexists _, _. split; [reflexivity|].
    rewrite !PaginationProofs.pages_app, !PaginationProofs.requests_app, Hno.
    simpl. rewrite !app_nil_r.
    split; [done|]. right. exists batch, size. split_and!; try done. by left.
Qed.

Lemma cycle_requests st n :
  Forall (fun r => r = request_of (page_params st)) (requests (fst (cycle st n))).
Proof.
  destruct (cycle_cases st n) as (tr & next & Hcycle & Hreq & _).
  rewrite Hcycle. cbn [fst]. rewrite Hreq.
  pose proof (make_request_trace (page_params st) n) as Htrace.
  destruct (Pagination._make_request _ _ _ _ _ _) as [[fetched evs] n'].
  by destruct Htrace.
Qed.

(** *** Invariants of a session *)

Lemma page_params_well_formed st : well_formed (request_of (page_params st)).
Proof.
  unfold PaginationTerms.well_formed, Pagination.request_of, Pagination.page_params.
  cbn [url timeout query]. split_and!; try done.
  - apply dict_get_set_eq.
  - intros name Hsize Hkey.
    rewrite dict_get_set_ne by (apply PaginationProofs.key_eqb_str_ne; congruence).
    destruct (py_truthy (search_after st)); [|done].
    apply dict_get_set_ne. apply PaginationProofs.key_eqb_str_ne. congruence.
Qed.

Lemma numbered_app count total ps1 ps2 count' total' :
  numbered count total ps1 →
  count' = count + Z.of_nat (length ps1) →
  total' = match last ps1 with Some p => total_retrieved p | None => total end →
  numbered count' total' ps2 →
  numbered count total (ps1 ++ ps2).
Proof.
  revert count total. induction ps1 as [|p ps1 IH]; intros count total H1 -> -> H2.
  - simpl in *. by rewrite Z.add_0_r in H2.
  - destruct H1 as (Hn & Ht & Hl & Htot & H1). cbn [app numbered]. split_and!; try done.
    apply IH; [exact H1| | |exact H2].
    + cbn [length]. lia.
    + destruct ps1 as [|p' ps1]; [done|].
      change (last (p :: p' :: ps1)) with (last (p' :: ps1)).
      destruct (last (p' :: ps1)) eqn:Hlast; [done|]. by apply last_None in Hlast.
Qed.

Lemma paginate_from_invariant fuel st n :
  ∃ tr rest,
    paginate_from fuel st n = (tr, rest) ∧
    numbered (page_count st) (total_records st) (pages tr) ∧
    Forall well_formed (requests tr) ∧
    (∀ st' n', rest = Some (st', n') →
       page_count st' = page_count st + Z.of_nat (length (pages tr)) ∧
       total_records st'
       = match last (pages tr) with Some p => total_retrieved p | None => total_records st end).
Proof.
  revert st n. induction fuel as [|fuel IH]; intros st n.
  - eexists _, _. split; [reflexivity|]. simpl. split_and!; try done.
    intros st' n' [= <- <-]. split; [lia|done].
  - cbn [Pagination.paginate_from].
    pose proof (cycle_requests st n) as Hreq.
    destruct (cycle_cases st n) as (tr & next & Hcycle & _ & Hcases).
    rewrite Hcycle in Hreq |- *. cbn [fst] in Hreq.
    assert (Forall well_formed (requests tr)) as Hwf.
    { eapply Forall_impl; [exact Hreq|]. intros r ->. apply page_params_well_formed. }
    destruct Hcases as [[Hno ->]|(batch & size & Hpages & Ht & Hl & Hnext)].
    + eexists _, _. split; [reflexivity|]. rewrite Hno. by split_and!.
    + assert (numbered (page_count st) (total_records st) [page_of st batch size]) as Hone.
      { simpl. by split_and!. }
      destruct Hnext as [->|(token & n' & -> & Htoken)].
      * eexists _, _. split; [reflexivity|]. rewrite Hpages. by split_and!.
      * destruct (IH (after_page st token size) n') as (tr' & rest & -> & Hnum & Hwf' & Hrest).
        eexists _, _. split; [reflexivity|].
        rewrite PaginationProofs.pages_app, PaginationProofs.requests_app, Hpages. split_and!.
        -- eapply numbered_app; [exact Hone|reflexivity|reflexivity|]. exact Hnum.
        -- by apply Forall_app.
        -- intros st' n'' Heq. destruct (Hrest st' n'' Heq) as [Hc Htot].
           rewrite Hc, Htot. cbn [after_page page_count total_records app length].
           split; [lia|]. destruct (pages tr') as [|p' ps']; [done|].
           change (last (page_of st batch size :: p' :: ps')) with (last (p' :: ps')).
           destruct (last (p' :: ps')) eqn:Hlast; [done|]. by apply last_None in Hlast.
Qed.

(** X4.  However long the generator is drained and whatever the upstream
    answers, the pages yielded are numbered 1, 2, 3, ... without gap,
    each carries a non-empty batch, its [page_size] is the length of that
    batch, and its [total_retrieved] is the sum of the sizes of the pages
    up to it. *)
Theorem pages_are_numbered fuel n :
  numbered 0 0 (pages (fst (paginate fuel n))).
Proof.
  unfold Pagination.paginate.
  destruct (paginate_from_invariant fuel initial n) as (tr & rest & -> & Hnum & _).
  exact Hnum.
Qed.

(** X5.  Every request a pagination sends goes to [base_url/endpoint]
    with the configured timeout and [size = PAGE_SIZE], and carries every
    parameter of the caller other than [size] and the cursor key
    unchanged: a [size] given by the caller is overridden, and retries
    and later pages do not alter the caller's parameters. *)
Theorem requests_are_well_formed fuel n :
  Forall well_formed (requests (fst (paginate fuel n))).
Proof.
  unfold Pagination.paginate.
  destruct (paginate_from_invariant fuel initial n) as (tr & rest & -> & _ & Hwf & _).
  exact Hwf.
Qed.

(** *** The cursor *)

Lemma attempts_send_first req remaining attempt n :
  ∃ more, requests (snd (fst (attempts cfg upstream req (S remaining) attempt n)))
          = req :: more.
Proof.
  cbn [attempts]. unfold sleep_then.
  destruct (upstream n req) as [status text json|e].
  - destruct (status =? 200).
    + destruct json; [by eexists|].
      destruct (attempt <? _); [|by eexists].
      destruct (_ <? 0); [by eexists|].
      destruct (attempts _ _ _ _ _ _) as [[r tr] n']. by eexists.
    + destruct (status =? 429); [|by eexists].
      destruct (_ <? 0); [by eexists|].
      destruct (attempts _ _ _ _ _ _) as [[r tr] n']. by eexists.
  - destruct (attempt <? _); [|by eexists].
    destruct (_ <? 0); [by eexists|].
    destruct (attempts _ _ _ _ _ _) as [[r tr] n']. by eexists.
Qed.

Lemma cycle_sends_first st n :
  0 < RETRY_ATTEMPTS cfg →
  ∃ more, requests (fst (cycle st n)) = request_of (page_params st) :: more ∧
          Forall (fun r => r = request_of (page_params st)) more.
Proof.
  intros Hsome. pose proof (cycle_requests st n) as Hall.
  destruct (cycle_cases st n) as (tr & next & Hcycle & Hreq & _).
  rewrite Hcycle in Hall |- *. cbn [fst] in Hall |- *.
  unfold Pagination._make_request in Hreq.
  destruct (Z.to_nat (RETRY_ATTEMPTS cfg)) as [|k] eqn:Hk; [lia|].
  destruct (attempts_send_first (request_of (page_params st)) k 0 n) as [more Hmore].
  unfold Pagination.request_of in Hmore. rewrite Hmore in Hreq.
  rewrite Hreq in Hall |- *. exists more. split; [done|].
  by apply Forall_cons in Hall as [_ ?].
Qed.

(** X6.  When a response carries a non-empty batch and a truthy cursor,
    the next request the session sends carries that cursor under
    [search_after_key], together with [size = PAGE_SIZE]; the request
    before it is the one of the current locals, and any further request
    of that pass is a retry of the same request. *)
Theorem cursor_goes_into_next_request st n body batch size :
  0 < RETRY_ATTEMPTS cfg →
  search_after_key ≠ "size" →
  answers upstream n body → carries body batch size → py_truthy (cursor body) = true →
  ∃ r more,
    requests (fst (paginate_from 2 st n)) = request_of (page_params st) :: r :: more ∧
    dict_get (KStr search_after_key) (query r) = Some (cursor body) ∧
    dict_get (KStr "size") (query r) = Some (PInt (PAGE_SIZE cfg)) ∧
    Forall (fun r' => r' = r) more.
Proof.
  intros Hsome Hkey Hans Hc Hcur.
  cbn [Pagination.paginate_from].
  rewrite (PaginationProofs.cycle_more cfg upstream base_url endpoint params search_after_key
             Hsome st n body batch size Hans Hc Hcur).
  destruct (cycle_sends_first (after_page st (cursor body) size) (S n) Hsome)
    as (more & Hreq & Hall).
  destruct (cycle (after_page st (cursor body) size) (S n)) as [tr [[st' n']|]];
    simpl in Hreq.
  - eexists _, more. cbn [fst app requests]. rewrite app_nil_r, Hreq.
    split; [reflexivity|]. split; [|split; [|exact Hall]].
    + unfold Pagination.page_params.
      cbn [query Pagination.request_of after_page search_after]. rewrite Hcur.
      rewrite dict_get_set_ne by (apply PaginationProofs.key_eqb_str_ne; congruence).
      apply dict_get_set_eq.
    + apply dict_get_set_eq.
  - eexists _, more. cbn [fst app requests]. rewrite Hreq.
    split; [reflexivity|]. split; [|split; [|exact Hall]].
    + unfold Pagination.page_params.
      cbn [query Pagination.request_of after_page search_after]. rewrite Hcur.
      rewrite dict_get_set_ne by (apply PaginationProofs.key_eqb_str_ne; congruence).
      apply dict_get_set_eq.
    + apply dict_get_set_eq.
Qed.

(** *** Bodies that are not what the loop expects *)

Lemma make_request_returns query n value :
  0 < RETRY_ATTEMPTS cfg →
  (∀ req, ∃ text, upstream n req = Response 200 text (Some value)) →
  _make_request endpoint query n = (Returned value, [EGet (request_of query)], S n).
Proof.
  intros Hsome Hans. unfold Pagination._make_request.
  destruct (Z.to_nat (RETRY_ATTEMPTS cfg)) as [|k] eqn:Hk; [lia|].
  destruct (Hans (request_of query)) as [text Hup].
  cbn [attempts]. fold (request_of query). by rewrite Hup.
Qed.

(** X7.  When the body of a 200 response is JSON but not an object (a
    list, a string, a number, [true], [null]), the pass sends its one
    request, logs one line, yields nothing, and ends the session: no
    exception reaches the consumer. *)
Theorem body_that_is_no_object_ends_session st n value :
  0 < RETRY_ATTEMPTS cfg →
  (∀ req, ∃ text, upstream n req = Response 200 text (Some value)) →
  (∀ d, value ≠ PDict d) →
  ∃ lvl record,
    cycle st n = ([EGet (request_of (page_params st)); ELog lvl record], None).
Proof.
  intros Hsome Hans Hobject. unfold Pagination.cycle.
  rewrite (make_request_returns _ _ _ Hsome Hans).
  destruct value as [|b|z|s|l|d]; try (by destruct (Hobject d)).
  - simpl. by eauto.
  - destruct b; simpl; by eauto.
  - simpl. destruct (z =? 0); simpl; by eauto.
  - destruct (py_truthy (PStr s)); [|simpl; by eauto].
    unfold normalize. cbn [negb py_in mbind exec_bind].
    destruct (is_substring "data" s); [simpl; by eauto|].
    destruct (is_substring "rows" s); [|simpl; by eauto].
    destruct (is_substring "column-names" s); simpl; by eauto.
  - destruct (py_truthy (PList l)); [|simpl; by eauto].
    unfold normalize. cbn [negb py_in mbind exec_bind].
    destruct (existsb _ l); [simpl; by eauto|].
    destruct (existsb _ l); [|simpl; by eauto].
    destruct (existsb _ l); simpl; by eauto.
Qed.

Lemma dict_zip_raises columns row e : dict_zip columns row = Raised e → e = TypeError.
Proof.
  unfold dict_zip.
  assert (∀ ps acc, dict_of_pairs ps acc = Raised e → e = TypeError) as Hpairs.
  { induction ps as [|[k v] ps IH]; intros acc; [done|]. simpl.
    destruct k; simpl; try apply IH; by intros [= <-]. }
  destruct columns, row; simpl; try (by intros [= <-]); apply Hpairs.
Qed.

Lemma comprehension_bad_row columns rows row :
  row ∈ rows → not_iterable row = true →
  comprehension (fun row => d ← dict_zip columns row; Returned (PDict d)) rows
  = Raised TypeError.
Proof.
  intros Hin Hbad. induction rows as [|r rows IH]; [by apply elem_of_nil in Hin|].
  cbn [comprehension].
  apply elem_of_cons in Hin as [<-|Hin].
  - assert (dict_zip columns row = Raised TypeError) as ->; [|done].
    unfold dict_zip. destruct (py_iter columns) as [cs|e] eqn:Hcs; simpl.
    + destruct row; simpl in *; done.
    + destruct columns; simpl in Hcs; try discriminate; by injection Hcs as <-.
  - destruct (dict_zip columns r) as [d|e] eqn:Hzip; simpl.
    + by rewrite (IH Hin).
    + by rewrite (dict_zip_raises _ _ _ Hzip).
Qed.

(** X9.  When a columnar response (no [data], with [column-names] and
    [rows]) has a row that is not iterable, the comprehension raises
    [TypeError]: the whole page is lost, not only that row; the error is
    logged for page [page_count + 1] and the session ends. *)
Theorem malformed_row_loses_the_page st n body columns rows row :
  0 < RETRY_ATTEMPTS cfg →
  answers upstream n body →
  dict_get (KStr "data") body = None →
  dict_get (KStr "column-names") body = Some columns →
  dict_get (KStr "rows") body = Some (PList rows) →
  row ∈ rows → not_iterable row = true →
  cycle st n
  = ([EGet (request_of (page_params st));
      ELog ERROR (PageError (page_count st + 1) TypeError)],
     None).
Proof.
  intros Hsome Hans Hdata Hcolumns Hrows Hin Hbad. unfold Pagination.cycle.
  rewrite (PaginationProofs.make_request_answered cfg upstream base_url endpoint Hsome
             _ _ _ Hans).
  assert (py_truthy (PDict body) = true) as -> by (by destruct body).
  rewrite (PaginationProofs.normalize_columnar _ _ _ Hdata Hcolumns Hrows).
  cbn [py_iter mbind exec_bind]. by rewrite (comprehension_bad_row _ _ _ Hin Hbad).
Qed.

End Paginator.

(** *** Zipping *)

Lemma fold_zip_lookup name pairs acc :
  dict_get (KStr name)
    (fold_left (fun acc kv => dict_set (KStr (fst kv)) (snd kv) acc) pairs acc)
  = match last (filter (fun kv : string * pyval => fst kv = name) pairs) with
    | Some kv => Some (snd kv)
    | None => dict_get (KStr name) acc
    end.
Proof.
  revert acc. induction pairs as [|[k v] pairs IH]; intros acc; [done|].
  cbn [fold_left fst snd]. rewrite IH, filter_cons. cbn [fst].
  destruct (decide (k = name)) as [->|Hne].
  - destruct (filter _ pairs) as [|kv rest] eqn:Hf.
    + simpl. apply dict_get_set_eq.
    + change (last ((name, v) :: kv :: rest)) with (last (kv :: rest)).
      destruct (last (kv :: rest)) eqn:Hlast; [done|]. by apply last_None in Hlast.
  - destruct (last (filter _ pairs)); [done|].
    apply dict_get_set_ne. by apply PaginationProofs.key_eqb_str_ne.
Qed.

(** X8.  The record [dict(zip(columns, row))] for column names that are
    strings: the value under a name is the value at the last position
    where that name occurs among the first [min (len columns) (len row)]
    columns, a name that does not occur there is absent, and the record
    has at most that many fields. *)
Theorem zipped_record_lookup names values record name :
  dict_zip (PList (map PStr names)) (PList values) = Returned record →
  dict_get (KStr name) record
  = snd <$> last (filter (fun kv : string * pyval => fst kv = name) (combine names values)) ∧
  (length record <= Nat.min (length names) (length values))%nat.
Proof.
  rewrite PaginationProofs.dict_zip_names. intros [= <-]. unfold zip_mapping. split.
  - rewrite fold_zip_lookup. by destruct (last _).
  - assert (∀ pairs acc,
              (length (fold_left (fun acc kv => dict_set (KStr (fst kv)) (snd kv) acc)
                         pairs acc)
               <= length acc + length pairs)%nat) as Hlen.
    { induction pairs as [|[k v] pairs IH]; intros acc; [simpl; lia|].
      cbn [fold_left length]. etrans; [apply IH|].
      assert (∀ k v d, (length (dict_set k v d) <= S (length d))%nat) as Hset.
      { clear. intros k v d. induction d as [|[k' v'] d IH]; simpl; [lia|].
        destruct (key_eqb k' k); simpl; lia. }
      specialize (Hset (KStr (fst (k, v))) (snd (k, v)) acc). lia. }
    etrans; [apply Hlen|]. simpl. by rewrite length_combine.
Qed.

Lemma cursor_goes_into_next_request_witness :
  ∃ r more,
    requests (fst (paginate_from settings endless api "domestic/search" postcode_query
                     "search-after" 2 initial 0))
    = request_of settings api "domestic/search"
        (page_params settings postcode_query "search-after" initial) :: r :: more ∧
    dict_get (KStr "search-after") (query r) = Some (cursor page_with_cursor) ∧
    dict_get (KStr "size") (query r) = Some (PInt (PAGE_SIZE settings)) ∧
    Forall (fun r' => r' = r) more.
Proof.
  refine (PaginatorProperties.cursor_goes_into_next_request settings endless api
            "domestic/search" postcode_query "search-after" initial 0 page_with_cursor
            (PList [certificate "k1"]) 1 _ _ _ _ _).
  - simpl. lia.
  - discriminate.
  - intros req. exists "". reflexivity.
  - repeat split; reflexivity.
  - reflexivity.
Defined.

Lemma body_that_is_no_object_ends_session_witness :
  ∃ lvl record,
    cycle settings (always (Response 200 "[1]" (Some (PList [PInt 1])))) api
          "domestic/search" postcode_query "search-after" initial 0
    = ([EGet (request_of settings api "domestic/search"
                (page_params settings postcode_query "search-after" initial));
        ELog lvl record], None).
Proof.
  refine (PaginatorProperties.body_that_is_no_object_ends_session settings
            (always (Response 200 "[1]" (Some (PList [PInt 1])))) api
            "domestic/search" postcode_query "search-after" initial 0 (PList [PInt 1]) _ _ _).
  - simpl. lia.
  - intros req. exists "[1]". reflexivity.
  - intros d. discriminate.
Defined.

Lemma malformed_row_loses_the_page_witness :
  cycle settings (always (Response 200 "" (Some (PDict columnar_with_bad_row)))) api
        "domestic/search" postcode_query "search-after" initial 0
  = ([EGet (request_of settings api "domestic/search"
              (page_params settings postcode_query "search-after" initial));
      ELog ERROR (PageError (page_count initial + 1) TypeError)],
     None).
Proof.
  refine (PaginatorProperties.malformed_row_loses_the_page settings
            (always (Response 200 "" (Some (PDict columnar_with_bad_row)))) api
            "domestic/search" postcode_query "search-after" initial 0
            columnar_with_bad_row (PList [PStr "lmk-key"]) [PList [PStr "k1"]; PInt 7]
            (PInt 7) _ _ _ _ _ _ _).
  - simpl. lia.
  - intros req. exists "". reflexivity.
  - reflexivity.
  - reflexivity.
  - reflexivity.
  - right. left.
  - reflexivity.
Defined.

Lemma zipped_record_lookup_witness :
  let names := ["lmk-key"; "postcode"; "lmk-key"; "uprn"] in
  let values := [PStr "k1"; PStr "SW1A 1AA"; PStr "k2"] in
  let record := [(KStr "lmk-key", PStr "k2"); (KStr "postcode", PStr "SW1A 1AA")] in
  dict_get (KStr "lmk-key") record
  = snd <$> last (filter (fun kv : string * pyval => fst kv = "lmk-key")
                    (combine names values)) ∧
  (length record <= Nat.min (length names) (length values))%nat.
Proof.
  intros names values record.
  refine (PaginatorProperties.zipped_record_lookup names values record "lmk-key" _).
  reflexivity.
Defined.

End PaginatorProperties.

(** ** The searches of the client *)

Module ClientProperties.

Import Py Pagination PaginationTerms PaginationScenarios FetchScenarios Client.

Lemma extend_all_lists (batches : list (list pyval)) (ps : list page) :
  map data ps = map PList batches → extend_all ps = Returned (concat batches).
Proof.
  revert batches. induction ps as [|p ps IH]; intros [|batch batches] Heq; try done.
  injection Heq as Hp Hps. cbn [extend_all]. rewrite Hp. simpl. by rewrite (IH _ Hps).
Qed.

Section EPCClient.

Variable cfg : Config.
Variable upstream : server.
Variable base_url : string.
Variable endpoint : string.
Variable params : pydict.

Local Abbreviation paginate := (paginate cfg upstream base_url endpoint params "search-after").
Local Abbreviation paginate_from :=
  (paginate_from cfg upstream base_url endpoint params "search-after").
Local Abbreviation cycle := (cycle cfg upstream base_url endpoint params "search-after").
Local Abbreviation leads := (leads cfg upstream base_url endpoint).
Local Abbreviation fetches := (fetches cfg upstream base_url endpoint).
Local Abbreviation fetch_fails := (fetch_fails cfg upstream base_url endpoint).
Local Abbreviation _search := (_search cfg upstream base_url endpoint params).

(** The session up to its last pass. *)
Lemma paginate_then bodies batches n n_end :
  leads n bodies batches n_end →
  ∃ tr st',
    map data (pages tr) = batches ∧
    paginate (S (length bodies)) n
    = let '(tr', rest) := paginate_from 1 st' n_end in (tr ++ tr', rest).
Proof.
  intros Hl.
  destruct (PaginationProofs.paginate_from_leads cfg upstream base_url endpoint params
              "search-after" _ _ initial _ _ Hl) as (tr & st' & Hrun & Hdata & _).
  exists tr, st'. split; [done|]. unfold Pagination.paginate.
  replace (S (length bodies)) with (length bodies + 1)%nat by lia.
  by rewrite PaginationProofs.paginate_from_add, Hrun.
Qed.

Lemma search_finished fuel n tr (batches : list (list pyval)) :
  paginate fuel n = (tr, None) →
  map data (pages tr) = map PList batches →
  ∃ lg, _search fuel n = Some (Returned (concat batches), tr, lg).
Proof.
  intros Hrun Hdata. pose proof (extend_all_lists _ _ Hdata) as Hall.
  unfold Client._search. rewrite Hrun. cbv zeta.
  destruct (pages tr) as [|p ps] eqn:Hp.
  - destruct batches; [|done]. by eexists.
  - rewrite Hall. destruct (concat batches); by eexists.
Qed.

(** X10.  When the fetches of a search return pages with cursors and then
    a page without, [_search] terminates and returns the records of all
    the pages, in order: the concatenation of the batches. *)
Theorem search_returns_all_pages (batches : list (list pyval)) last_batch
    bodies body size n n_end n' :
  leads n bodies (map PList batches) n_end →
  fetches n_end body n' → carries body (PList last_batch) size →
  py_truthy (cursor body) = false →
  ∃ tr lg,
    _search (S (length bodies)) n
    = Some (Returned (concat batches ++ last_batch), tr, lg).
Proof.
  intros Hl Hfetch Hc Hcur.
  destruct (paginate_then _ _ _ _ Hl) as (tr & st' & Hdata & Hrun).
  cbn [Pagination.paginate_from] in Hrun.
  destruct (Hfetch (page_params cfg params "search-after" st')) as [evs Hreq].
  pose proof (PaginationProofs.make_request_no_yield cfg upstream base_url endpoint
                (page_params cfg params "search-after" st') n_end) as Hno.
  rewrite Hreq in Hno. simpl in Hno.
  rewrite (PaginationProofs.cycle_page cfg upstream base_url endpoint params "search-after"
             _ _ _ _ _ _ _ Hreq Hc), Hcur in Hrun.
  cbv beta iota zeta in Hrun.
  destruct (search_finished _ _ _ (batches ++ [last_batch]) Hrun) as [lg Hsearch].
  - rewrite !PaginationProofs.pages_app, Hno, !map_app, Hdata. by simpl.
  - rewrite concat_app in Hsearch. simpl in Hsearch. rewrite app_nil_r in Hsearch.
    by eauto.
Qed.

(** X11.  When, after some pages, a fetch fails (the fetcher returns
    [None] or a falsy body) or a response carries no record, [_search]
    returns the records of the pages before as an ordinary result: the
    caller gets no exception and nothing in the result tells a failure
    from the end of the data. *)
Theorem failed_search_looks_like_exhausted_search (batches : list (list pyval))
    bodies n n_end :
  leads n bodies (map PList batches) n_end →
  (fetch_fails n_end →
     ∃ tr lg, _search (S (length bodies)) n = Some (Returned (concat batches), tr, lg)) ∧
  (∀ body n', fetches n_end body n' → carries_nothing body →
     ∃ tr lg, _search (S (length bodies)) n = Some (Returned (concat batches), tr, lg)).
Proof.
  intros Hl.
  destruct (paginate_then _ _ _ _ Hl) as (tr & st' & Hdata & Hrun).
  cbn [Pagination.paginate_from] in Hrun. split.
  - intros Hfail.
    destruct (PaginationProofs.cycle_fetch_fails cfg upstream base_url endpoint params
                "search-after" st' _ Hfail) as (evs & Hcycle & Hno).
    rewrite Hcycle in Hrun.
    destruct (search_finished _ _ _ batches Hrun) as [lg Hsearch]; [|by eauto].
    rewrite !PaginationProofs.pages_app, Hno. simpl. by rewrite app_nil_r.
  - intros body n' Hfetch Hnothing.
    destruct (PaginationProofs.cycle_empty cfg upstream base_url endpoint params
                "search-after" st' _ _ _ Hfetch Hnothing) as (evs & lvl & record & Hcycle & Hno).
    rewrite Hcycle in Hrun.
    destruct (search_finished _ _ _ batches Hrun) as [lg Hsearch]; [|by eauto].
    rewrite !PaginationProofs.pages_app, Hno. simpl. by rewrite app_nil_r.
Qed.

End EPCClient.

Lemma dict_update_lookup_last d k v more :
  (∀ kv, kv ∈ more → key_eqb (fst kv) k = false) →
  dict_get k (dict_update d ((k, v) :: more)) = Some v.
Proof.
  unfold dict_update. cbn [fold_left fst snd].
  generalize (dict_set k v d) (PaginatorProperties.dict_get_set_eq k v d).
  induction more as [|[k' v'] more IH]; intros acc Hacc Hne; [done|].
  cbn [fold_left fst snd]. apply IH.
  - rewrite PaginatorProperties.dict_get_set_ne; [done|]. apply (Hne (k', v')). left.
  - intros kv Hkv. apply Hne. by right.
Qed.

(** X12.  Every request that [search_agricultural_buildings] sends goes
    to [non-domestic/search] with [property-type = Other],
    [built-form = Detached] and [size = PAGE_SIZE], whatever the local
    authority and the postcode are, and whether or not the search ever
    returns: it holds of the requests sent in any number of passes of
    the pagination, which are all the requests of a search that
    returns. *)
Theorem agricultural_search_is_filtered cfg upstream base_url local_authority postcode
    fuel n :
  let session :=
    paginate cfg upstream base_url "non-domestic/search"
      (agricultural_filters local_authority postcode) "search-after" fuel n in
  Forall (fun r =>
            url r = base_url +:+ "/non-domestic/search" ∧
            dict_get (KStr "property-type") (query r) = Some (PStr "Other") ∧
            dict_get (KStr "built-form") (query r) = Some (PStr "Detached") ∧
            dict_get (KStr "size") (query r) = Some (PInt (PAGE_SIZE cfg)))
         (requests (fst session)) ∧
  ∀ result tr lg,
    search_agricultural_buildings cfg upstream base_url local_authority postcode fuel n
      = Some (result, tr, lg) →
    tr = fst session.
Proof.
  intros session. subst session.
  unfold search_agricultural_buildings, search_non_domestic, _search.
  pose proof (PaginatorProperties.paginate_from_invariant cfg upstream base_url
                "non-domestic/search" (agricultural_filters local_authority postcode)
                "search-after" fuel initial n) as (tr' & rest & Hrun & _ & Hwf & _).
  unfold paginate. rewrite Hrun. cbv zeta. cbn [fst]. split.
  - eapply Forall_impl; [exact Hwf|].
    intros r (Hurl & _ & Hsize & Hother). split_and!; try done.
    + rewrite Hother by done. unfold agricultural_filters.
      apply dict_update_lookup_last. intros kv [->|Hkv%elem_of_nil]%elem_of_cons; done.
    + rewrite Hother by done. unfold agricultural_filters, dict_update.
      cbn [fold_left fst snd]. apply PaginatorProperties.dict_get_set_eq.
  - intros result tr lg Hsearch.
    destruct rest; [done|]. destruct (pages tr'); [by injection Hsearch as _ <- _|].
    destruct (extend_all _) as [[|]|]; by injection Hsearch as _ <- _.
Qed.

Lemma search_returns_all_pages_witness :
  ∃ tr lg,
    _search settings two_pages_after_rate_limit api "domestic/search" postcode_query
            (S (length [page_with_cursor])) 0
    = Some (Returned (concat [[certificate "k1"]] ++ [certificate "k2"]), tr, lg).
Proof.
  assert (leads settings two_pages_after_rate_limit api "domestic/search" 0
            [page_with_cursor] (map PList [[certificate "k1"]]) 2) as Hleads.
  { exists 2%nat, 1. split_and!.
    - intros query. eexists. reflexivity.
    - repeat split; reflexivity.
    - reflexivity.
    - reflexivity. }
  refine (ClientProperties.search_returns_all_pages settings two_pages_after_rate_limit api
            "domestic/search" postcode_query [[certificate "k1"]] [certificate "k2"]
            [page_with_cursor] last_page 1 0 2 3 Hleads _ _ _).
  - intros query. eexists. reflexivity.
  - repeat split; reflexivity.
  - reflexivity.
Defined.

Lemma failed_search_looks_like_exhausted_search_witness :
  ∃ tr lg,
    _search settings page_then_unavailable api "domestic/search" postcode_query
            (S (length [page_with_cursor])) 0
    = Some (Returned (concat [[certificate "k1"]]), tr, lg).
Proof.
  assert (leads settings page_then_unavailable api "domestic/search" 0
            [page_with_cursor] (map PList [[certificate "k1"]]) 1) as Hleads.
  { exists 1%nat, 1. split_and!.
    - intros query. eexists. reflexivity.
    - repeat split; reflexivity.
    - reflexivity.
    - reflexivity. }
  refine (proj1 (ClientProperties.failed_search_looks_like_exhausted_search settings
                   page_then_unavailable api "domestic/search" postcode_query
                   [[certificate "k1"]] [page_with_cursor] 0 1 Hleads) _).
  intros query. eexists _, _, _. split; reflexivity.
Defined.

(** Against a service that always answers with a cursor the search never
    returns, and the requests of its first two passes are filtered. *)
Lemma agricultural_search_is_filtered_witness :
  let filters :=
    [(KStr "local-authority", PStr "E07000044"); (KStr "property-type", PStr "Other");
     (KStr "built-form", PStr "Detached")] in
  search_agricultural_buildings settings endless api (PStr "E07000044") PNone 2 0 = None ∧
  Forall (fun r =>
            url r = api +:+ "/non-domestic/search" ∧
            dict_get (KStr "property-type") (query r) = Some (PStr "Other") ∧
            dict_get (KStr "built-form") (query r) = Some (PStr "Detached") ∧
            dict_get (KStr "size") (query r) = Some (PInt (PAGE_SIZE settings)))
         [{| url := api +:+ "/non-domestic/search";
             query := filters ++ [(KStr "size", PInt 5000)]; timeout := 30 |};
          {| url := api +:+ "/non-domestic/search";
             query := filters ++ [(KStr "search-after", PStr "k1"); (KStr "size", PInt 5000)];
             timeout := 30 |}].
Proof.
  intros filters. split; [reflexivity|].
  exact (proj1 (ClientProperties.agricultural_search_is_filtered settings endless api
                  (PStr "E07000044") PNone 2 0)).
Defined.

End ClientProperties.

(** ** Further properties of the cache *)

Module CacheProperties.

Import Py Datetime Database DatabaseScenarios CacheStatistics CacheScenarios.

(** *** Reads *)

Lemma elem_of_filter_keys key :
  key ∈ filter_keys ↔ key = "postcode" ∨ key = "local-authority" ∨ key = "uprn".
Proof.
  unfold filter_keys. rewrite !elem_of_cons, elem_of_nil. tauto.
Qed.

Lemma bindable_text key s : bindable {[ key := CStr s ]}.
Proof.
  intros k c _ Hc. apply lookup_singleton_Some in Hc as [_ <-]. by eexists.
Qed.

Lemma fetchall_cases keep rows :
  (∀ kv, kv ∈ rows → keep (snd kv) = Returned true ∨ keep (snd kv) = Returned false ∨
                     keep (snd kv) = Raised OperationalError) →
  (∃ results,
     fetchall keep rows = Returned results ∧
     (∀ kv, kv ∈ rows → keep (snd kv) ≠ Raised OperationalError) ∧
     (∀ t, t ∈ results ↔ ∃ kv, kv ∈ rows ∧ keep (snd kv) = Returned true ∧ data (snd kv) = t)) ∨
  (fetchall keep rows = Raised OperationalError ∧
   ∃ kv, kv ∈ rows ∧ keep (snd kv) = Raised OperationalError).
Proof.
  induction rows as [|[id row] rows IH]; intros Hkeep.
  - left. exists []. split_and!; [done|by intros ? ?%elem_of_nil|].
    intros t. split; [by intros ?%elem_of_nil|]. by intros (? & ?%elem_of_nil & _).
  - cbn [fetchall].
    destruct (Hkeep (id, row) ltac:(left)) as [Hk|[Hk|Hk]]; simpl in Hk; rewrite Hk; simpl.
    + destruct IH as [(results & -> & Hno & Hin)|(-> & kv & Hkv & Hraise)].
      * intros kv Hkv. apply Hkeep. by right.
      * left. exists (data row :: results). split_and!; [done| |].
        -- intros kv [->|Hkv]%elem_of_cons; [simpl; by rewrite Hk|by apply Hno].
        -- intros t. rewrite elem_of_cons, Hin. split.
           ++ intros [->|(kv & Hkv & ? & ?)].
              ** exists (id, row). split_and!; [left|done|done].
              ** exists kv. split_and!; [by right|done|done].
           ++ intros (kv & [->|Hkv]%elem_of_cons & Hkv' & <-); [by left|].
              right. by exists kv.
      * right. split; [done|]. exists kv. split; [by right|done].
    + destruct IH as [(results & -> & Hno & Hin)|(-> & kv & Hkv & Hraise)].
      * intros kv Hkv. apply Hkeep. by right.
      * left. exists results. split_and!; [done| |].
        -- intros kv [->|Hkv]%elem_of_cons; [simpl; by rewrite Hk|by apply Hno].
        -- intros t. rewrite Hin. split.
           ++ intros (kv & Hkv & ? & ?). exists kv. split_and!; [by right|done|done].
           ++ intros (kv & [->|Hkv]%elem_of_cons & Hkv' & <-).
              ** simpl in Hkv'. by rewrite Hk in Hkv'.
              ** by exists kv.
      * right. split; [done|]. exists kv. split; [by right|done].
    + right. split; [done|]. exists (id, row). split; [left|done].
Qed.

(** The decoding loop raises [TypeError] when a number is among the
    values, and returns the fields of the objects otherwise. *)
Lemma decoded_cases results :
  (Number ∈ results ∧ decoded results = Raised TypeError) ∨
  ((Number ∉ results) ∧
   ∃ ds, decoded results = Returned ds ∧ ∀ d, d ∈ ds ↔ JsonObject d ∈ results).
Proof.
  induction results as [|[d'| |] results IH]; cbn [decoded json_loads].
  - right. split; [by intros ?%elem_of_nil|]. exists []. split; [done|].
    intros d. split; by intros ?%elem_of_nil.
  - destruct IH as [[Hin ->]|(Hno & ds & -> & Hds)].
    + left. split; [by right|done].
    + right. split; [by intros [?|?]%elem_of_cons|]. exists (d' :: ds). split; [done|].
      intros d. rewrite !elem_of_cons, Hds. split; (intros [?|?]; [left|by right]); congruence.
  - destruct IH as [[Hin ->]|(Hno & ds & -> & Hds)].
    + left. split; [by right|done].
    + right. split; [by intros [?|?]%elem_of_cons|]. exists ds. split; [done|].
      intros d. rewrite elem_of_cons, Hds. split; [by right|]. by intros [?|?].
  - left. split; [left|done].
Qed.

Lemma filter_holds_cases json5 v key bound :
  filter_holds json5 v key bound
  = match bound with
    | None => Returned true
    | Some b =>
        if unreadable json5 v then Raised OperationalError
        else Returned match json_extract json5 v key with
                      | Returned x => sql_eq x b
                      | Raised _ => false
                      end
    end.
Proof.
  destruct bound as [b|]; [|done]. destruct v as [d| |]; simpl; [|done..].
  by destruct (negb json5 && has_nan d).
Qed.

Lemma selected_cases json5 pt cutoff postcode authority uprn row :
  selected json5 pt cutoff postcode authority uprn row = Returned true ∨
  selected json5 pt cutoff postcode authority uprn row = Returned false ∨
  selected json5 pt cutoff postcode authority uprn row = Raised OperationalError.
Proof.
  unfold selected. destruct (_ && _); [|by right; left].
  rewrite !filter_holds_cases.
  destruct (unreadable json5 (data row)), postcode, authority, uprn; simpl;
    repeat match goal with |- context [if ?b then _ else _] => destruct b; simpl end;
    auto;
    match goal with |- context [Returned ?b] => destruct b; auto end.
Qed.

Lemma selected_true json5 pt cutoff postcode authority uprn row :
  selected json5 pt cutoff postcode authority uprn row = Returned true ↔
  property_type row = pt ∧ text_gt (cached_at row) cutoff = true ∧
  filter_holds json5 (data row) "postcode" postcode = Returned true ∧
  filter_holds json5 (data row) "local-authority" authority = Returned true ∧
  filter_holds json5 (data row) "uprn" uprn = Returned true.
Proof.
  unfold selected. split.
  - destruct (String.eqb _ _) eqn:Hpt; [|done]. apply String.eqb_eq in Hpt.
    destruct (text_gt _ _); [|done]. simpl.
    destruct (filter_holds _ _ "postcode" _) as [[]|]; simpl; try done.
    destruct (filter_holds _ _ "local-authority" _) as [[]|]; simpl; try done.
  - intros (<- & -> & -> & -> & ->). by rewrite String.eqb_refl.
Qed.




Lemma bind_filter_bindable filters key :
  bindable filters → key ∈ filter_keys →
  ∃ bound, bind_filter filters key = Returned bound ∧
           (bound = None ↔ filters !! key = None) ∧
           (∀ v, bound = Some v → ∃ c, filters !! key = Some c ∧ bind c = Returned v).
Proof.
  intros Hbind Hkey. unfold bind_filter.
  destruct (filters !! key) as [c|] eqn:Hc.
  - destruct (Hbind key c Hkey Hc) as [v Hv]. rewrite Hv. exists (Some v). simpl.
    split_and!; [done|done|]. intros ? [= <-]. by exists c.
  - exists None. split_and!; done.
Qed.

Lemma filter_holds_satisfies json5 filters d key bound :
  bind_filter filters key = Returned bound →
  filter_holds json5 (JsonObject d) key bound = Returned true ↔ satisfies json5 filters d key.
Proof.
  unfold bind_filter, satisfies. destruct (filters !! key) as [c|].
  - destruct (bind c) as [v|] eqn:Hv; [|done]. intros [= <-]. cbn [filter_holds]. split.
    + destruct (json_extract json5 (JsonObject d) key) as [x|] eqn:Hx; [|done].
      intros [= Heq] ? [= <-]. by eexists _, _.
    + intros H. destruct (H c eq_refl) as (v' & x & Hv' & Hx & Hs).
      rewrite Hv in Hv'. injection Hv' as <-. rewrite Hx. simpl. by rewrite Hs.
  - intros [= <-]. simpl. split; [by intros _ ?|done].
Qed.

(** The statement and the decoding of [get_certificates], once the
    cutoff and the parameters are there. *)
Lemma get_certificates_run e now filters pt max_age_hours db cutoff postcode authority uprn :
  cutoff_hours now max_age_hours = Returned cutoff →
  bind_filter filters "postcode" = Returned postcode →
  bind_filter filters "local-authority" = Returned authority →
  bind_filter filters "uprn" = Returned uprn →
  get_certificates e now filters pt max_age_hours db
  = match fetchall (selected (json5 e) pt cutoff postcode authority uprn)
            (scan e (epc_certificates db)) with
    | Raised exc => (Raised exc, [])
    | Returned results =>
        match decoded results with
        | Raised exc => (Raised exc, [])
        | Returned [] => (Returned [], [])
        | Returned data => (Returned data, [(INFO, RetrievedFromCache (Z.of_nat (length data)))])
        end
    end.
Proof.
  intros Hcut Hp Ha Hu. unfold get_certificates. rewrite Hcut, Hp, Ha, Hu. simpl.
  by destruct (fetchall _ _).
Qed.

Lemma elem_of_scan e table kv :
  scans e → kv ∈ scan e table ↔ table !! fst kv = Some (snd kv).
Proof.
  intros Hscan. rewrite (Hscan table). destruct kv as [k v]. apply elem_of_map_to_list.
Qed.

(** X13.  With a library that visits every row once, and filter values
    that can be bound: when [get_certificates] returns, the list of
    decoded payloads that it hands to [pd.DataFrame] holds exactly the
    payloads, each a JSON object, of the entries of the requested type
    that pass the test on [cached_at] and, for each of [postcode],
    [local-authority] and [uprn] that the filters have, hold the bound
    value under that field; an entry whose payload is not JSON is left
    out.  The length of the list is logged, and nothing is logged when
    it is empty. *)
Theorem get_certificates_returns_matching_payloads e now filters pt max_age_hours db cutoff :
  scans e →
  cutoff_hours now max_age_hours = Returned cutoff →
  bindable filters →
  let result := get_certificates e now filters pt max_age_hours db in
  ∀ ds, fst result = Returned ds →
    (∀ d, d ∈ ds ↔
          ∃ id row, epc_certificates db !! id = Some row ∧
                    property_type row = pt ∧ text_gt (cached_at row) cutoff = true ∧
                    data row = JsonObject d ∧
                    satisfies (json5 e) filters d "postcode" ∧
                    satisfies (json5 e) filters d "local-authority" ∧
                    satisfies (json5 e) filters d "uprn") ∧
    snd result = match ds with
                 | [] => []
                 | _ => [(INFO, RetrievedFromCache (Z.of_nat (length ds)))]
                 end.
Proof.
  intros Hscan Hcut Hbind result ds. subst result.
  destruct (bind_filter_bindable filters "postcode" Hbind) as (postcode & Hp & _);
    [apply elem_of_filter_keys; auto|].
  destruct (bind_filter_bindable filters "local-authority" Hbind) as (authority & Ha & _);
    [apply elem_of_filter_keys; auto|].
  destruct (bind_filter_bindable filters "uprn" Hbind) as (uprn & Hu & _);
    [apply elem_of_filter_keys; auto|].
  rewrite (get_certificates_run _ _ _ _ _ _ _ _ _ _ Hcut Hp Ha Hu).
  destruct (fetchall_cases (selected (json5 e) pt cutoff postcode authority uprn)
              (scan e (epc_certificates db)))
    as [(results & -> & _ & Hin)|[-> _]]; [intros; apply selected_cases| |done].
  destruct (decoded_cases results) as [[_ ->]|(_ & ds' & -> & Hds)]; [done|].
  assert (∀ d, d ∈ ds' ↔
               ∃ id row, epc_certificates db !! id = Some row ∧
                         property_type row = pt ∧ text_gt (cached_at row) cutoff = true ∧
                         data row = JsonObject d ∧
                         satisfies (json5 e) filters d "postcode" ∧
                         satisfies (json5 e) filters d "local-authority" ∧
                         satisfies (json5 e) filters d "uprn") as Hdec.
  { intros d. rewrite Hds, Hin. split.
    - intros ([id row] & Hkv & Hsel%selected_true & Hdata).
      apply (elem_of_scan _ _ _ Hscan) in Hkv.
      simpl in *. destruct Hsel as (Hpt & Hfresh & H1 & H2 & H3).
      rewrite Hdata in H1, H2, H3.
      exists id, row. split_and!; try done.
      + by apply (filter_holds_satisfies _ _ _ _ _ Hp).
      + by apply (filter_holds_satisfies _ _ _ _ _ Ha).
      + by apply (filter_holds_satisfies _ _ _ _ _ Hu).
    - intros (id & row & Hrow & Hpt & Hfresh & Hdata & H1 & H2 & H3).
      exists (id, row). split_and!; [by apply (elem_of_scan _ _ _ Hscan)| |done].
      apply selected_true. simpl. rewrite Hdata. split_and!; try done.
      + by apply (filter_holds_satisfies _ _ _ _ _ Hp).
      + by apply (filter_holds_satisfies _ _ _ _ _ Ha).
      + by apply (filter_holds_satisfies _ _ _ _ _ Hu). }
  destruct ds' as [|d0 ds0]; simpl; intros [= <-]; done.
Qed.

(** X14.  [get_certificates] looks at three keys of the filters only,
    [postcode], [local-authority] and [uprn]: adding, changing or
    removing any other key changes nothing in the result or in the
    log. *)
Theorem other_filters_are_ignored e now filters pt max_age_hours db key value :
  key ∉ filter_keys →
  get_certificates e now (<[key := value]> filters) pt max_age_hours db
  = get_certificates e now filters pt max_age_hours db ∧
  get_certificates e now (delete key filters) pt max_age_hours db
  = get_certificates e now filters pt max_age_hours db.
Proof.
  intros Hkey.
  assert (key ≠ "postcode" ∧ key ≠ "local-authority" ∧ key ≠ "uprn") as (H1 & H2 & H3).
  { rewrite elem_of_filter_keys in Hkey. split_and!; intros ->; apply Hkey; auto. }
  unfold get_certificates, bind_filter.
  by rewrite !lookup_insert_ne, !lookup_delete_ne.
Qed.


(** X16.  [get_certificate_by_id] never changes the search cache, any
    other entry, or the type, payload and [cached_at] of any entry, and
    never adds or removes an entry.  When it returns a payload, that
    payload is the stored one of the entry asked for, and the
    [last_accessed] of that entry is now the current time.  When the
    certificate is not in the cache, the cache is left as it was. *)
Theorem read_by_id_changes_last_accessed_only now utc id max_age_hours db :
  let result := get_certificate_by_id now utc id max_age_hours db in
  search_cache (snd result) = search_cache db ∧
  (∀ id', id' ≠ KText id →
          epc_certificates (snd result) !! id' = epc_certificates db !! id') ∧
  (∀ id', (fun row => (property_type row, data row, cached_at row))
            <$> epc_certificates (snd result) !! id'
          = (fun row => (property_type row, data row, cached_at row))
            <$> epc_certificates db !! id') ∧
  (∀ d, fst result = Returned (Some d) →
        ∃ row, epc_certificates db !! KText id = Some row ∧ data row = JsonObject d ∧
               epc_certificates (snd result) !! KText id
               = Some (touch (CURRENT_TIMESTAMP utc) row)) ∧
  (epc_certificates db !! KText id = None → snd result = db).
Proof.
  intros result. subst result. unfold get_certificate_by_id.
  destruct (cutoff_hours now max_age_hours) as [cutoff|e]; [|by split_and!].
  destruct (epc_certificates db !! KText id) as [row|] eqn:Hrow; [|by split_and!].
  destruct (text_gt (cached_at row) cutoff); [|split_and!; try done; by rewrite Hrow].
  assert (∀ id', (fun row => (property_type row, data row, cached_at row))
                   <$> <[KText id := touch (CURRENT_TIMESTAMP utc) row]> (epc_certificates db) !! id'
                 = (fun row => (property_type row, data row, cached_at row))
                   <$> epc_certificates db !! id') as Hcolumns.
  { intros id'. destruct (decide (id' = KText id)) as [->|Hne].
    - by rewrite lookup_insert_eq, Hrow.
    - by rewrite lookup_insert_ne. }
  destruct (data row) as [d| |] eqn:Hdata;
    cbn [json_loads fst snd epc_certificates search_cache].
  - split_and!; [done| |done| |done].
    + intros id' Hne. by apply lookup_insert_ne.
    + intros d' [= <-]. exists row. by rewrite lookup_insert_eq.
  - split_and!; [done| |done|done|done].
    intros id' Hne. by apply lookup_insert_ne.
  - split_and!; [done| |done|done|done].
    intros id' Hne. by apply lookup_insert_ne.
Qed.

(** *** Writes *)

Lemma serializable_to_native c : serializable (to_native c) = serializable c.
Proof. by destruct c. Qed.

Lemma all_serializable_dumps row :
  json_dumps (to_dict row) = Returned (JsonObject (to_dict row)) → all_serializable row.
Proof.
  unfold json_dumps. destruct (forallb _ _) eqn:Hf; [|done]. intros _ label c Hc.
  rewrite forallb_forall in Hf. rewrite <- serializable_to_native.
  apply (Hf (label, to_native c)).
  apply list_elem_of_In, elem_of_map_to_list. unfold to_dict. by rewrite lookup_fmap, Hc.
Qed.

Lemma json_dumps_serializable row :
  all_serializable row → json_dumps (to_dict row) = Returned (JsonObject (to_dict row)).
Proof.
  intros Hall. unfold json_dumps.
  destruct (forallb _ _) eqn:Hf; [done|].
  apply not_true_iff_false in Hf. exfalso. apply Hf.
  apply forallb_forall. intros [label c] Hin.
  apply list_elem_of_In, elem_of_map_to_list in Hin. unfold to_dict in Hin.
  rewrite lookup_fmap in Hin. destruct (row !! label) as [c'|] eqn:Hc; [|done].
  injection Hin as <-. simpl. rewrite serializable_to_native. by apply (Hall label).
Qed.

Lemma insert_parameters_identified row v :
  all_serializable row → cell_truthy (certificate_id_of row) = true →
  bind (certificate_id_of row) = Returned v →
  insert_parameters row = Returned (Some (v, JsonObject (to_dict row))).
Proof.
  intros Hall Ht Hv. unfold insert_parameters.
  rewrite Ht, (json_dumps_serializable _ Hall). simpl. by rewrite Hv.
Qed.

Lemma insert_parameters_unbound row e :
  all_serializable row → cell_truthy (certificate_id_of row) = true →
  bind (certificate_id_of row) = Raised e →
  insert_parameters row = Raised e.
Proof.
  intros Hall Ht Hv. unfold insert_parameters.
  rewrite Ht, (json_dumps_serializable _ Hall). simpl. by rewrite Hv.
Qed.

Lemma insert_parameters_unidentified row :
  cell_truthy (certificate_id_of row) = false → insert_parameters row = Returned None.
Proof. intros Ht. unfold insert_parameters. by rewrite Ht. Qed.

(** What storing a frame of one row does, by the parameters of its
    statement. *)
Lemma store_one_row utc row pt db :
  fst (store_certificates utc [row] pt db)
  = match insert_parameters row with
    | Returned (Some (certificate_id, payload)) =>
        {| epc_certificates :=
             insert_or_replace (epc_certificates db) certificate_id
               (entry (utc 0%nat) pt payload);
           search_cache := search_cache db |}
    | _ => db
    end.
Proof.
  unfold store_certificates. cbn [empty forallb]. rewrite andb_true_r.
  destruct (bool_decide (row = ∅)) eqn:Hrow.
  - apply bool_decide_eq_true in Hrow as ->. by vm_compute.
  - cbn [store_rows]. destruct db.
    by destruct (insert_parameters row) as [[[certificate_id payload]|]|e].
Qed.

(** *** The numbering of the rows without [certificate_id] *)

Lemma next_null_step (j1 j2 : rowkey) (y : N) :
  match j1 with
  | KNull n => N.max (match j2 with KNull n => N.max y (N.succ n) | _ => y end) (N.succ n)
  | _ => match j2 with KNull n => N.max y (N.succ n) | _ => y end
  end
  = match j2 with
    | KNull n => N.max (match j1 with KNull n => N.max y (N.succ n) | _ => y end) (N.succ n)
    | _ => match j1 with KNull n => N.max y (N.succ n) | _ => y end
    end.
Proof. destruct j1, j2; lia. Qed.

Lemma next_null_insert_fresh table k (v : certificate) :
  table !! k = None →
  next_null (<[k := v]> table)
  = match k with KNull n => N.max (next_null table) (N.succ n) | _ => next_null table end.
Proof.
  intros Hk. unfold next_null.
  rewrite (map_fold_insert_L _ _ _ _ _ (fun j1 j2 _ _ y _ _ _ => next_null_step j1 j2 y) Hk).
  done.
Qed.

Lemma next_null_insert table k (v : certificate) :
  next_null (<[k := v]> table)
  = match k with KNull n => N.max (next_null table) (N.succ n) | _ => next_null table end.
Proof.
  destruct (table !! k) as [v'|] eqn:Hk; [|by apply next_null_insert_fresh].
  rewrite <- insert_delete_eq.
  rewrite next_null_insert_fresh by apply lookup_delete_eq.
  assert (next_null table
          = match k with
            | KNull n => N.max (next_null (delete k table)) (N.succ n)
            | _ => next_null (delete k table)
            end) as ->.
  { rewrite <- (insert_delete_id table k v' Hk) at 1.
    apply next_null_insert_fresh, lookup_delete_eq. }
  destruct k; lia.
Qed.

Lemma next_null_above table n : is_Some (table !! KNull n) → (n < next_null table)%N.
Proof.
  induction table as [|k v table Hk IH] using map_ind.
  - intros [? H]. by rewrite lookup_empty in H.
  - rewrite next_null_insert. destruct (decide (k = KNull n)) as [->|Hne].
    + intros _. lia.
    + rewrite lookup_insert_ne by done. intros H%IH. destruct k; lia.
Qed.

Lemma lookup_next_null table : table !! KNull (next_null table) = None.
Proof.
  destruct (table !! KNull (next_null table)) eqn:H; [|done].
  assert (next_null table < next_null table)%N by (apply next_null_above; by eexists). lia.
Qed.

(** *** One INSERT OR REPLACE *)

Lemma text_affinity_cases certificate_id :
  text_affinity certificate_id = SNull ∨
  (∃ s, text_affinity certificate_id = SText s) ∨
  (∃ b, text_affinity certificate_id = SBlob b).
Proof. destruct certificate_id; simpl; eauto. Qed.

Lemma rowkey_of_cases table certificate_id :
  (text_affinity certificate_id = SNull ∧
   rowkey_of table certificate_id = KNull (next_null table)) ∨
  (∃ s, text_affinity certificate_id = SText s ∧ rowkey_of table certificate_id = KText s) ∨
  (∃ b, text_affinity certificate_id = SBlob b ∧ rowkey_of table certificate_id = KBlob b).
Proof.
  unfold rowkey_of.
  destruct (text_affinity_cases certificate_id) as [H|[[s H]|[b H]]]; rewrite H; eauto.
Qed.

Lemma rowkey_of_keyed table table' certificate_id :
  text_affinity certificate_id ≠ SNull →
  rowkey_of table certificate_id = rowkey_of table' certificate_id.
Proof.
  intros Hne. unfold rowkey_of.
  by destruct (text_affinity_cases certificate_id) as [H|[[s H]|[b H]]]; rewrite H in *.
Qed.

Lemma rowkey_of_same table c1 c2 :
  text_affinity c1 = text_affinity c2 → rowkey_of table c1 = rowkey_of table c2.
Proof. unfold rowkey_of. by intros ->. Qed.

Lemma rowkey_of_next_null table table' certificate_id :
  next_null table = next_null table' →
  rowkey_of table certificate_id = rowkey_of table' certificate_id.
Proof. unfold rowkey_of. by intros ->. Qed.

Lemma rowkey_of_fresh_null table certificate_id n :
  rowkey_of table certificate_id = KNull n → table !! KNull n = None.
Proof.
  destruct (rowkey_of_cases table certificate_id) as [[_ ->]|[(s & _ & ->)|(b & _ & ->)]];
    [|done..].
  intros [= <-]. apply lookup_next_null.
Qed.

(** The [certificate_id] that is stored at a place of the table. *)
Lemma rowkey_of_affinity table certificate_id k :
  rowkey_of table certificate_id = k →
  text_affinity certificate_id
  = match k with KText s => SText s | KBlob b => SBlob b | KNull _ => SNull end.
Proof.
  destruct (rowkey_of_cases table certificate_id)
    as [[H ->]|[(s & H & ->)|(b & H & ->)]]; by intros <-.
Qed.

Lemma next_null_keyed table certificate_id row :
  text_affinity certificate_id ≠ SNull →
  next_null (insert_or_replace table certificate_id row) = next_null table.
Proof.
  intros Hne. unfold insert_or_replace. rewrite next_null_insert.
  by destruct (rowkey_of_cases table certificate_id)
    as [[H ->]|[(s & H & ->)|(b & H & ->)]].
Qed.

(** *** Sequences of statements *)

Lemma replay_cons certificate_id row statements table :
  replay ((certificate_id, row) :: statements) table
  = replay statements (insert_or_replace table certificate_id row).
Proof. done. Qed.

Lemma replay_lookup_other statements table k :
  (∀ kv table', kv ∈ statements → rowkey_of table' (fst kv) ≠ k) →
  replay statements table !! k = table !! k.
Proof.
  revert table. induction statements as [|[c e] statements IH]; intros table Hne; [done|].
  rewrite replay_cons, IH.
  - apply lookup_insert_ne. apply (Hne (c, e)). left.
  - intros kv table' Hkv. apply Hne. by right.
Qed.

Lemma replay_null_kept statements table n row :
  table !! KNull n = Some row → replay statements table !! KNull n = Some row.
Proof.
  revert table. induction statements as [|[c e] statements IH]; intros table Hrow; [done|].
  rewrite replay_cons. apply IH. unfold insert_or_replace. rewrite lookup_insert_ne; [done|].
  intros Heq%rowkey_of_fresh_null. by rewrite Heq in Hrow.
Qed.

Lemma replay_is_Some statements table k :
  is_Some (table !! k) → is_Some (replay statements table !! k).
Proof.
  revert table. induction statements as [|[c e] statements IH]; intros table Hk; [done|].
  rewrite replay_cons. apply IH. unfold insert_or_replace.
  destruct (decide (rowkey_of table c = k)) as [->|Hne].
  - rewrite lookup_insert_eq. by eexists.
  - by rewrite lookup_insert_ne.
Qed.

Lemma replay_lookup_inv statements table k row :
  replay statements table !! k = Some row →
  table !! k = Some row ∨
  ∃ kv, kv ∈ statements ∧ snd kv = row ∧
        text_affinity (fst kv)
        = match k with KText s => SText s | KBlob b => SBlob b | KNull _ => SNull end.
Proof.
  revert table. induction statements as [|[c e] statements IH]; intros table; [by left|].
  rewrite replay_cons. intros [Hk|(kv & Hkv & Hrow & Haff)]%IH.
  - unfold insert_or_replace in Hk.
    destruct (decide (rowkey_of table c = k)) as [Heq|Hne].
    + rewrite Heq, lookup_insert_eq in Hk. injection Hk as <-. right.
      exists (c, e). split_and!; [left|done|]. by apply (rowkey_of_affinity table).
    + rewrite lookup_insert_ne in Hk by done. by left.
  - right. exists kv. split_and!; [by right|done|done].
Qed.

Lemma replay_keyed_next_null statements table :
  (∀ kv, kv ∈ statements → text_affinity (fst kv) ≠ SNull) →
  next_null (replay statements table) = next_null table.
Proof.
  revert table. induction statements as [|[c e] statements IH]; intros table Hkeyed; [done|].
  rewrite replay_cons, IH.
  - apply next_null_keyed. apply (Hkeyed (c, e)). left.
  - intros kv Hkv. apply Hkeyed. by right.
Qed.

(** Two tables that differ only where statements with a
    [certificate_id] will write end up equal. *)
Lemma replay_agree statements table1 table2 :
  next_null table1 = next_null table2 →
  (∀ k, table1 !! k = table2 !! k ∨
        ∃ kv, kv ∈ statements ∧ ∀ table, rowkey_of table (fst kv) = k) →
  replay statements table1 = replay statements table2.
Proof.
  revert table1 table2.
  induction statements as [|[c e] statements IH]; intros table1 table2 Hnext Hagree.
  - apply map_eq. intros k. by destruct (Hagree k) as [?|(? & ?%elem_of_nil & _)].
  - rewrite !replay_cons. unfold insert_or_replace.
    rewrite <- (rowkey_of_next_null _ _ c Hnext). apply IH.
    + rewrite !next_null_insert, Hnext. done.
    + intros k. destruct (decide (rowkey_of table1 c = k)) as [->|Hne].
      * left. by rewrite !lookup_insert_eq.
      * rewrite !lookup_insert_ne by done.
        destruct (Hagree k) as [?|(kv & [->|Hkv]%elem_of_cons & Hk)]; [by left| |].
        -- by destruct Hne.
        -- right. by exists kv.
Qed.

Section Store.

Variable utc : nat → datetime.
Variable pt : string.

Lemma store_rows_spec rows i table n :
  store_rows utc pt i rows table n
  = (replay (upserts utc pt i rows) table,
     n + Z.of_nat (length (upserts utc pt i rows)),
     map (fun e => (ERROR, ErrorStoringCertificate e)) (failures rows)).
Proof.
  revert i table n. induction rows as [|row rows IH]; intros i table n.
  - simpl. f_equal. f_equal. lia.
  - cbn [store_rows upserts failures].
    destruct (insert_parameters row) as [[[key payload]|]|e]; rewrite IH.
    + cbn [length]. rewrite replay_cons. do 2 f_equal. lia.
    + done.
    + done.
Qed.

Lemma upserts_empty rows i : empty rows = true → upserts utc pt i rows = [].
Proof.
  revert i. induction rows as [|row rows IH]; intros i Hempty; [done|].
  simpl in Hempty. apply andb_true_iff in Hempty as [Hrow Hempty].
  apply bool_decide_eq_true in Hrow as ->.
  cbn [upserts].
  replace (insert_parameters ∅) with (@Returned (option (sqlval * payload)) None)
    by (by vm_compute).
  by apply IH.
Qed.

Lemma store_certificates_table batch db :
  fst (store_certificates utc batch pt db)
  = {| epc_certificates := replay (upserts utc pt 0 batch) (epc_certificates db);
       search_cache := search_cache db |}.
Proof.
  unfold store_certificates. destruct (empty batch) eqn:Hempty.
  - rewrite (upserts_empty _ _ Hempty). by destruct db.
  - by rewrite store_rows_spec.
Qed.

Lemma upserts_rows rows i kv :
  kv ∈ upserts utc pt i rows →
  ∃ j row, rows !! j = Some row ∧ key_of row = Some (text_affinity (fst kv)) ∧
           snd kv = entry (utc (i + j)) pt (JsonObject (to_dict row)).
Proof.
  revert i. induction rows as [|row rows IH]; intros i; [by intros ?%elem_of_nil|].
  cbn [upserts].
  assert (kv ∈ upserts utc pt (S i) rows →
          ∃ j row', (row :: rows) !! j = Some row' ∧
                    key_of row' = Some (text_affinity (fst kv)) ∧
                    snd kv = entry (utc (i + j)) pt (JsonObject (to_dict row'))) as Hrest.
  { intros Hin. destruct (IH _ Hin) as (j & row' & Hj & Hk & He).
    exists (S j), row'. split_and!; [done|done|].
    by replace (i + S j)%nat with (S i + j)%nat by lia. }
  destruct (insert_parameters row) as [[[key payload]|]|e] eqn:Hp; [|by apply Hrest..].
  intros [->|Hin]%elem_of_cons; [|by apply Hrest].
  exists 0%nat, row. rewrite Nat.add_0_r. simpl.
  destruct (DatabaseProofs.insert_parameters_payload _ _ _ Hp) as (-> & _).
  split_and!; [done| |done]. unfold key_of. by rewrite Hp.
Qed.

Lemma upserts_of_row rows row id i :
  row ∈ rows → key_of row = Some id →
  ∃ kv, kv ∈ upserts utc pt i rows ∧ text_affinity (fst kv) = id.
Proof.
  revert i. induction rows as [|r rows IH]; intros i; [by intros ?%elem_of_nil|].
  intros Hin Hkey. cbn [upserts]. apply elem_of_cons in Hin as [<-|Hin].
  - unfold key_of in Hkey.
    destruct (insert_parameters row) as [[[key payload]|]|?]; [|done..].
    injection Hkey as <-. exists (key, entry (utc i) pt payload). split; [left|done].
  - destruct (IH (S i) Hin Hkey) as (kv & Hkv & Hid).
    destruct (insert_parameters r) as [[[key payload]|]|?]; exists kv;
      (split; [|done]); [by right|done|done].
Qed.

End Store.

(** X17.  The [certificate_id] under which the row of a one-row frame
    is stored, when [json.dumps] accepts the row.  The identity is the
    cell under [lmk-key] when that cell is true, whatever
    [building-reference-number] holds, and the cell under
    [building-reference-number] otherwise; when neither is true the
    cache is left as it was.  A string is stored as it is; a Python
    [int] as its decimal text when it fits 64 bits, and not at all when
    it does not; [True] as ["1"]; a float, which is what a column of
    integers with a missing value holds, as the text of the float,
    ["10001234.0"]; a [numpy] scalar, which is what the rows of a frame
    of integer columns hold, as a BLOB.  NaN, which is what a frame
    holds where a record has no such field, is true: the row is
    inserted as a new row, with NULL for its [certificate_id], and
    [building-reference-number] is not consulted. *)
Theorem identity_of_a_row utc row pt db :
  is_frame [row] = true →
  all_serializable row →
  let lmk := row_get row "lmk-key" in
  let brn := row_get row "building-reference-number" in
  let db' := fst (store_certificates utc [row] pt db) in
  let stored_under k :=
    db' = {| epc_certificates :=
               <[k := {| property_type := pt; data := JsonObject (to_dict row);
                         cached_at := CURRENT_TIMESTAMP (utc 0%nat);
                         last_accessed := CURRENT_TIMESTAMP (utc 0%nat) |}]>
                 (epc_certificates db);
             search_cache := search_cache db |} in
  let identified_by c :=
    match c with
    | CStr s => stored_under (KText s)
    | CInt z => if fits_int64 z then stored_under (KText (pretty z)) else db' = db
    | CBool _ => stored_under (KText "1")
    | CFloat z => stored_under (KText (pretty z +:+ ".0"))
    | CInt64 z => stored_under (KBlob (Int64Bytes z))
    | CBool_ b => stored_under (KBlob (BoolByte b))
    | CNaN => ∃ n, epc_certificates db !! KNull n = None ∧ stored_under (KNull n)
    | CNone | CObject _ => True
    end in
  (cell_truthy lmk = true → identified_by lmk) ∧
  (cell_truthy lmk = false → cell_truthy brn = true → identified_by brn) ∧
  (cell_truthy lmk = false → cell_truthy brn = false → db' = db).
Proof.
  intros _ Hall lmk brn db' stored_under identified_by.
  assert (∀ c, certificate_id_of row = c → cell_truthy c = true → identified_by c) as Hid.
  { intros c Hc Ht. rewrite <- Hc in Ht.
    subst identified_by stored_under db'. cbv beta. rewrite store_one_row.
    destruct c; try done.
    - rewrite (insert_parameters_identified row (SInteger (if b then 1 else 0)) Hall Ht)
        by (by rewrite Hc).
      rewrite Hc in Ht. simpl in Ht. by subst b.
    - destruct (fits_int64 z) eqn:Hfits.
      + by rewrite (insert_parameters_identified row (SInteger z) Hall Ht)
          by (by rewrite Hc; simpl; rewrite Hfits).
      + by rewrite (insert_parameters_unbound row OverflowError Hall Ht)
          by (by rewrite Hc; simpl; rewrite Hfits).
    - rewrite (insert_parameters_identified row SNull Hall Ht) by (by rewrite Hc).
      exists (next_null (epc_certificates db)). split; [apply lookup_next_null|done].
    - by rewrite (insert_parameters_identified row (SReal z) Hall Ht) by (by rewrite Hc).
    - by rewrite (insert_parameters_identified row (SText s) Hall Ht) by (by rewrite Hc).
    - by rewrite (insert_parameters_identified row (SBlob (Int64Bytes z)) Hall Ht)
        by (by rewrite Hc).
    - by rewrite (insert_parameters_identified row (SBlob (BoolByte b)) Hall Ht)
        by (by rewrite Hc). }
  split_and!.
  - intros Ht. apply Hid; [|done]. unfold certificate_id_of. fold lmk. by rewrite Ht.
  - intros Hf Ht. apply Hid; [|done]. unfold certificate_id_of. fold lmk. by rewrite Hf.
  - intros Hf Hf'. subst db'. rewrite store_one_row, insert_parameters_unidentified; [done|].
    unfold certificate_id_of. fold lmk. by rewrite Hf.
Qed.

(** X18.  [store_certificates] of a frame leaves the search cache alone
    and removes no entry.  An entry whose [certificate_id] is a text or a BLOB is
    left exactly as it was unless a row of the batch is stored under
    that [certificate_id]; an entry whose [certificate_id] is NULL is
    always left as it was.  Every entry of the cache afterwards was
    there before or is what a row of the batch was stored as, under the
    [certificate_id] of that row: the given type, the row as a JSON
    object, and the time of that row's statement in both time
    stamps. *)
Theorem store_keeps_other_entries utc pt batch db :
  is_frame batch = true →
  let db' := fst (store_certificates utc batch pt db) in
  search_cache db' = search_cache db ∧
  (∀ s, (∀ row, row ∈ batch → key_of row ≠ Some (SText s)) →
        epc_certificates db' !! KText s = epc_certificates db !! KText s) ∧
  (∀ b, (∀ row, row ∈ batch → key_of row ≠ Some (SBlob b)) →
        epc_certificates db' !! KBlob b = epc_certificates db !! KBlob b) ∧
  (∀ n stored, epc_certificates db !! KNull n = Some stored →
               epc_certificates db' !! KNull n = Some stored) ∧
  (∀ k, is_Some (epc_certificates db !! k) → is_Some (epc_certificates db' !! k)) ∧
  (∀ k stored,
     epc_certificates db' !! k = Some stored →
     epc_certificates db !! k = Some stored ∨
     ∃ i row,
       batch !! i = Some row ∧
       key_of row
       = Some match k with KText s => SText s | KBlob b => SBlob b | KNull _ => SNull end ∧
       stored = {| property_type := pt; data := JsonObject (to_dict row);
                   cached_at := CURRENT_TIMESTAMP (utc i);
                   last_accessed := CURRENT_TIMESTAMP (utc i) |}).
Proof.
  intros _ db'. subst db'. rewrite store_certificates_table.
  cbn [epc_certificates search_cache].
  assert (∀ k, (∀ row, row ∈ batch →
                       key_of row
                       ≠ Some match k with
                              | KText s => SText s | KBlob b => SBlob b | KNull _ => SNull
                              end) →
               replay (upserts utc pt 0 batch) (epc_certificates db) !! k
               = epc_certificates db !! k) as Hother.
  { intros k Hno. apply replay_lookup_other. intros kv table' Hkv Heq.
    destruct (upserts_rows _ _ _ _ _ Hkv) as (j & r & Hj & Hk & _).
    apply (Hno r); [by eapply list_elem_of_lookup_2|].
    by rewrite Hk, (rowkey_of_affinity _ _ _ Heq). }
  split_and!.
  - done.
  - intros s Hno. by apply (Hother (KText s)).
  - intros b Hno. by apply (Hother (KBlob b)).
  - intros n stored. apply replay_null_kept.
  - intros k. apply replay_is_Some.
  - intros k stored [Hk|(kv & Hkv & Hrow & Haff)]%replay_lookup_inv; [by left|].
    right. destruct (upserts_rows _ _ _ _ _ Hkv) as (j & r & Hj & Hk & He).
    exists j, r. split_and!; [done|by rewrite Hk, Haff|by rewrite <- Hrow, He].
Qed.

(** X19.  When every row of a first frame that is stored is stored under
    a [certificate_id] that is not NULL and that a row of a second frame
    is stored under as well, storing the second frame after the first
    leaves the cache that storing the second alone leaves: nothing of
    the first store remains, whatever its types and times.  In
    particular, storing again a frame none of whose identities is NaN
    replaces all its entries. *)
Theorem later_store_overrides utc1 batch1 pt1 utc2 batch2 pt2 db :
  is_frame batch1 = true → is_frame batch2 = true →
  (∀ row id, row ∈ batch1 → key_of row = Some id →
             id ≠ SNull ∧ ∃ row', row' ∈ batch2 ∧ key_of row' = Some id) →
  fst (store_certificates utc2 batch2 pt2 (fst (store_certificates utc1 batch1 pt1 db)))
  = fst (store_certificates utc2 batch2 pt2 db).
Proof.
  intros _ _ Hcover. rewrite !store_certificates_table.
  cbn [epc_certificates search_cache].
  f_equal.
  assert (∀ kv, kv ∈ upserts utc1 pt1 0 batch1 →
                text_affinity (fst kv) ≠ SNull ∧
                ∃ kv', kv' ∈ upserts utc2 pt2 0 batch2 ∧
                       text_affinity (fst kv') = text_affinity (fst kv)) as Hstatements.
  { intros kv Hkv. destruct (upserts_rows _ _ _ _ _ Hkv) as (j & r & Hj & Hk & _).
    destruct (Hcover r _ (list_elem_of_lookup_2 _ _ _ Hj) Hk) as (Hne & r' & Hr' & Hk').
    split; [done|]. by apply (upserts_of_row utc2 pt2 _ r'). }
  revert Hstatements. generalize (epc_certificates db).
  induction (upserts utc1 pt1 0 batch1) as [|[c e] statements IH]; intros table Hst; [done|].
  rewrite replay_cons, IH by (intros kv Hkv; apply Hst; by right).
  destruct (Hst (c, e) ltac:(left)) as (Hne & kv' & Hkv' & Haff). simpl in *.
  apply replay_agree; [by apply next_null_keyed|].
  intros k. unfold insert_or_replace.
  destruct (decide (rowkey_of table c = k)) as [<-|Hk]; [|left; by apply lookup_insert_ne].
  right. exists kv'. split; [done|]. intros table'.
  rewrite (rowkey_of_same table' _ _ Haff). by apply rowkey_of_keyed.
Qed.

(** *** Statistics *)

Lemma count_by_type_lookup rows t :
  default 0 (count_by_type rows !! t)
  = Z.of_nat (length (filter (fun kv : rowkey * certificate => property_type (snd kv) = t) rows)).
Proof.
  induction rows as [|[id row] rows IH]; [done|].
  cbn [count_by_type]. cbv zeta. destruct (decide (property_type row = t)) as [Heq|Hne].
  - rewrite filter_cons_True by done. rewrite Heq, lookup_insert_eq. simpl. rewrite IH. lia.
  - rewrite filter_cons_False by done. by rewrite lookup_insert_ne.
Qed.

Lemma count_by_type_None rows t :
  count_by_type rows !! t = None ↔ ∀ kv, kv ∈ rows → property_type (snd kv) ≠ t.
Proof.
  induction rows as [|[id row] rows IH].
  - split; [by intros _ ? ?%elem_of_nil|done].
  - cbn [count_by_type]. cbv zeta. rewrite lookup_insert_None, IH. split.
    + intros [Hrows Hne] kv [->|Hkv]%elem_of_cons; [done|by apply Hrows].
    + intros H. split; [|apply (H (id, row)); left].
      intros kv Hkv. apply H. by right.
Qed.

Lemma sum_of_counts_insert counts t c :
  sum_of_counts (<[t := c]> counts) = c - default 0 (counts !! t) + sum_of_counts counts.
Proof.
  assert (∀ m : gmap string Z,
            ∀ j1 j2 z1 z2 y, j1 ≠ j2 → m !! j1 = Some z1 → m !! j2 = Some z2 →
                             z1 + (z2 + y) = z2 + (z1 + y)) as Hcomm by (intros; lia).
  unfold sum_of_counts. destruct (counts !! t) as [c'|] eqn:Hc; simpl.
  - rewrite <- insert_delete_eq.
    rewrite (map_fold_insert_L _ _ _ _ _ (Hcomm _)) by apply lookup_delete_eq.
    rewrite (map_fold_delete_L _ _ t c' counts (Hcomm _) Hc). lia.
  - rewrite (map_fold_insert_L _ _ _ _ _ (Hcomm _)) by done. lia.
Qed.

Lemma sum_of_counts_count_by_type rows :
  sum_of_counts (count_by_type rows) = Z.of_nat (length rows).
Proof.
  induction rows as [|[id row] rows IH]; [done|].
  cbn [count_by_type length]. cbv zeta. rewrite sum_of_counts_insert, IH. lia.
Qed.

Lemma size_filter `{Countable K} {A} (P : K * A → Prop) `{!∀ kv, Decision (P kv)}
    (m : gmap K A) :
  size (filter P m) = length (filter P (map_to_list m)).
Proof.
  induction m as [|i x m Hi IH] using map_ind.
  - by rewrite map_filter_empty, map_to_list_empty.
  - rewrite (map_to_list_insert _ _ _ Hi). destruct (decide (P (i, x))) as [HP|HP].
    + rewrite map_filter_insert_True, filter_cons_True by done.
      rewrite map_size_insert_None by (by rewrite map_lookup_filter, Hi).
      simpl. by rewrite IH.
    + rewrite map_filter_insert_not', filter_cons_False by (done || by rewrite Hi).
      done.
Qed.

(** X20.  In the result of [get_cache_stats], the count of a property
    type is the number of entries of that type, a type without entry
    has no count, the counts add up to [total_certificates], and
    [recent_certificates] is between 0 and [total_certificates]. *)
Theorem cache_stats_are_consistent day_ago db_path db :
  let stats := get_cache_stats day_ago db_path db in
  (∀ t, default 0 (by_property_type stats !! t)
        = Z.of_nat (size (filter (fun kv => property_type (snd kv) = t) (epc_certificates db)))) ∧
  (∀ t, by_property_type stats !! t = None
        ↔ ∀ id row, epc_certificates db !! id = Some row → property_type row ≠ t) ∧
  sum_of_counts (by_property_type stats) = total_certificates stats ∧
  0 <= recent_certificates stats <= total_certificates stats.
Proof.
  intros stats. subst stats. cbn [get_cache_stats by_property_type total_certificates
                                    recent_certificates]. split_and!.
  - intros t. by rewrite count_by_type_lookup, size_filter.
  - intros t. rewrite count_by_type_None. split.
    + intros H id row Hrow. apply (H (id, row)). by apply elem_of_map_to_list.
    + intros H [id row] Hkv%elem_of_map_to_list. by apply (H id).
  - by rewrite sum_of_counts_count_by_type, length_map_to_list.
  - lia.
  - apply inj_le, map_subseteq_size, map_filter_subseteq.
Qed.

(** *** The range of the calendar *)

Lemma cutoff_day now max_age_days :
  valid now = true →
  (instant now - days max_age_days) / microseconds_per_day = toordinal now - max_age_days.
Proof.
  intros H. unfold valid in H. repeat (apply andb_true_iff in H as [H ?]).
  repeat match goal with
         | H : (_ <=? _) = true |- _ => apply Z.leb_le in H
         | H : (_ <? _) = true |- _ => apply Z.ltb_lt in H
         end.
  unfold instant, days, microseconds_per_day.
  symmetry. apply (Z.div_unique_pos _ _ _
    ((hour now * 3600 + minute now * 60 + second now) * 1000000 + microsecond now)); lia.
Qed.

(** X21.  [cleanup_old_data] at a valid time [now] raises
    [OverflowError], and deletes and logs nothing, exactly when the day
    [max_age_days] days before today lies outside the calendar, before
    year 1 or after year 9999; otherwise it returns and logs its two
    counts. *)
Theorem cleanup_fails_outside_the_calendar now max_age_days db :
  valid now = true →
  (toordinal now - max_age_days < 1 ∨ MAXORDINAL < toordinal now - max_age_days →
   cleanup_old_data now max_age_days db = (Raised OverflowError, db, [])) ∧
  (1 <= toordinal now - max_age_days <= MAXORDINAL →
   ∃ db' deleted_count deleted_searches,
     cleanup_old_data now max_age_days db
     = (Returned tt, db', [(INFO, CleanedUp deleted_count deleted_searches)])).
Proof.
  intros Hvalid. unfold cleanup_old_data, cutoff_days, minus_timedelta. cbv zeta.
  rewrite (cutoff_day _ _ Hvalid). split.
  - intros Hout.
    assert ((0 <? toordinal now - max_age_days)
            && (toordinal now - max_age_days <=? MAXORDINAL) = false) as ->; [|done].
    apply andb_false_iff. rewrite Z.ltb_ge, Z.leb_gt. lia.
  - intros Hin.
    assert ((0 <? toordinal now - max_age_days)
            && (toordinal now - max_age_days <=? MAXORDINAL) = true) as ->.
    { apply andb_true_iff. rewrite Z.ltb_lt, Z.leb_le. lia. }
    destruct (fromordinal _) as [[y m] d]. simpl. by eexists _, _, _.
Qed.

(** *** The theorems at work *)

Lemma scans_in_table_order json5 : scans {| json5 := json5; scan := map_to_list |}.
Proof. intros table. reflexivity. Qed.

Lemma get_certificates_returns_matching_payloads_witness :
  let filters : gmap string cell := {[ "postcode" := CStr "SW1A 1AA" ]} in
  let db := cached_at_time (at_time 2024 3 11 8 0 0) in
  let result :=
    get_certificates sqlite_3_40 (at_time 2024 3 11 9 0 0) filters "domestic" 24 db in
  (∀ d, d ∈ [first_payload] ↔
        ∃ id row, epc_certificates db !! id = Some row ∧
                  property_type row = "domestic" ∧
                  text_gt (cached_at row) "2024-03-10T09:00:00" = true ∧
                  data row = JsonObject d ∧
                  satisfies false filters d "postcode" ∧
                  satisfies false filters d "local-authority" ∧
                  satisfies false filters d "uprn") ∧
  snd result = [(INFO, RetrievedFromCache 1)].
Proof.
  intros filters db result.
  refine (CacheProperties.get_certificates_returns_matching_payloads sqlite_3_40
            (at_time 2024 3 11 9 0 0) filters "domestic" 24 db "2024-03-10T09:00:00"
            _ _ _ [first_payload] _).
  - apply scans_in_table_order.
  - vm_compute. reflexivity.
  - apply bindable_text.
  - vm_compute. reflexivity.
Defined.

Lemma other_filters_are_ignored_witness :
  get_certificates sqlite_3_40 (at_time 2024 3 11 9 0 0)
    (<["address" := CStr "10 Downing Street"]> ∅)
    "domestic" 24 (cached_at_time (at_time 2024 3 11 8 0 0))
  = get_certificates sqlite_3_40 (at_time 2024 3 11 9 0 0) ∅
      "domestic" 24 (cached_at_time (at_time 2024 3 11 8 0 0)).
Proof.
  refine (proj1 (CacheProperties.other_filters_are_ignored sqlite_3_40
                   (at_time 2024 3 11 9 0 0) ∅
                   "domestic" 24 (cached_at_time (at_time 2024 3 11 8 0 0))
                   "address" (CStr "10 Downing Street") _)).
  intros Hkey. apply elem_of_filter_keys in Hkey as [Hkey|[Hkey|Hkey]]; discriminate Hkey.
Defined.


Example undecodable_entry_is_skipped_without_filter :
  fst (get_certificates sqlite_3_40 (at_time 2024 3 10 13 0 0) ∅ "domestic" 24 half_corrupted)
  = Returned [first_payload] ∧
  get_certificates sqlite_3_40 (at_time 2024 3 10 13 0 0) {[ "postcode" := CStr "SW1A 1AA" ]}
    "domestic" 24 half_corrupted
  = (Raised OperationalError, []) ∧
  get_certificates sqlite_3_42 (at_time 2024 3 10 13 0 0) {[ "postcode" := CStr "SW1A 1AA" ]}
    "domestic" 24
    (fst (store_certificates (fun _ => at_time 2024 3 10 12 0 0)
            [without_identity; first_payload] "domestic" empty_cache))
  = (Returned [without_identity; first_payload], [(INFO, RetrievedFromCache 2)]) ∧
  get_certificates sqlite_3_40 (at_time 2024 3 10 13 0 0) ∅ "domestic" 24 (with_payload Number)
  = (Raised TypeError, []) ∧
  get_certificates sqlite_3_40 (at_time 2024 3 10 13 0 0) {[ "postcode" := CStr "SW1A 1AA" ]}
    "domestic" 24 (with_payload Number)
  = (Returned [], []).
Proof. split_and!; vm_compute; reflexivity. Qed.

Lemma read_by_id_changes_last_accessed_only_witness :
  let db := cached_at_time (at_time 2024 3 11 8 0 0) in
  let result :=
    get_certificate_by_id (at_time 2024 3 11 9 0 0) (at_time 2024 3 11 9 0 0) "k1" 24 db in
  ∃ row, epc_certificates db !! KText "k1" = Some row ∧ data row = JsonObject first_payload ∧
         epc_certificates (snd result) !! KText "k1"
         = Some (touch (CURRENT_TIMESTAMP (at_time 2024 3 11 9 0 0)) row).
Proof.
  intros db result.
  refine (proj1 (proj2 (proj2 (proj2
            (CacheProperties.read_by_id_changes_last_accessed_only (at_time 2024 3 11 9 0 0)
               (at_time 2024 3 11 9 0 0) "k1" 24 db)))) first_payload _).
  vm_compute. reflexivity.
Defined.

Lemma identity_of_a_row_witness :
  fst (store_certificates (fun _ => at_time 2024 3 11 8 0 0) [numbered_row] "non-domestic"
         empty_cache)
  = {| epc_certificates :=
         {[ KText "10001234" :=
              {| property_type := "non-domestic"; data := JsonObject numbered_row;
                 cached_at := "2024-03-11 08:00:00";
                 last_accessed := "2024-03-11 08:00:00" |} ]};
       search_cache := ∅ |}.
Proof.
  refine (eq_trans
            (proj1 (proj2 (CacheProperties.identity_of_a_row
                             (fun _ => at_time 2024 3 11 8 0 0) numbered_row "non-domestic"
                             empty_cache _ _)) _ _) _).
  - vm_compute. reflexivity.
  - apply all_serializable_dumps. vm_compute. reflexivity.
  - vm_compute. reflexivity.
  - vm_compute. reflexivity.
  - vm_compute. reflexivity.
Defined.

Lemma store_keeps_other_entries_witness :
  let db := cached_at_time (at_time 2024 3 10 12 0 0) in
  let db' := fst (store_certificates (fun _ => at_time 2024 3 11 8 0 0)
                    [float_row; unnumbered_row] "non-domestic" db) in
  epc_certificates db' !! KText "k1"
  = Some {| property_type := "domestic"; data := JsonObject first_payload;
            cached_at := "2024-03-10 12:00:00"; last_accessed := "2024-03-10 12:00:00" |}.
Proof.
  intros db db'.
  refine (eq_trans
            (proj1 (proj2 (CacheProperties.store_keeps_other_entries
                             (fun _ => at_time 2024 3 11 8 0 0) "non-domestic"
                             [float_row; unnumbered_row] db _))
               "k1" _) _).
  - vm_compute. reflexivity.
  - intros row [->|[->|[]%elem_of_nil]%elem_of_cons]%elem_of_cons Hkey;
      vm_compute in Hkey; discriminate Hkey.
  - vm_compute. reflexivity.
Defined.

Example rows_of_one_certificate_in_three_frames :
  let utc := fun _ : nat => at_time 2024 3 11 8 0 0 in
  let keys batch : gset rowkey :=
    dom (epc_certificates (fst (store_certificates utc batch "non-domestic" empty_cache))) in
  is_frame [numbered_row] = true ∧ keys [numbered_row] = {[ KText "10001234" ]} ∧
  is_frame [all_integer_row] = true ∧
  keys [all_integer_row] = {[ KBlob (Int64Bytes 10001234) ]} ∧
  is_frame [float_row; unnumbered_row] = true ∧
  keys [float_row; unnumbered_row] = {[ KText "10001234.0"; KNull 0 ]} ∧
  is_frame [numbered_row; all_integer_row] = false ∧
  is_frame [first_payload; untagged] = false ∧
  is_frame [{[ "building-reference-number" := CFloat (10 ^ 15) ]}] = false.
Proof. split_and!; vm_compute; reflexivity. Qed.

Lemma later_store_overrides_witness :
  fst (store_certificates (fun _ => at_time 2024 3 11 8 0 0) [second_payload] "domestic"
         (fst (store_certificates (fun _ => at_time 2024 3 10 12 0 0) [first_payload]
                 "non-domestic" empty_cache)))
  = {| epc_certificates :=
         {[ KText "k1" := {| property_type := "domestic"; data := JsonObject second_payload;
                             cached_at := "2024-03-11 08:00:00";
                             last_accessed := "2024-03-11 08:00:00" |} ]};
       search_cache := ∅ |}.
Proof.
  refine (eq_trans
            (CacheProperties.later_store_overrides (fun _ => at_time 2024 3 10 12 0 0)
               [first_payload] "non-domestic" (fun _ => at_time 2024 3 11 8 0 0)
               [second_payload] "domestic" empty_cache _ _ _) _).
  - vm_compute. reflexivity.
  - vm_compute. reflexivity.
  - intros row id Hrow Hkey. apply list_elem_of_singleton in Hrow. subst row.
    split.
    + intros ->. vm_compute in Hkey. discriminate Hkey.
    + exists second_payload. split; [left|]. rewrite <- Hkey. vm_compute. reflexivity.
  - vm_compute. reflexivity.
Defined.

Lemma cleanup_fails_outside_the_calendar_witness :
  cleanup_old_data (at_time 2024 3 11 9 0 0) 800000 (cached_at_time (at_time 2024 3 10 12 0 0))
  = (Raised OverflowError, cached_at_time (at_time 2024 3 10 12 0 0), []).
Proof.
  refine (proj1 (CacheProperties.cleanup_fails_outside_the_calendar
                   (at_time 2024 3 11 9 0 0) 800000
                   (cached_at_time (at_time 2024 3 10 12 0 0)) _) _).
  - vm_compute. reflexivity.
  - left. vm_compute. reflexivity.
Defined.

End CacheProperties.

(** ** The comparisons of time stamps *)

Module FreshnessProperties.

Import Py Datetime Database DatabaseScenarios CacheStatistics CacheScenarios.

(** *** Texts of equal length *)

Lemma length_append s t :
  String.length (s +:+ t) = (String.length s + String.length t)%nat.
Proof. induction s as [|a s IH]; simpl; [done|by rewrite IH]. Qed.

Lemma length_digits w z : String.length (digits w z) = w.
Proof.
  revert z. induction w as [|w IH]; intros z; [done|].
  cbn [digits]. rewrite length_append, IH. simpl. lia.
Qed.

Lemma compare_app s1 s2 t1 t2 :
  String.length s1 = String.length s2 →
  String.compare (s1 +:+ t1) (s2 +:+ t2)
  = match String.compare s1 s2 with Eq => String.compare t1 t2 | c => c end.
Proof.
  revert s2. induction s1 as [|a s1 IH]; intros [|b s2] Hlen; try done.
  simpl in *. destruct (Ascii.compare a b); [|done..]. apply IH. lia.
Qed.

Lemma compare_digit x y :
  0 <= x < 10 → 0 <= y < 10 →
  Ascii.compare (ascii_of_nat (48 + Z.to_nat x)) (ascii_of_nat (48 + Z.to_nat y))
  = (x ?= y).
Proof.
  intros Hx Hy.
  assert (∀ n, (n < 10)%nat →
            N_of_ascii (ascii_of_nat (48 + n)) = N.of_nat (48 + n)) as Hcode.
  { intros n Hn. do 10 (destruct n as [|n]; [done|]). lia. }
  unfold Ascii.compare. rewrite !Hcode by lia.
  destruct (Z.compare_spec x y) as [Heq|Hlt|Hgt];
    [apply N.compare_eq_iff|apply N.compare_lt_iff|apply N.compare_gt_iff]; lia.
Qed.

Lemma compare_digits w x y :
  0 <= x < 10 ^ Z.of_nat w → 0 <= y < 10 ^ Z.of_nat w →
  String.compare (digits w x) (digits w y) = (x ?= y).
Proof.
  revert x y. induction w as [|w IH]; intros x y Hx Hy.
  - simpl in *. assert (x = 0) as -> by lia. assert (y = 0) as -> by lia. done.
  - rewrite Nat2Z.inj_succ, Z.pow_succ_r in Hx, Hy by lia.
    cbn [digits]. rewrite compare_app by (by rewrite !length_digits).
    rewrite IH by (split; [apply Z.div_pos; lia|apply Z.div_lt_upper_bound; lia]).
    pose proof (Z.div_mod x 10 ltac:(lia)) as Ex.
    pose proof (Z.div_mod y 10 ltac:(lia)) as Ey.
    pose proof (Z.mod_pos_bound x 10 ltac:(lia)) as Bx.
    pose proof (Z.mod_pos_bound y 10 ltac:(lia)) as By.
    destruct (Z.compare_spec (x / 10) (y / 10)) as [Heq|Hlt|Hgt].
    + cbn [String.compare]. rewrite compare_digit by done.
      destruct (Z.compare_spec (x mod 10) (y mod 10)) as [Heq'|Hlt'|Hgt'];
        symmetry; [apply Z.compare_eq_iff|apply Z.compare_lt_iff|apply Z.compare_gt_iff]; lia.
    + symmetry. apply Z.compare_lt_iff. lia.
    + symmetry. apply Z.compare_gt_iff. lia.
Qed.

Lemma compare_prefix s t1 t2 :
  String.compare (s +:+ t1) (s +:+ t2) = String.compare t1 t2.
Proof.
  induction s as [|c s IH]; [done|].
  simpl. unfold Ascii.compare. by rewrite N.compare_refl.
Qed.

Lemma length_date_text dt : String.length (date_text dt) = 10%nat.
Proof. unfold date_text. by rewrite !length_append, !length_digits. Qed.

(** The order of two dates, as a comparison of triples. *)
Local Abbreviation compare_dates a b :=
  (match year a ?= year b with
   | Eq => match month a ?= month b with Eq => day a ?= day b | c => c end
   | c => c
   end).

Lemma compare_date_text a b :
  0 <= year a < 10000 → 0 <= month a < 100 → 0 <= day a < 100 →
  0 <= year b < 10000 → 0 <= month b < 100 → 0 <= day b < 100 →
  String.compare (date_text a) (date_text b) = compare_dates a b.
Proof.
  intros Hya Hma Hda Hyb Hmb Hdb. unfold date_text.
  rewrite compare_app by (by rewrite !length_digits).
  rewrite (compare_digits 4) by done. destruct (year a ?= year b); [|done..].
  rewrite compare_prefix.
  rewrite compare_app by (by rewrite !length_digits).
  rewrite (compare_digits 2) by done. destruct (month a ?= month b); [|done..].
  rewrite compare_prefix.
  by apply (compare_digits 2).
Qed.

Lemma compare_dates_Lt a b : compare_dates a b = Lt ↔ date_before a b.
Proof.
  unfold date_before.
  destruct (Z.compare_spec (year a) (year b)); [|split; [lia|done]|split; [done|lia]].
  destruct (Z.compare_spec (month a) (month b)); [|split; [lia|done]|split; [done|lia]].
  destruct (Z.compare_spec (day a) (day b)); split; try done; lia.
Qed.

Lemma compare_dates_Eq a b : compare_dates a b = Eq ↔ same_date a b.
Proof.
  unfold same_date.
  destruct (Z.compare_spec (year a) (year b)); [|split; [done|lia]..].
  destruct (Z.compare_spec (month a) (month b)); [|split; [done|lia]..].
  destruct (Z.compare_spec (day a) (day b)); split; try done; lia.
Qed.

(** The ISO text of [c] against the [CURRENT_TIMESTAMP] text of [a]:
    the dates decide, and on equal dates ["T"] is after [" "]. *)
Lemma compare_isoformat_CURRENT_TIMESTAMP c a :
  0 <= year a < 10000 → 0 <= month a < 100 → 0 <= day a < 100 →
  0 <= year c < 10000 → 0 <= month c < 100 → 0 <= day c < 100 →
  String.compare (isoformat c) (CURRENT_TIMESTAMP a)
  = match compare_dates c a with Eq => Gt | order => order end.
Proof.
  intros. unfold isoformat, CURRENT_TIMESTAMP.
  rewrite compare_app by (by rewrite !length_date_text).
  rewrite compare_date_text by done.
  by destruct (compare_dates c a).
Qed.

Lemma valid_date dt :
  valid dt = true →
  (1 <= year dt <= 9999) ∧ (1 <= month dt <= 12) ∧ (1 <= day dt <= 31).
Proof.
  intros H. unfold valid in H. repeat (apply andb_true_iff in H as [H ?]).
  repeat match goal with
         | H : (_ <=? _) = true |- _ => apply Z.leb_le in H
         end.
  assert (days_in_month (year dt) (month dt) <= 31).
  { unfold days_in_month.
    destruct (month dt =? 2); [destruct (is_leap (year dt)); lia|].
    destruct (_ || _); lia. }
  lia.
Qed.

Lemma month_day_bounds y n :
  0 <= n < 365 →
  1 <= fst (month_day y 11 1 n) <= 12 ∧ 1 <= snd (month_day y 11 1 n) <= 31.
Proof.
  intros Hn. cbn [month_day]. unfold days_in_month. simpl Z.eqb. simpl orb.
  cbv iota. destruct (is_leap y);
    repeat match goal with
           | |- context [?a <? ?b] => destruct (Z.ltb_spec a b)
           end; simpl; lia.
Qed.

Lemma fromordinal_bounds n :
  0 < n <= MAXORDINAL →
  let '(y, m, d) := fromordinal n in
  (1 <= y <= 9999) ∧ (1 <= m <= 12) ∧ (1 <= d <= 31).
Proof.
  unfold MAXORDINAL, fromordinal. intros Hn. cbv zeta.
  set (n400 := (n - 1) / 146097). set (r400 := (n - 1) mod 146097).
  set (n100 := r400 / 36524). set (r100 := r400 mod 36524).
  set (n4 := r100 / 1461). set (r4 := r100 mod 1461).
  set (n1 := r4 / 365). set (r1 := r4 mod 365).
  assert (0 <= r1 < 365) as Hr1 by (apply Z.mod_pos_bound; lia).
  assert (n - 1 = 146097 * n400 + r400 ∧ 0 <= r400 < 146097) as [E400 B400].
  { split; [apply Z.div_mod; lia|apply Z.mod_pos_bound; lia]. }
  assert (r400 = 36524 * n100 + r100 ∧ 0 <= r100 < 36524) as [E100 B100].
  { split; [apply Z.div_mod; lia|apply Z.mod_pos_bound; lia]. }
  assert (r100 = 1461 * n4 + r4 ∧ 0 <= r4 < 1461) as [E4 B4].
  { split; [apply Z.div_mod; lia|apply Z.mod_pos_bound; lia]. }
  assert (r4 = 365 * n1 + r1) as E1 by (apply Z.div_mod; lia).
  clearbody n400 r400 n100 r100 n4 r4 n1 r1.
  destruct (_ || _) eqn:Hlast.
  - apply orb_true_iff in Hlast. rewrite !Z.eqb_eq in Hlast. lia.
  - apply orb_false_iff in Hlast. rewrite !Z.eqb_neq in Hlast.
    pose proof (month_day_bounds (n400 * 400 + n100 * 100 + n4 * 4 + n1 + 1) r1 Hr1) as Hmd.
    destruct (month_day _ 11 1 r1) as [m d]. simpl in Hmd. lia.
Qed.

Lemma minus_timedelta_date dt delta r :
  minus_timedelta dt delta = Returned r →
  (1 <= year r <= 9999) ∧ (1 <= month r <= 12) ∧ (1 <= day r <= 31).
Proof.
  unfold minus_timedelta. cbv zeta.
  destruct (_ && _) eqn:Hrange; [|done].
  apply andb_true_iff in Hrange as [?%Z.ltb_lt ?%Z.leb_le].
  pose proof (fromordinal_bounds ((instant dt - delta) / microseconds_per_day)
                ltac:(lia)) as Hb.
  destruct (fromordinal _) as [[y m] d]. by intros [= <-].
Qed.

(** The WHERE condition [cached_at > ?] of the reads, on a stamp written
    by [CURRENT_TIMESTAMP] and the ISO text of a cutoff. *)
Lemma fresh_iff_date_before stored cutoff_time now delta :
  valid stored = true →
  minus_timedelta now delta = Returned cutoff_time →
  text_gt (CURRENT_TIMESTAMP stored) (isoformat cutoff_time) = true
  ↔ date_before cutoff_time stored.
Proof.
  intros Hs%valid_date Hc%minus_timedelta_date.
  unfold text_gt, text_lt.
  rewrite compare_isoformat_CURRENT_TIMESTAMP by lia.
  rewrite <- compare_dates_Lt. by destruct (compare_dates cutoff_time stored).
Qed.

(** The WHERE condition [last_accessed < ?] of the cleanup. *)
Lemma stale_iff_not_date_before accessed cutoff_time now delta :
  valid accessed = true →
  minus_timedelta now delta = Returned cutoff_time →
  text_lt (CURRENT_TIMESTAMP accessed) (isoformat cutoff_time) = true
  ↔ ¬ date_before cutoff_time accessed.
Proof.
  intros Hs%valid_date Hc%minus_timedelta_date.
  unfold text_lt. rewrite String.compare_antisym.
  rewrite compare_isoformat_CURRENT_TIMESTAMP by lia.
  rewrite <- compare_dates_Lt. by destruct (compare_dates cutoff_time accessed).
Qed.

(** X22.  The test on [cached_at] of the two reads, for an entry stored
    at the valid UTC time [stored] and a cutoff [cutoff_time], the local
    time [max_age_hours] before now, looks at the two calendar dates
    only.  When the date of [stored] is after the date of the cutoff the
    entry is served, [get_certificate_by_id] returning its payload and
    the unfiltered WHERE clause of [get_certificates] selecting it by its
    type; when it is the same date or an earlier one, the entry is not
    served, whatever the times of day, and the cache is not touched.  A
    served entry that holds a number in place of a payload makes
    [get_certificate_by_id] raise [TypeError]. *)
Theorem freshness_is_decided_by_the_dates now utc id max_age_hours db cutoff_time stored row :
  valid stored = true →
  minus_timedelta now (hours max_age_hours) = Returned cutoff_time →
  epc_certificates db !! KText id = Some row →
  cached_at row = CURRENT_TIMESTAMP stored →
  (date_before cutoff_time stored →
   fst (get_certificate_by_id now utc id max_age_hours db)
   = match data row with
     | JsonObject d => Returned (Some d)
     | NotJson => Returned None
     | Number => Raised TypeError
     end ∧
   ∀ json5 pt, selected json5 pt (isoformat cutoff_time) None None None row
               = Returned (String.eqb (property_type row) pt)) ∧
  (¬ date_before cutoff_time stored →
   get_certificate_by_id now utc id max_age_hours db = (Returned None, db) ∧
   ∀ json5 pt postcode authority uprn,
     selected json5 pt (isoformat cutoff_time) postcode authority uprn row = Returned false).
Proof.
  intros Hvalid Hcut Hrow Hstamp.
  pose proof (fresh_iff_date_before _ _ _ _ Hvalid Hcut) as Hfresh.
  rewrite <- Hstamp in Hfresh.
  unfold get_certificate_by_id, cutoff_hours, selected. rewrite Hcut, Hrow. simpl.
  split.
  - intros Hb%Hfresh. rewrite Hb. split; [by destruct (data row)|].
    intros json5 pt. by destruct (String.eqb _ _).
  - intros Hb. assert (text_gt (cached_at row) (isoformat cutoff_time) = false) as ->.
    { apply not_true_iff_false. by rewrite Hfresh. }
    split; [done|]. intros json5 pt ? ? ?. by rewrite andb_false_r.
Qed.

(** X23.  [cleanup_old_data] keeps an entry last accessed at the valid
    UTC time [accessed] when the calendar date of [accessed] is after
    the date of the cutoff, and deletes it when it is the same date or
    an earlier one, whatever the times of day. *)
Theorem cleanup_is_decided_by_the_dates now max_age_days db cutoff_time accessed id row :
  valid accessed = true →
  minus_timedelta now (days max_age_days) = Returned cutoff_time →
  epc_certificates db !! id = Some row →
  last_accessed row = CURRENT_TIMESTAMP accessed →
  let db' := snd (fst (cleanup_old_data now max_age_days db)) in
  (date_before cutoff_time accessed → epc_certificates db' !! id = Some row) ∧
  (¬ date_before cutoff_time accessed → epc_certificates db' !! id = None).
Proof.
  intros Hvalid Hcut Hrow Hstamp db'. subst db'.
  pose proof (stale_iff_not_date_before _ _ _ _ Hvalid Hcut) as Hstale.
  rewrite <- Hstamp in Hstale.
  unfold cleanup_old_data, cutoff_days. rewrite Hcut. simpl.
  rewrite DatabaseProofs.kept_lookup, Hrow. simpl.
  destruct (text_lt _ _); split; try done.
  - intros Hb. by apply Hstale in Hb.
  - intros Hb. exfalso. apply Hb. destruct (decide (date_before cutoff_time accessed)); [done|].
    by apply Hstale in n.
Qed.

(** *** Two stamps of SQLite *)

Lemma compare_time_text a b :
  0 <= hour a < 24 → 0 <= minute a < 60 → 0 <= second a < 60 →
  0 <= hour b < 24 → 0 <= minute b < 60 → 0 <= second b < 60 →
  String.compare (time_text a) (time_text b) = (time_of_day a ?= time_of_day b).
Proof.
  intros Hha Hma Hsa Hhb Hmb Hsb. unfold time_text, time_of_day.
  rewrite compare_app by (by rewrite !length_digits).
  rewrite (compare_digits 2) by (simpl; lia).
  destruct (Z.compare_spec (hour a) (hour b)) as [Hh|Hh|Hh];
    [|symmetry; apply Z.compare_lt_iff; lia|symmetry; apply Z.compare_gt_iff; lia].
  rewrite compare_prefix, compare_app by (by rewrite !length_digits).
  rewrite (compare_digits 2) by (simpl; lia).
  destruct (Z.compare_spec (minute a) (minute b)) as [Hm|Hm|Hm];
    [|symmetry; apply Z.compare_lt_iff; lia|symmetry; apply Z.compare_gt_iff; lia].
  rewrite compare_prefix, (compare_digits 2) by (simpl; lia).
  destruct (Z.compare_spec (second a) (second b));
    symmetry; [apply Z.compare_eq_iff|apply Z.compare_lt_iff|apply Z.compare_gt_iff]; lia.
Qed.

Lemma valid_time dt :
  valid dt = true →
  (0 <= hour dt < 24) ∧ (0 <= minute dt < 60) ∧ (0 <= second dt < 60).
Proof.
  intros H. unfold valid in H. repeat (apply andb_true_iff in H as [H ?]).
  repeat match goal with
         | H : (_ <=? _) = true |- _ => apply Z.leb_le in H
         | H : (_ <? _) = true |- _ => apply Z.ltb_lt in H
         end.
  lia.
Qed.

(** Two texts of the form of [CURRENT_TIMESTAMP] are in the order of
    their times. *)
Lemma later_stamp_iff_earlier a b :
  valid a = true → valid b = true →
  text_gt (CURRENT_TIMESTAMP b) (CURRENT_TIMESTAMP a) = true ↔ earlier a b.
Proof.
  intros Ha Hb.
  pose proof (valid_date _ Ha). pose proof (valid_date _ Hb).
  pose proof (valid_time _ Ha). pose proof (valid_time _ Hb).
  unfold text_gt, text_lt, CURRENT_TIMESTAMP, earlier.
  rewrite compare_app by (by rewrite !length_date_text).
  rewrite compare_date_text by lia.
  rewrite <- compare_dates_Lt, <- compare_dates_Eq.
  destruct (compare_dates a b).
  - rewrite compare_prefix, compare_time_text by lia.
    destruct (Z.compare_spec (time_of_day a) (time_of_day b)); split; try done;
      (intros [?|[_ ?]]; [done|lia]) || (intros _; right; split; [done|lia]).
  - split; [by left|done].
  - split; [done|]. by intros [?|[? _]].
Qed.

(** X24.  [recent_certificates] counts an entry exactly when it was
    stored after the instant that SQLite computes for 24 hours ago, to
    the second: with the entry the count is one more than without it
    when [stored] is later than that instant, and the same otherwise. *)
Theorem recent_count_is_chronological a_day_ago db_path db id row stored :
  valid a_day_ago = true → valid stored = true →
  epc_certificates db !! id = Some row →
  cached_at row = CURRENT_TIMESTAMP stored →
  let without :=
    {| epc_certificates := delete id (epc_certificates db); search_cache := search_cache db |} in
  let recent d := recent_certificates (get_cache_stats (CURRENT_TIMESTAMP a_day_ago) db_path d) in
  (earlier a_day_ago stored → recent db = recent without + 1) ∧
  (¬ earlier a_day_ago stored → recent db = recent without).
Proof.
  intros Ha Hs Hrow Hstamp without recent. subst without recent.
  cbn [get_cache_stats recent_certificates epc_certificates].
  pose proof (later_stamp_iff_earlier _ _ Ha Hs) as Hlater. rewrite <- Hstamp in Hlater.
  rewrite <- (insert_delete_id _ _ _ Hrow) at 1 3. split.
  - intros He%Hlater. rewrite map_filter_insert_True by done.
    rewrite map_size_insert_None by (by rewrite map_lookup_filter, lookup_delete_eq).
    lia.
  - intros He. rewrite <- Hlater in He.
    rewrite map_filter_insert_not' by (done || by rewrite lookup_delete_eq).
    done.
Qed.

(** *** The theorems at work *)

(** An entry stored an hour and a half ago is not served within a day. *)
Lemma freshness_is_decided_by_the_dates_witness :
  let db := cached_at_time (at_time 2024 3 10 23 0 0) in
  get_certificate_by_id (at_time 2024 3 11 0 30 0) (at_time 2024 3 11 0 30 0) "k1" 24 db
  = (Returned None, db) ∧
  ∀ json5 pt postcode authority uprn,
    selected json5 pt "2024-03-10T00:30:00" postcode authority uprn
      {| property_type := "domestic"; data := JsonObject first_payload;
         cached_at := "2024-03-10 23:00:00"; last_accessed := "2024-03-10 23:00:00" |}
    = Returned false.
Proof.
  intros db.
  refine (proj2 (FreshnessProperties.freshness_is_decided_by_the_dates
                   (at_time 2024 3 11 0 30 0) (at_time 2024 3 11 0 30 0) "k1" 24 db
                   (at_time 2024 3 10 0 30 0) (at_time 2024 3 10 23 0 0)
                   (entry (at_time 2024 3 10 23 0 0) "domestic" (JsonObject first_payload))
                   _ _ _ _) _).
  - vm_compute. reflexivity.
  - vm_compute. reflexivity.
  - vm_compute. reflexivity.
  - reflexivity.
  - unfold date_before. simpl. lia.
Defined.

Lemma cleanup_is_decided_by_the_dates_witness :
  let db := cached_at_time (at_time 2024 3 10 23 0 0) in
  epc_certificates (snd (fst (cleanup_old_data (at_time 2024 4 9 1 0 0) 30 db))) !! KText "k1"
  = None.
Proof.
  intros db.
  refine (proj2 (FreshnessProperties.cleanup_is_decided_by_the_dates
                   (at_time 2024 4 9 1 0 0) 30 db
                   (at_time 2024 3 10 1 0 0) (at_time 2024 3 10 23 0 0) (KText "k1")
                   (entry (at_time 2024 3 10 23 0 0) "domestic" (JsonObject first_payload))
                   _ _ _ _) _).
  - vm_compute. reflexivity.
  - vm_compute. reflexivity.
  - vm_compute. reflexivity.
  - reflexivity.
  - unfold date_before. simpl. lia.
Defined.

Lemma recent_count_is_chronological_witness :
  let db := cached_at_time (at_time 2024 3 10 12 0 0) in
  let without :=
    {| epc_certificates := delete (KText "k1") (epc_certificates db);
       search_cache := search_cache db |} in
  let recent d :=
    recent_certificates
      (get_cache_stats (CURRENT_TIMESTAMP (at_time 2024 3 10 9 0 0)) "data/epc_cache.db" d) in
  recent db = recent without + 1.
Proof.
  intros db without recent.
  refine (proj1 (FreshnessProperties.recent_count_is_chronological
                   (at_time 2024 3 10 9 0 0) "data/epc_cache.db" db (KText "k1")
                   (entry (at_time 2024 3 10 12 0 0) "domestic" (JsonObject first_payload))
                   (at_time 2024 3 10 12 0 0) _ _ _ _) _).
  - vm_compute. reflexivity.
  - vm_compute. reflexivity.
  - vm_compute. reflexivity.
  - reflexivity.
  - right. split; [repeat split|vm_compute; reflexivity].
Defined.

End FreshnessProperties.
